(** * Artifact storage and retrieval: uploadToCloudinary and PDFHandler

    A shallow embedding of the write path
    (backend/server/middleware/cloudinaryUpload.js: [uploadToCloudinary])
    and of the read path (f/src/utils/pdfHandler.js: class [PDFHandler]),
    followed by the properties of the specification that concern them.

    Modelling conventions.
    - A JavaScript string is a list of code units; the model keeps the code
      units 0..255, so a character is an [ascii].  Property names of objects
      are Rocq [string]s.
    - A JavaScript value held in a descriptor field or in an options object is
      a [JsVal]: undefined, null, a boolean or a string.  Calling a string
      method on a value that is not a string raises a TypeError, as in the
      source language.
    - Effects are explicit.  On the server side a computation takes the state
      of the world (the files on disk and the calls made so far) and returns
      the new state with either a value or a thrown error.  On the browser
      side a computation yields the trace of its host calls, in order, with
      either a value or a thrown error; what the host answers to a call is
      given by a record of functions. *)

From Stdlib Require Import ZArith NArith Ascii String List Bool Lia.
From Stdlib Require Import Numbers.DecimalString Numbers.DecimalN.
From stdpp Require Import gmap strings list fin_maps.

Local Open Scope bool_scope.
Local Open Scope list_scope.

(* ===================================================================== *)
(** * Part I. Definitions                                                  *)
(* ===================================================================== *)

(** ** JavaScript strings *)

Abbreviation jsstring := (list ascii).

(** A string literal of the source. *)
Definition str (s : string) : jsstring := list_ascii_of_string s.

(** Equality of two code units. *)
Definition chr_eqb (a b : ascii) : bool := Ascii.eqb a b.

(** [s.startsWith(pat)] *)
Fixpoint startsWith (s pat : jsstring) : bool :=
  match pat with
  | [] => true
  | p :: pat' =>
      match s with
      | [] => false
      | c :: s' => chr_eqb c p && startsWith s' pat'
      end
  end.

(** [s.includes(pat)] *)
Fixpoint includes (s pat : jsstring) : bool :=
  startsWith s pat ||
  match s with
  | [] => false
  | _ :: s' => includes s' pat
  end.

(** [s.replace(pat, rep)] with a string pattern: only the first (leftmost)
    occurrence is replaced.  The replacement texts used by the source hold
    no dollar sign, so no replacement pattern is expanded. *)
Fixpoint replace (s pat rep : jsstring) : jsstring :=
  if startsWith s pat then rep ++ drop (length pat) s
  else match s with
       | [] => []
       | c :: s' => c :: replace s' pat rep
       end.

(** Number of positions of [s] at which [pat] occurs (overlaps counted). *)
Fixpoint occurrences (s pat : jsstring) : nat :=
  (if startsWith s pat then 1 else 0) +
  match s with
  | [] => 0
  | _ :: s' => occurrences s' pat
  end.

(** [s.endsWith(suf)] *)
Definition endsWith (s suf : jsstring) : bool :=
  startsWith (rev s) (rev suf).

(** White space and line terminators of the language among the code units
    0..255: TAB, LF, VT, FF, CR, SP and NBSP. *)
Definition is_ws (c : ascii) : bool :=
  match N_of_ascii c with
  | 9 | 10 | 11 | 12 | 13 | 32 | 160 => true
  | _ => false
  end%N.

Fixpoint trimStart (s : jsstring) : jsstring :=
  match s with
  | [] => []
  | c :: s' => if is_ws c then trimStart s' else s
  end.

Fixpoint trimEnd (s : jsstring) : jsstring :=
  match s with
  | [] => []
  | c :: s' =>
      match trimEnd s' with
      | [] => if is_ws c then [] else [c]
      | r => c :: r
      end
  end.

(** [s.trim()] *)
Definition trim (s : jsstring) : jsstring := trimEnd (trimStart s).

(** [c.toLowerCase()] on one code unit below 256: A-Z, and the Latin-1
    capitals 192..222 without the multiplication sign 215. *)
Definition lower_chr (c : ascii) : ascii :=
  let n := N_of_ascii c in
  if ((65 <=? n) && (n <=? 90) ||
      (192 <=? n) && (n <=? 222) && negb (n =? 215))%N
  then ascii_of_N (n + 32) else c.

(** [s.toLowerCase()] *)
Definition toLowerCase (s : jsstring) : jsstring := map lower_chr s.

Definition is_alnum (c : ascii) : bool :=
  let n := N_of_ascii c in
  ((48 <=? n) && (n <=? 57) || (65 <=? n) && (n <=? 90) ||
   (97 <=? n) && (n <=? 122))%N.

Fixpoint take_while {A} (p : A -> bool) (l : list A) : list A :=
  match l with
  | [] => []
  | x :: l' => if p x then x :: take_while p l' else []
  end.

(** [/\.pdf$/i.test(s)] *)
Definition test_pdf_ext (s : jsstring) : bool :=
  endsWith (toLowerCase s) (str ".pdf").

(** [/\.[A-Za-z0-9]{2,6}$/.test(s)]: the string ends with a dot followed by
    two to six letters or digits.  A dot is no letter or digit, so the dot
    has to stand right before the longest run of them that ends the string. *)
Definition test_has_extension (s : jsstring) : bool :=
  let r := rev s in
  let run := length (take_while is_alnum r) in
  (2 <=? run) && (run <=? 6) &&
  match drop run r with
  | c :: _ => chr_eqb c "."
  | [] => false
  end.

(** The characters of the class used by the sanitizing pattern: less-than,
    greater-than, colon, double quote, slash, backslash, bar, question mark
    and star. *)
Definition is_illegal (c : ascii) : bool :=
  match N_of_ascii c with
  | 60 | 62 | 58 | 34 | 47 | 92 | 124 | 63 | 42 => true
  | _ => false
  end%N.

(** Global replacement of every character of that class by an underscore. *)
Definition replace_illegal (s : jsstring) : jsstring :=
  map (fun c => if is_illegal c then "_"%char else c) s.

(** [s.replace(/\.(pdf|jpg|jpeg|png|gif)$/i, '')] *)
Definition strip_known_ext (s : jsstring) : jsstring :=
  let l := toLowerCase s in
  if endsWith l (str ".pdf") || endsWith l (str ".jpg") ||
     endsWith l (str ".png") || endsWith l (str ".gif")
  then take (length s - 4) s
  else if endsWith l (str ".jpeg") then take (length s - 5) s
  else s.

(** [s.match(/res\.cloudinary\.com\/([^/]+)/)?.[1]]: the first capture group
    of the leftmost match, [None] when there is no match. *)
Fixpoint match_cloud_name (s : jsstring) : option jsstring :=
  let next := match s with
              | [] => None
              | _ :: s' => match_cloud_name s'
              end in
  if startsWith s (str "res.cloudinary.com/") then
    match take_while (fun c => negb (chr_eqb c "/"))
                     (drop (length (str "res.cloudinary.com/")) s) with
    | [] => next
    | nm => Some nm
    end
  else next.

(** Decimal text of a non-negative integer, as in [`${response.status}`]. *)
Definition dec_of_N (n : N) : jsstring :=
  str (NilZero.string_of_uint (N.to_uint n)).

(** ** JavaScript values *)

Inductive JsVal : Type :=
| VUndef
| VNull
| VBool (b : bool)
| VStr (s : jsstring).

Global Instance JsVal_eq_dec : EqDecision JsVal.
Proof. solve_decision. Defined.

(** ToBoolean *)
Definition truthy (v : JsVal) : bool :=
  match v with
  | VUndef | VNull => false
  | VBool b => b
  | VStr [] => false
  | VStr (_ :: _) => true
  end.

(** [a || b] *)
Definition js_or (a b : JsVal) : JsVal := if truthy a then a else b.

(** ToString, as performed by a template literal. *)
Definition toString (v : JsVal) : jsstring :=
  match v with
  | VUndef => str "undefined"
  | VNull => str "null"
  | VBool true => str "true"
  | VBool false => str "false"
  | VStr s => s
  end.

(** Strict equality with a string literal: [v === 'lit']. *)
Definition is_str (v : JsVal) (lit : jsstring) : bool :=
  match v with
  | VStr s => bool_decide (s = lit)
  | _ => false
  end.

(** ** Errors and outcomes *)

Inductive JsError : Type :=
| TypeError (what : string)          (* a method called on a non-string *)
| Error (message : jsstring)         (* [new Error(message)] *)
| HostError (message : jsstring).    (* raised by the host or the store *)

Definition error_message (e : JsError) : jsstring :=
  match e with
  | TypeError what => str what
  | Error m => m
  | HostError m => m
  end.

Inductive outcome (A : Type) : Type :=
| Ret (a : A)
| Throw (e : JsError).
Arguments Ret {A} a.
Arguments Throw {A} e.

(** ** The monad of effectful code: state passing with exceptions *)

Section Monad.
Context {W : Type}.

Definition M (A : Type) : Type := W -> W * outcome A.

Definition ret {A} (a : A) : M A := fun w => (w, Ret a).
Definition throw {A} (e : JsError) : M A := fun w => (w, Throw e).

Definition bind {A B} (m : M A) (k : A -> M B) : M B :=
  fun w =>
    match m w with
    | (w', Ret a) => k a w'
    | (w', Throw e) => (w', Throw e)
    end.

(** [try { m } catch (e) { h e }] *)
Definition try_catch {A} (m : M A) (h : JsError -> M A) : M A :=
  fun w =>
    match m w with
    | (w', Ret a) => (w', Ret a)
    | (w', Throw e) => h e w'
    end.

(** A pure step that may throw. *)
Definition lift {A} (o : outcome A) : M A := fun w => (w, o).
End Monad.

Declare Scope state_scope.
Notation "x <- m ;; k" := (bind m (fun x => k))
  (at level 100, m at next level, right associativity) : state_scope.
Notation "m ;;; k" := (bind m (fun _ => k))
  (at level 100, right associativity) : state_scope.

(** ** The monad of code that only calls out: the calls are recorded in
    order, and an exception ends the computation *)

Module Trace.
Section Trace.
Context {E : Type}.

Definition T (A : Type) : Type := (list E * outcome A)%type.

Definition ret {A} (a : A) : T A := ([], Ret a).
Definition throw {A} (e : JsError) : T A := ([], Throw e).

Definition bind {A B} (m : T A) (k : A -> T B) : T B :=
  match m with
  | (l, Ret a) => let (l', r) := k a in (l ++ l', r)
  | (l, Throw e) => (l, Throw e)
  end.

(** [try { m } catch (e) { h e }] *)
Definition try_catch {A} (m : T A) (h : JsError -> T A) : T A :=
  match m with
  | (l, Ret a) => (l, Ret a)
  | (l, Throw e) => let (l', r) := h e in (l ++ l', r)
  end.

Definition lift {A} (o : outcome A) : T A := ([], o).

Definition emit (e : E) : T unit := ([e], Ret tt).
End Trace.
End Trace.

Declare Scope trace_scope.
Notation "x <- m ;; k" := (Trace.bind m (fun x => k))
  (at level 100, m at next level, right associativity) : trace_scope.
Notation "m ;;; k" := (Trace.bind m (fun _ => k))
  (at level 100, right associativity) : trace_scope.

(** A string method is defined on strings only. *)
Definition as_string (what : string) (v : JsVal) : outcome jsstring :=
  match v with
  | VStr s => Ret s
  | _ => Throw (TypeError what)
  end.

Definition obind {A B} (o : outcome A) (k : A -> outcome B) : outcome B :=
  match o with
  | Ret a => k a
  | Throw e => Throw e
  end.

Notation "x <~ o ;; k" := (obind o (fun x => k))
  (at level 100, o at next level, right associativity).

(* --------------------------------------------------------------------- *)
(** ** Write path: cloudinaryUpload.js                                     *)
(* --------------------------------------------------------------------- *)

Local Open Scope state_scope.

(** What the store answers to a successful put. *)
Record UploadResult : Type := mkUploadResult {
  resource_type : jsstring;
  secure_url : option jsstring;
  public_id : jsstring;
  bytes : N
}.

(** The remote store, an external collaborator:
    [cloudinary.uploader.upload(filePath, config)] resolves with a result or
    rejects with an error. *)
Record Cloudinary : Type := mkCloudinary {
  uploader_upload : jsstring -> gmap string JsVal -> outcome UploadResult
}.

Inductive server_event : Type :=
| SvLog (label : string)
| SvError (label : string)
| SvStoreUpload (filePath : jsstring) (config : gmap string JsVal).

(** The server: the files on disk and what was done so far. *)
Record Server : Type := mkServer {
  files : gset jsstring;
  sv_events : list server_event
}.

Definition sv_emit (e : server_event) : @M Server unit :=
  fun w => (mkServer (files w) (sv_events w ++ [e]), Ret tt).

(** [fs.existsSync(p)] *)
Definition existsSync (p : jsstring) : @M Server bool :=
  fun w => (w, Ret (bool_decide (p ∈ files w))).

(** [fs.unlinkSync(p)]: removes the file, and throws when there is none. *)
Definition unlinkSync (p : jsstring) : @M Server unit :=
  fun w =>
    if bool_decide (p ∈ files w)
    then (mkServer (files w ∖ {[p]}) (sv_events w), Ret tt)
    else (w, Throw (HostError (str "ENOENT: no such file or directory, unlink"))).

Definition store_upload (c : Cloudinary) (filePath : jsstring)
    (config : gmap string JsVal) : @M Server UploadResult :=
  fun w => (mkServer (files w) (sv_events w ++ [SvStoreUpload filePath config]),
            uploader_upload c filePath config).

(** [o.k] on an object used as a map: undefined when the key is missing. *)
Definition prop (o : gmap string JsVal) (k : string) : JsVal :=
  default VUndef (o !! k).

Definition raw : jsstring := str "raw".
Definition image_segment : jsstring := str "/image/upload/".
Definition raw_segment : jsstring := str "/raw/upload/".

Definition default_config : gmap string JsVal :=
  <["folder" := VStr (str "jamalpur-chamber")]>
  (<["resource_type" := VStr (str "auto")]>
  (<["type" := VStr (str "upload")]>
  (<["access_mode" := VStr (str "public")]> ∅))).

(** The value of the variable [baseConfig] when the store is called
    (lines 149-161): the defaults overridden by the spread of the caller's
    options, then the two image options unless the resource type is raw. *)
Definition baseConfig (options : gmap string JsVal) : gmap string JsVal :=
  let base := options ∪ default_config in
  if negb (is_str (prop base "resource_type") raw)
  then <["fetch_format" := VStr (str "auto")]>
         (<["quality" := VStr (str "auto")]> base)
  else base.

(** Lines 192-200: the delivery URL of a raw upload is moved from the image
    path to the raw path. *)
Definition fix_raw_url (options : gmap string JsVal) (result : UploadResult)
    : @M Server UploadResult :=
  if is_str (prop options "resource_type") raw ||
     bool_decide (resource_type result = raw)
  then
    match secure_url result with
    | Some (c :: u) =>
        if includes (c :: u) image_segment then
          let result' :=
            mkUploadResult (resource_type result)
              (Some (replace (c :: u) image_segment raw_segment))
              (public_id result) (bytes result) in
          sv_emit (SvLog "Fixed URL to use raw format:") ;;; ret result'
        else ret result
    | _ => ret result
    end
  else ret result.

(** [uploadToCloudinary(filePath, options = {})] *)
Definition uploadToCloudinary (c : Cloudinary) (filePath : jsstring)
    (options : gmap string JsVal) : @M Server UploadResult :=
  try_catch
    (sv_emit (SvLog "Uploading to Cloudinary:") ;;;
     result <- store_upload c filePath (baseConfig options) ;;
     sv_emit (SvLog "Cloudinary upload result:") ;;;
     (if is_str (prop options "resource_type") raw &&
         negb (bool_decide (resource_type result = raw))
      then sv_emit (SvError "WARNING: PDF uploaded but resource_type is not raw!")
      else ret tt) ;;;
     result' <- fix_raw_url options result ;;
     unlinkSync filePath ;;;
     ret result')
    (fun error =>
       there <- existsSync filePath ;;
       (if there then unlinkSync filePath else ret tt) ;;;
       throw error).

(** The calls of the controllers: the notice and form controllers upload a
    PDF with no options, the gallery controller uploads an image. *)
Definition notice_upload (c : Cloudinary) (path : jsstring)
    : @M Server UploadResult :=
  uploadToCloudinary c path ∅.

Definition gallery_options : gmap string JsVal :=
  <["folder" := VStr (str "jamalpur-chamber/gallery")]>
  (<["resource_type" := VStr (str "image")]>
  (<["quality" := VStr (str "auto")]>
  (<["fetch_format" := VStr (str "auto")]> ∅))).

Definition gallery_upload (c : Cloudinary) (path : jsstring)
    : @M Server UploadResult :=
  uploadToCloudinary c path gallery_options.

(* --------------------------------------------------------------------- *)
(** ** Read path: pdfHandler.js                                            *)
(* --------------------------------------------------------------------- *)

Local Close Scope state_scope.
Local Open Scope trace_scope.

(** The artifact descriptor: an object whose fields may each be missing. *)
Record PdfFile : Type := mkPdfFile {
  filename : JsVal;
  fileId : JsVal;
  url : JsVal;
  publicId : JsVal;
  originalName : JsVal;
  data : JsVal;
  name : JsVal;
  mimetype : JsVal
}.

(** A blob: its MIME type and its bytes. *)
Record Blob : Type := mkBlob {
  blob_type : jsstring;
  blob_bytes : list ascii
}.

(** [blob.size] *)
Definition blob_size (b : Blob) : nat := length (blob_bytes b).

(** The second argument of [fetch]. *)
Record FetchInit : Type := mkFetchInit {
  f_method : jsstring;
  f_mode : option jsstring;
  f_cache : jsstring;
  f_credentials : jsstring;
  f_accept : option jsstring
}.

(** A response: its status, its content-type header and what
    [response.blob()] settles to. *)
Record Response : Type := mkResponse {
  status : N;
  content_type : option jsstring;
  body : outcome Blob
}.

(** [response.ok]: the status is in the range 200-299. *)
Definition response_ok (r : Response) : bool :=
  ((200 <=? status r) && (status r <=? 299))%N.

(** The host: the build-time environment, the network, and the browser. *)
Record Host : Type := mkHost {
  REACT_APP_API_URL : option jsstring;
  host_fetch : jsstring -> FetchInit -> outcome Response;
  (* [window.open]: a window ([true]), [null] ([false]), or an exception *)
  host_open : jsstring -> outcome bool;
  host_createObjectURL : Blob -> outcome jsstring;
  (* create an anchor with this href and download name, append it, click it *)
  host_click : jsstring -> jsstring -> outcome unit
}.

(** The fixed first argument of each [console.log], [console.warn] and
    [console.error] of the handler. *)
Inductive label : Type :=
| DownloadNoFile
| DownloadAttempt
| UsingCloudinary
| UsingServer
| UsingDataUrl
| InvalidFormat
| DownloadError
| ViewNoFile
| ViewAttempt
| OpeningCloudinary
| OpeningServer
| OpeningDataUrl
| ViewError
| PrintNoFile
| PrintInvalidFormat
| PrintError
| FetchingCloudinary
| ConvertedToRaw
| UsingPublicId
| ContentType
| BlobReceived
| MaybeNotPdf
| HeaderValidated
| BlobFinalized
| CloudinaryFailed
| ErrorDetails
| FetchingServer
| ServerBlobReceived
| ServerFailed
| DataUrlError
| DownloadingBlob
| DownloadTriggered
| BlobError.

(** The text of each label in the source (without its leading pictogram). *)
Definition label_text (l : label) : string :=
  match l with
  | DownloadNoFile => "pdfHandler.download: No PDF file provided"
  | DownloadAttempt => "pdfHandler.download: Attempting to download PDF:"
  | UsingCloudinary => "Using Cloudinary URL download method"
  | UsingServer => "Using server download method"
  | UsingDataUrl => "Using data URL download method"
  | InvalidFormat => "Invalid PDF file format - missing url, filename, fileId, and data:"
  | DownloadError => "PDF download error:"
  | ViewNoFile => "pdfHandler.view: No PDF file provided"
  | ViewAttempt => "pdfHandler.view: Attempting to view PDF:"
  | OpeningCloudinary => "Opening Cloudinary PDF URL:"
  | OpeningServer => "Opening PDF URL:"
  | OpeningDataUrl => "Opening data URL PDF"
  | ViewError => "PDF view error:"
  | PrintNoFile => "No PDF file provided"
  | PrintInvalidFormat => "Invalid PDF file format:"
  | PrintError => "PDF print error:"
  | FetchingCloudinary => "Fetching PDF from Cloudinary URL:"
  | ConvertedToRaw => "Converted image URL to raw URL:"
  | UsingPublicId => "Using publicId to construct raw URL:"
  | ContentType => "Content-Type:"
  | BlobReceived => "PDF blob received, size:"
  | MaybeNotPdf => "Warning: File may not be a valid PDF. First bytes:"
  | HeaderValidated => "PDF header validated:"
  | BlobFinalized => "Blob finalized (PDF), size:"
  | CloudinaryFailed => "PDF download from Cloudinary failed:"
  | ErrorDetails => "Error details:"
  | FetchingServer => "Fetching PDF from server:"
  | ServerBlobReceived => "PDF blob received from server, size:"
  | ServerFailed => "Server PDF download failed:"
  | DataUrlError => "Error downloading from data URL:"
  | DownloadingBlob => "Downloading blob as:"
  | DownloadTriggered => "Download triggered for:"
  | BlobError => "Error downloading blob:"
  end.

(** What a call does to the outside; a trace lists these in order. *)
Inductive event : Type :=
| EvLog (l : label)
| EvWarn (l : label) (arg : jsstring)
| EvErrorLog (l : label) (e : option JsError)
| EvAlert (message : jsstring)
| EvFetch (u : jsstring) (init : FetchInit)
| EvWindowOpen (u : jsstring)
| EvSetOnload
| EvReadHeader (chunk : list ascii)
| EvCreateObjectURL (b : Blob)
| EvAnchorClick (href download : jsstring)
| EvSetTimeout (ms : N).

Abbreviation BM := (@Trace.T event).

Definition emit (e : event) : BM unit := Trace.emit e.

Definition console_log (l : label) : BM unit := emit (EvLog l).
Definition console_warn (l : label) (arg : jsstring) : BM unit :=
  emit (EvWarn l arg).
Definition console_error (l : label) (e : option JsError) : BM unit :=
  emit (EvErrorLog l e).
Definition alert (m : jsstring) : BM unit := emit (EvAlert m).

Definition fetch (h : Host) (u : jsstring) (init : FetchInit) : BM Response :=
  ([EvFetch u init], host_fetch h u init).

Definition window_open (h : Host) (u : jsstring) : BM bool :=
  ([EvWindowOpen u], host_open h u).

Definition createObjectURL (h : Host) (b : Blob) : BM jsstring :=
  ([EvCreateObjectURL b], host_createObjectURL h b).

Definition anchor_click (h : Host) (href download : jsstring) : BM unit :=
  ([EvAnchorClick href download], host_click h href download).

(** [process.env.REACT_APP_API_URL || "https://.../api"] *)
Definition api_base (h : Host) : jsstring :=
  match REACT_APP_API_URL h with
  | Some (c :: s) => c :: s
  | _ => str "https://jamalpur-chamber-backend-b61d.onrender.com/api"
  end.

(** The legacy URL, written out three times in the source (download, view,
    print): [`${base}/files/${pdfFile.filename || pdfFile.fileId}`]. *)
Definition legacy_url (h : Host) (f : PdfFile) : jsstring :=
  api_base h ++ str "/files/" ++ toString (js_or (filename f) (fileId f)).

(** The extension inferred from a lower-cased MIME type.  In [getFilename]
    the chain has a last branch for octet-stream that leaves the extension
    empty, as the default does. *)
Definition ext_of_mime (mime : jsstring) : jsstring :=
  if includes mime (str "pdf") then str ".pdf"
  else if includes mime (str "jpeg") || includes mime (str "jpg") then str ".jpg"
  else if includes mime (str "png") then str ".png"
  else if includes mime (str "gif") then str ".gif"
  else [].

(** [getFilename(pdfFile)] *)
Definition getFilename (pdfFile : option PdfFile) : outcome jsstring :=
  match pdfFile with
  | None => Ret (str "document")
  | Some f =>
      base0 <~ as_string "trim"
        (js_or (js_or (js_or (originalName f) (name f)) (filename f))
               (VStr (str "document"))) ;;
      let base := trim base0 in
      if test_has_extension base then Ret base
      else
        mime0 <~ as_string "toLowerCase" (js_or (mimetype f) (VStr [])) ;;
        let r := base ++ ext_of_mime (toLowerCase mime0) in
        Ret (match r with [] => str "document" | _ => r end)
  end.

(** [isValid(pdfFile)] *)
Definition isValid (pdfFile : option PdfFile) : bool :=
  match pdfFile with
  | None => false
  | Some f =>
      truthy (js_or (js_or (js_or (url f) (filename f)) (fileId f)) (data f))
  end.

(** [/\.pdf$/i.test(filename) || (pdfFile.mimetype || "").toLowerCase().includes("pdf")] *)
Definition expectPdf_of (f : PdfFile) (fname : jsstring) : outcome bool :=
  if test_pdf_ext fname then Ret true
  else
    mime0 <~ as_string "toLowerCase" (js_or (mimetype f) (VStr [])) ;;
    Ret (includes (toLowerCase mime0) (str "pdf")).

(** [filename.replace(<illegal characters>, '_').trim() || fallback] *)
Definition sanitizeFilename (fallback fname : jsstring) : jsstring :=
  match trim (replace_illegal fname) with
  | [] => fallback
  | s => s
  end.

(** [String.fromCharCode(...bytes of blob.slice(0, 4))] *)
Definition firstBytes (b : Blob) : jsstring := take 4 (blob_bytes b).

Definition pdf_signature : jsstring := str "%PDF".
Definition application_pdf : jsstring := str "application/pdf".
Definition octet_stream : jsstring := str "application/octet-stream".

(** [blob.type === 'application/pdf' || blob.type === 'application/octet-stream' || !blob.type] *)
Definition type_left_alone (b : Blob) : bool :=
  bool_decide (blob_type b = application_pdf) ||
  bool_decide (blob_type b = octet_stream) ||
  match blob_type b with [] => true | _ => false end.

(** [new Blob([await blob.arrayBuffer()], { type: 'application/pdf' })] *)
Definition as_pdf_blob (b : Blob) : Blob := mkBlob application_pdf (blob_bytes b).

(** [_downloadBlob(blob, filename)] *)
Definition _downloadBlob (h : Host) (blob : Blob) (fname : jsstring) : BM unit :=
  Trace.try_catch
    (let sanitizedFilename := sanitizeFilename (str "document") fname in
     let hasExtension := test_has_extension sanitizedFilename in
     let finalFilename :=
       if hasExtension then sanitizedFilename
       else sanitizedFilename ++ ext_of_mime (toLowerCase (blob_type blob)) in
     console_log DownloadingBlob ;;;
     (if Nat.eqb (blob_size blob) 0
      then Trace.throw (Error (str "Invalid blob: file is empty"))
      else Trace.ret tt) ;;;
     (if test_pdf_ext finalFilename
      then emit (EvReadHeader (firstBytes blob))
      else Trace.ret tt) ;;;
     u <- createObjectURL h blob ;;
     anchor_click h u finalFilename ;;;
     console_log DownloadTriggered ;;;
     emit (EvSetTimeout 1000))
    (fun error =>
       console_error BlobError (Some error) ;;;
       alert (str "Failed to download PDF: " ++ error_message error) ;;;
       Trace.throw error).

(** The options of the [fetch] of [_downloadFromUrl] (lines 236-244). *)
Definition cloudinary_init : FetchInit :=
  mkFetchInit (str "GET") (Some (str "cors")) (str "no-cache") (str "omit")
    (Some (str "application/pdf, application/octet-stream, */*")).

(** The options of the [fetch] of [_downloadFromServer] (lines 315-319). *)
Definition server_init : FetchInit :=
  mkFetchInit (str "GET") None (str "no-cache") (str "omit") None.

(** The text shown by [alert] in the catch blocks of the two fetching
    paths. *)
Definition failure_alert (error : JsError) : jsstring :=
  str "PDF download failed: " ++ error_message error ++
  str (String "010" (String "010"
         "Please try again or contact support if the problem persists.")).

(** [new Error(`HTTP error! status: ${response.status}`)] *)
Definition http_error (r : Response) : JsError :=
  Error (str "HTTP error! status: " ++ dec_of_N (status r)).

(** Lines 208-232: the URL that is fetched for a remote artifact. *)
Definition cloudinary_fetch_url (f : PdfFile) : BM jsstring :=
  fetchUrl <- Trace.lift (as_string "includes" (url f)) ;;
  if includes fetchUrl (str "res.cloudinary.com") then
    u1 <- (if includes fetchUrl image_segment
           then let u := replace fetchUrl image_segment raw_segment in
                console_log ConvertedToRaw ;;; Trace.ret u
           else Trace.ret fetchUrl) ;;
    u2 <- (if truthy (publicId f) && negb (includes u1 raw_segment) then
             match match_cloud_name u1 with
             | Some cloudName =>
                 pid <- Trace.lift (as_string "replace" (publicId f)) ;;
                 let u := str "https://res.cloudinary.com/" ++ cloudName ++
                          raw_segment ++ strip_known_ext pid in
                 console_log UsingPublicId ;;; Trace.ret u
             | None => Trace.ret u1
             end
           else Trace.ret u1) ;;
    let separator := if includes u2 (str "?") then str "&" else str "?" in
    if negb (includes u2 (str "fl_attachment"))
    then Trace.ret (u2 ++ separator ++ str "fl_attachment")
    else Trace.ret u2
  else Trace.ret fetchUrl.

(** [_downloadFromUrl(pdfFile)] *)
Definition _downloadFromUrl (h : Host) (f : PdfFile) : BM bool :=
  fname <- Trace.lift (getFilename (Some f)) ;;
  expectPdf <- Trace.lift (expectPdf_of f fname) ;;
  Trace.try_catch
    (console_log FetchingCloudinary ;;;
     fetchUrl <- cloudinary_fetch_url f ;;
     response <- fetch h fetchUrl cloudinary_init ;;
     (if negb (response_ok response) then Trace.throw (http_error response)
      else Trace.ret tt) ;;;
     console_log ContentType ;;;
     blob <- Trace.lift (body response) ;;
     (if Nat.eqb (blob_size blob) 0
      then Trace.throw (Error (str "Downloaded file is empty"))
      else Trace.ret tt) ;;;
     console_log BlobReceived ;;;
     finalBlob <-
       (if expectPdf : bool then
          (if negb (startsWith (firstBytes blob) pdf_signature)
           then console_warn MaybeNotPdf (firstBytes blob)
           else console_log HeaderValidated) ;;;
          let finalBlob :=
            if negb (type_left_alone blob) then as_pdf_blob blob else blob in
          console_log BlobFinalized ;;; Trace.ret finalBlob
        else Trace.ret blob) ;;
     _downloadBlob h finalBlob fname ;;;
     Trace.ret true)
    (fun error =>
       console_error CloudinaryFailed (Some error) ;;;
       console_error ErrorDetails None ;;;
       alert (failure_alert error) ;;;
       Trace.ret false).

(** [_downloadFromServer(pdfFile)] *)
Definition _downloadFromServer (h : Host) (f : PdfFile) : BM bool :=
  let pdfUrl := legacy_url h f in
  fname <- Trace.lift (getFilename (Some f)) ;;
  expectPdf <- Trace.lift (expectPdf_of f fname) ;;
  Trace.try_catch
    (console_log FetchingServer ;;;
     response <- fetch h pdfUrl server_init ;;
     (if negb (response_ok response) then Trace.throw (http_error response)
      else Trace.ret tt) ;;;
     console_log ContentType ;;;
     blob <- Trace.lift (body response) ;;
     (if Nat.eqb (blob_size blob) 0
      then Trace.throw (Error (str "Downloaded file is empty"))
      else Trace.ret tt) ;;;
     console_log ServerBlobReceived ;;;
     finalBlob <-
       (if expectPdf : bool then
          (if negb (startsWith (firstBytes blob) pdf_signature)
           then console_warn MaybeNotPdf (firstBytes blob)
           else console_log HeaderValidated) ;;;
          Trace.ret (if negb (type_left_alone blob) then as_pdf_blob blob else blob)
        else Trace.ret blob) ;;
     _downloadBlob h finalBlob fname ;;;
     Trace.ret true)
    (fun error =>
       console_error ServerFailed (Some error) ;;;
       console_error ErrorDetails None ;;;
       alert (failure_alert error) ;;;
       Trace.ret false).

(** [_downloadFromDataURL(pdfFile)] *)
Definition _downloadFromDataURL (h : Host) (f : PdfFile) : BM bool :=
  Trace.try_catch
    (fname <- Trace.lift (getFilename (Some f)) ;;
     let sanitizedFilename := sanitizeFilename (str "document.pdf") fname in
     let finalFilename :=
       if test_pdf_ext sanitizedFilename then sanitizedFilename
       else sanitizedFilename ++ str ".pdf" in
     anchor_click h (toString (data f)) finalFilename ;;;
     emit (EvSetTimeout 100) ;;;
     Trace.ret true)
    (fun error =>
       console_error DataUrlError (Some error) ;;;
       Trace.ret false).

(** [download(pdfFile)]; [None] is a null, undefined or otherwise falsy
    argument. *)
Definition download (h : Host) (pdfFile : option PdfFile) : BM bool :=
  match pdfFile with
  | None =>
      console_error DownloadNoFile None ;;;
      Trace.ret false
  | Some f =>
      console_log DownloadAttempt ;;;
      Trace.try_catch
        (if truthy (url f) then
           console_log UsingCloudinary ;;;
           _downloadFromUrl h f
         else if truthy (js_or (filename f) (fileId f)) then
           console_log UsingServer ;;;
           _downloadFromServer h f
         else if truthy (data f) then
           console_log UsingDataUrl ;;;
           _downloadFromDataURL h f
         else
           console_error InvalidFormat None ;;;
           Trace.ret false)
        (fun error =>
           console_error DownloadError (Some error) ;;;
           Trace.ret false)
  end.

(** [view(pdfFile)] *)
Definition view (h : Host) (pdfFile : option PdfFile) : BM bool :=
  match pdfFile with
  | None =>
      console_error ViewNoFile None ;;;
      Trace.ret false
  | Some f =>
      console_log ViewAttempt ;;;
      Trace.try_catch
        (if truthy (url f) then
           console_log OpeningCloudinary ;;;
           window_open h (toString (url f)) ;;;
           Trace.ret true
         else if truthy (js_or (filename f) (fileId f)) then
           let pdfUrl := legacy_url h f in
           console_log OpeningServer ;;;
           window_open h pdfUrl ;;;
           Trace.ret true
         else if truthy (data f) then
           console_log OpeningDataUrl ;;;
           window_open h (toString (data f)) ;;;
           Trace.ret true
         else
           console_error InvalidFormat None ;;;
           Trace.ret false)
        (fun error =>
           console_error ViewError (Some error) ;;;
           Trace.ret false)
  end.

(** [print(pdfFile)] *)
Definition print (h : Host) (pdfFile : option PdfFile) : BM bool :=
  match pdfFile with
  | None => console_error PrintNoFile None ;;; Trace.ret false
  | Some f =>
      Trace.try_catch
        (let continue (pdfUrl : jsstring) : BM bool :=
           printWindow <- window_open h pdfUrl ;;
           if printWindow : bool then emit EvSetOnload ;;; Trace.ret true
           else Trace.ret false in
         if truthy (url f) then continue (toString (url f))
         else if truthy (js_or (filename f) (fileId f)) then
           continue (legacy_url h f)
         else if truthy (data f) then continue (toString (data f))
         else console_error PrintInvalidFormat None ;;; Trace.ret false)
        (fun error =>
           console_error PrintError (Some error) ;;;
           Trace.ret false)
  end.

(* --------------------------------------------------------------------- *)
(** ** Definitions used to state the properties                            *)
(* --------------------------------------------------------------------- *)

Local Close Scope trace_scope.

(** The calls made to the store, read off the server's events. *)
Fixpoint store_calls (evs : list server_event)
    : list (jsstring * gmap string JsVal) :=
  match evs with
  | [] => []
  | SvStoreUpload p cfg :: evs' => (p, cfg) :: store_calls evs'
  | _ :: evs' => store_calls evs'
  end.

(** An upload is a raw (document) upload when the caller asks for it. *)
Definition intended_raw (options : gmap string JsVal) : bool :=
  is_str (prop options "resource_type") raw.

(** The error of [fs.unlinkSync] on a missing file. *)
Definition enoent : JsError :=
  HostError (str "ENOENT: no such file or directory, unlink").

(** Sample inputs of the write path. *)
Definition staged_path : jsstring := str "/app/temp/pdfFile-1700000000000-42.pdf".

Definition raw_options : gmap string JsVal :=
  <["resource_type" := VStr raw]> ∅.

(** A raw upload into a folder whose path holds the words image/upload. *)
Definition raw_options_nested_folder : gmap string JsVal :=
  <["resource_type" := VStr raw]>
  (<["folder" := VStr (str "archive/image/upload")]> ∅).

Definition raw_options_with_quality : gmap string JsVal :=
  <["resource_type" := VStr raw]> (<["quality" := VStr (str "auto")]> ∅).

Definition nested_folder_url : jsstring :=
  str "https://res.cloudinary.com/demo/image/upload/v1/archive/image/upload/notice.pdf".

Definition plain_url : jsstring :=
  str "https://res.cloudinary.com/demo/image/upload/v1/jamalpur-chamber/notice.pdf".

(** A store that answers every put with the given delivery URL, reported
    under the image resource type. *)
Definition store_answering (u : jsstring) : Cloudinary :=
  mkCloudinary (fun _ _ =>
    Ret (mkUploadResult (str "image") (Some u) (str "notice") 2048)).

Definition failing_store (e : JsError) : Cloudinary :=
  mkCloudinary (fun _ _ => Throw e).

Definition disk_with (p : jsstring) : Server := mkServer {[p]} [].

(** A string that does not begin with white space. *)
Definition starts_clean (s : jsstring) : Prop :=
  match s with
  | [] => True
  | c :: _ => is_ws c = false
  end.

(** ** Reading a trace *)

Definition fetch_of (e : event) : option (jsstring * FetchInit) :=
  match e with EvFetch u i => Some (u, i) | _ => None end.
Definition object_url_of (e : event) : option Blob :=
  match e with EvCreateObjectURL b => Some b | _ => None end.
Definition click_of (e : event) : option (jsstring * jsstring) :=
  match e with EvAnchorClick href dl => Some (href, dl) | _ => None end.
Definition open_of (e : event) : option jsstring :=
  match e with EvWindowOpen u => Some u | _ => None end.
Definition caught_of (e : event) : option JsError :=
  match e with EvErrorLog _ (Some err) => Some err | _ => None end.
Definition alert_of (e : event) : option jsstring :=
  match e with EvAlert m => Some m | _ => None end.
Definition warn_of (e : event) : option (label * jsstring) :=
  match e with EvWarn l a => Some (l, a) | _ => None end.
Definition log_of (e : event) : option label :=
  match e with EvLog l => Some l | _ => None end.

(** The requests sent, the blobs turned into object URLs, the anchors
    clicked, the windows opened, the errors reported with [console.error],
    the alerts shown, the warnings and the plain log lines of a trace. *)
Definition fetches (evs : list event) := omap fetch_of evs.
Definition object_urls (evs : list event) := omap object_url_of evs.
Definition clicks (evs : list event) := omap click_of evs.
Definition opened (evs : list event) := omap open_of evs.
Definition caught (evs : list event) := omap caught_of evs.
Definition alerts (evs : list event) := omap alert_of evs.
Definition warnings (evs : list event) := omap warn_of evs.
Definition log_labels (evs : list event) := omap log_of evs.

(** A log line other than the first line of [_downloadBlob]. *)
Definition is_quiet (e : event) : bool :=
  match e with
  | EvLog DownloadingBlob => false
  | EvLog _ => true
  | _ => false
  end.

(** ** The course of a download, in normal form

    [_downloadFromUrl] and [_downloadFromServer] repeat the same steps after
    the URL is known: fetch, check the status, read the body, check its
    length, validate and finalize the blob, deliver it.  The definitions
    below write these steps out once, as a decision tree over the answers of
    the host; both functions are proved equal to it further down. *)

(** The name under which [_downloadBlob] saves the blob (lines 410-421). *)
Definition finalFilename_of (blob : Blob) (fname : jsstring) : jsstring :=
  let sanitizedFilename := sanitizeFilename (str "document") fname in
  if test_has_extension sanitizedFilename then sanitizedFilename
  else sanitizedFilename ++ ext_of_mime (toLowerCase (blob_type blob)).

Definition invalid_blob_error : JsError :=
  Error (str "Invalid blob: file is empty").

Definition blob_alert (e : JsError) : jsstring :=
  str "Failed to download PDF: " ++ error_message e.

(** [_downloadBlob] as a decision tree. *)
Definition deliver (h : Host) (blob : Blob) (fname : jsstring) : BM unit :=
  let final := finalFilename_of blob fname in
  let fail (evs : list event) (e : JsError) : BM unit :=
    (EvLog DownloadingBlob :: evs ++
       [EvErrorLog BlobError (Some e); EvAlert (blob_alert e)], Throw e) in
  if Nat.eqb (blob_size blob) 0 then fail [] invalid_blob_error
  else
    let reader :=
      if test_pdf_ext final then [EvReadHeader (firstBytes blob)] else [] in
    match host_createObjectURL h blob with
    | Throw e => fail (reader ++ [EvCreateObjectURL blob]) e
    | Ret ou =>
        match host_click h ou final with
        | Throw e =>
            fail (reader ++ [EvCreateObjectURL blob; EvAnchorClick ou final]) e
        | Ret _ =>
            (EvLog DownloadingBlob :: reader ++
               [EvCreateObjectURL blob; EvAnchorClick ou final;
                EvLog DownloadTriggered; EvSetTimeout 1000], Ret tt)
        end
    end.

Definition empty_file_error : JsError := Error (str "Downloaded file is empty").

(** The blob handed to [_downloadBlob] (the variable [finalBlob]). *)
Definition finalBlob_of (expectPdf : bool) (blob : Blob) : Blob :=
  if expectPdf then
    if type_left_alone blob then blob else as_pdf_blob blob
  else blob.

(** What the validation of the signature writes to the console. *)
Definition pdf_check (expectPdf finalized : bool) (blob : Blob) : list event :=
  if expectPdf then
    (if startsWith (firstBytes blob) pdf_signature
     then EvLog HeaderValidated
     else EvWarn MaybeNotPdf (firstBytes blob)) ::
    (if finalized then [EvLog BlobFinalized] else [])
  else [].

(** From the fetch to the delivery, before the catch block. *)
Definition fetch_and_deliver (h : Host) (fname : jsstring) (expectPdf : bool)
    (u : jsstring) (init : FetchInit) (received : label) (finalized : bool)
    : BM unit :=
  match host_fetch h u init with
  | Throw e => ([EvFetch u init], Throw e)
  | Ret r =>
      if response_ok r then
        match body r with
        | Throw e => ([EvFetch u init; EvLog ContentType], Throw e)
        | Ret blob =>
            if Nat.eqb (blob_size blob) 0
            then ([EvFetch u init; EvLog ContentType], Throw empty_file_error)
            else
              let (devs, dres) :=
                _downloadBlob h (finalBlob_of expectPdf blob) fname in
              ([EvFetch u init; EvLog ContentType; EvLog received] ++
               pdf_check expectPdf finalized blob ++ devs, dres)
        end
      else ([EvFetch u init], Throw (http_error r))
  end.

(** The catch block of the two functions. *)
Definition fetch_failure (failed : label) (e : JsError) : list event :=
  [EvErrorLog failed (Some e); EvErrorLog ErrorDetails None;
   EvAlert (failure_alert e)].

(** The try statement around the steps: [true] when they all succeed,
    otherwise the catch block and [false]. *)
Definition settle (failed : label) (pre : list event) (steps : BM unit)
    : BM bool :=
  match snd steps with
  | Ret _ => (pre ++ fst steps, Ret true)
  | Throw e => (pre ++ fst steps ++ fetch_failure failed e, Ret false)
  end.

(** The retrieval strategies of the specification, and the selection in
    the words of the specification: the delivery URL first, then the legacy
    file name or file id, then the inline data; first match wins. *)
Inductive strategy : Type := Remote | Legacy | Inline | Invalid.

Definition resolve_spec (f : PdfFile) : strategy :=
  if truthy (url f) then Remote
  else if truthy (filename f) || truthy (fileId f) then Legacy
  else if truthy (data f) then Inline
  else Invalid.

(** What [download] adds around the strategy it selected: two log lines,
    and a catch block that turns an exception into [false]. *)
Definition dispatched (method : label) (inner : BM bool) : BM bool :=
  ([EvLog DownloadAttempt; EvLog method] ++ fst inner ++
   match snd inner with
   | Throw e => [EvErrorLog DownloadError (Some e)]
   | Ret _ => []
   end,
   match snd inner with
   | Ret b => Ret b
   | Throw _ => Ret false
   end).

(** The run of [download] for each strategy. *)
Definition download_by (h : Host) (f : PdfFile) (s : strategy) : BM bool :=
  match s with
  | Remote => dispatched UsingCloudinary (_downloadFromUrl h f)
  | Legacy => dispatched UsingServer (_downloadFromServer h f)
  | Inline => dispatched UsingDataUrl (_downloadFromDataURL h f)
  | Invalid => ([EvLog DownloadAttempt; EvErrorLog InvalidFormat None], Ret false)
  end.

(** The runs of the handler, by what they do on the network: no request at
    all, or one request followed by the common course, possibly wrapped by
    [download]. *)
Inductive fetch_run (h : Host) (f : PdfFile) : BM bool -> Prop :=
| run_no_fetch (run : BM bool) :
    fetches (fst run) = [] ->
    fetch_run h f run
| run_fetched (failed : label) (pre : list event) (fname : jsstring)
    (expectPdf : bool) (u : jsstring) (init : FetchInit) (received : label)
    (finalized : bool) :
    forallb is_quiet pre = true ->
    getFilename (Some f) = Ret fname ->
    expectPdf_of f fname = Ret expectPdf ->
    init = cloudinary_init \/ init = server_init ->
    fetch_run h f
      (settle failed pre
         (fetch_and_deliver h fname expectPdf u init received finalized))
| run_dispatched (method : label) (inner : BM bool) :
    is_quiet (EvLog method) = true ->
    fetch_run h f inner ->
    fetch_run h f (dispatched method inner).

(** ** Properties of one run, used to state the claims *)

Definition error_label_of (e : event) : option label :=
  match e with EvErrorLog l _ => Some l | _ => None end.

(** The [console.error] lines of a trace. *)
Definition errors_logged (evs : list event) := omap error_label_of evs.

(** The run returns a boolean and throws nothing; it returns [false]
    whenever it wrote an error to the console, that is on every path through
    a guard for a missing or invalid descriptor or through a catch block. *)
Definition returns_boolean (run : BM bool) : Prop :=
  (exists b, snd run = Ret b) /\
  (errors_logged (fst run) <> [] -> snd run = Ret false).

(** With a PDF expected and a body that is not empty, the check of the
    signature is advisory.  The warning is written exactly when the first
    four bytes are not the signature; whatever they are, the payload goes to
    the delivery step, and the run ends with [true] exactly when the host
    creates the object URL and clicks the anchor.  The payload is the blob
    itself when its type is application/pdf, application/octet-stream or
    empty, and otherwise a blob of the same bytes and type
    application/pdf. *)
Definition pdf_check_is_advisory (h : Host) (f : PdfFile) (run : BM bool)
    : Prop :=
  forall fname u init r blob,
    getFilename (Some f) = Ret fname ->
    expectPdf_of f fname = Ret true ->
    In (u, init) (fetches (fst run)) ->
    host_fetch h u init = Ret r ->
    response_ok r = true ->
    body r = Ret blob ->
    blob_size blob <> 0 ->
    warnings (fst run) =
      (if startsWith (firstBytes blob) pdf_signature then []
       else [(MaybeNotPdf, firstBytes blob)]) /\
    object_urls (fst run) =
      [if type_left_alone blob then blob else as_pdf_blob blob] /\
    (snd run = Ret true <->
     exists ou,
       host_createObjectURL h
         (if type_left_alone blob then blob else as_pdf_blob blob) = Ret ou /\
       host_click h ou
         (finalFilename_of
            (if type_left_alone blob then blob else as_pdf_blob blob) fname) =
       Ret tt).

(** At most one request, a GET that sends no credentials. *)
Definition single_get (evs : list event) : Prop :=
  length (fetches evs) <= 1 /\
  Forall (fun ui => f_method (snd ui) = str "GET" /\
                    f_credentials (snd ui) = str "omit") (fetches evs).

(** A response outside 200-299 makes the run fail: it ends with [false],
    the error that is reported and shown carries the status, and nothing is
    delivered: no object URL is created and no anchor is clicked. *)
Definition http_failure_fails (h : Host) (run : BM bool) : Prop :=
  forall u init r,
    In (u, init) (fetches (fst run)) ->
    host_fetch h u init = Ret r ->
    response_ok r = false ->
    snd run = Ret false /\
    caught (fst run) = [http_error r] /\
    alerts (fst run) = [failure_alert (http_error r)] /\
    error_message (http_error r) =
      str "HTTP error! status: " ++ dec_of_N (status r) /\
    object_urls (fst run) = [] /\
    clicks (fst run) = [].

(** A fetch that succeeds with a body of length zero makes the run fail:
    it ends with [false], reports the empty-file error, and no step of
    [_downloadBlob] is found in the trace. *)
Definition empty_body_fails (h : Host) (run : BM bool) : Prop :=
  forall u init r blob,
    In (u, init) (fetches (fst run)) ->
    host_fetch h u init = Ret r ->
    response_ok r = true ->
    body r = Ret blob ->
    blob_size blob = 0 ->
    snd run = Ret false /\
    caught (fst run) = [empty_file_error] /\
    alerts (fst run) = [failure_alert empty_file_error] /\
    object_urls (fst run) = [] /\
    clicks (fst run) = [] /\
    ~ In DownloadingBlob (log_labels (fst run)).

(** ** Sample inputs of the read path *)

Definition descriptor (fileName fileId' url' originalName' mimetype' : JsVal)
    : PdfFile :=
  mkPdfFile fileName fileId' url' VUndef originalName' VUndef VUndef mimetype'.

(** [{filename: "old.pdf", fileId: "123"}] *)
Definition legacy_descriptor : PdfFile :=
  descriptor (VStr (str "old.pdf")) (VStr (str "123")) VUndef VUndef VUndef.

(** [{fileId: "123"}] *)
Definition id_only_descriptor : PdfFile :=
  descriptor VUndef (VStr (str "123")) VUndef VUndef VUndef.

(** A notice PDF in the remote store. *)
Definition remote_descriptor : PdfFile :=
  descriptor VUndef VUndef
    (VStr (str "https://res.cloudinary.com/demo/raw/upload/v1/jamalpur-chamber/notice.pdf"))
    (VStr (str "notice.pdf")) (VStr (str "application/pdf")).

(** A host whose network answers every request with the given status and
    body, and whose browser part always succeeds. *)
Definition host_answering (st : N) (b : Blob) : Host :=
  mkHost None
    (fun _ _ => Ret (mkResponse st (Some (blob_type b)) (Ret b)))
    (fun _ => Ret true)
    (fun _ => Ret (str "blob:https://example.org/1"))
    (fun _ _ => Ret tt).

Definition pdf_bytes : list ascii := str "%PDF-1.4 sample".
Definition html_bytes : list ascii := str "<html>Not found</html>".

Definition html_blob : Blob := mkBlob (str "text/html") html_bytes.
Definition empty_blob : Blob := mkBlob application_pdf [].

(** The legacy server answers 404 with an HTML page. *)
Definition not_found_host : Host := host_answering 404 html_blob.
Definition not_found_response : Response :=
  mkResponse 404 (Some (str "text/html")) (Ret html_blob).

(** The store answers 200 with no content. *)
Definition empty_host : Host := host_answering 200 empty_blob.
Definition empty_response : Response :=
  mkResponse 200 (Some application_pdf) (Ret empty_blob).

(** The store answers 200 with an HTML page. *)
Definition html_host : Host := host_answering 200 html_blob.
Definition html_response : Response :=
  mkResponse 200 (Some (str "text/html")) (Ret html_blob).

Definition old_pdf_url : jsstring :=
  str "https://jamalpur-chamber-backend-b61d.onrender.com/api/files/old.pdf".

Definition notice_fetch_url : jsstring :=
  str "https://res.cloudinary.com/demo/raw/upload/v1/jamalpur-chamber/notice.pdf?fl_attachment".

(* --------------------------------------------------------------------- *)
(** ** More of the handler: names, the data-URL path                       *)
(* --------------------------------------------------------------------- *)

(** A name without any of the characters that the sanitizing pattern
    replaces. *)
Definition legal (s : jsstring) : Prop :=
  Forall (fun c => is_illegal c = false) s.

(** The timers set by a run, by their delay. *)
Definition timeout_of (e : event) : option N :=
  match e with EvSetTimeout ms => Some ms | _ => None end.
Definition timeouts (evs : list event) := omap timeout_of evs.

(** The download name of [_downloadFromDataURL] (lines 380-383): the
    sanitized name, with [.pdf] appended unless it ends with it. *)
Definition dataurl_filename (fname : jsstring) : jsstring :=
  let sanitizedFilename := sanitizeFilename (str "document.pdf") fname in
  if test_pdf_ext sanitizedFilename then sanitizedFilename
  else sanitizedFilename ++ str ".pdf".

Definition fl_attachment : jsstring := str "fl_attachment".
Definition cloudinary_host : jsstring := str "res.cloudinary.com".

(** Lines 227-231: the attachment flag is appended unless the URL already
    holds it, after [?] or, when the URL has a query, after [&]. *)
Definition with_attachment (u : jsstring) : jsstring :=
  if includes u fl_attachment then u
  else u ++ (if includes u (str "?") then str "&" else str "?") ++ fl_attachment.

(** Lines 211-214: a Cloudinary URL is moved from the image path to the raw
    path. *)
Definition to_raw_path (u : jsstring) : jsstring :=
  if includes u image_segment then replace u image_segment raw_segment else u.

(** The address that [view] and [print] hand to [window.open], by the
    strategy selected for the descriptor. *)
Definition open_target (h : Host) (f : PdfFile) : option jsstring :=
  match resolve_spec f with
  | Remote => Some (toString (url f))
  | Legacy => Some (legacy_url h f)
  | Inline => Some (toString (data f))
  | Invalid => None
  end.

(** The host is not called at all: no request, no window, no object URL, no
    click, no alert, no timer. *)
Definition no_host_call (evs : list event) : Prop :=
  fetches evs = [] /\ opened evs = [] /\ object_urls evs = [] /\
  clicks evs = [] /\ alerts evs = [] /\ timeouts evs = [].

(** A trace of a delivery that went through: one click on a link whose
    download name is not empty and holds no character of the sanitizing
    pattern, one cleanup timer, no error line and no alert. *)
Definition delivered (evs : list event) : Prop :=
  errors_logged evs = [] /\ alerts evs = [] /\ length (timeouts evs) = 1 /\
  exists href name, clicks evs = [(href, name)] /\ name <> [] /\ legal name.

(** The result of a run tells what happened: [true] after a delivery that
    went through, [false] after an error line, and never an exception. *)
Definition outcome_reported (run : BM bool) : Prop :=
  match snd run with
  | Ret true => delivered (fst run)
  | Ret false => errors_logged (fst run) <> []
  | Throw _ => False
  end.

(** A host whose server answers 200 with a PDF and whose browser refuses to
    make an object URL. *)
Definition refusing_host : Host :=
  mkHost None
    (fun _ _ => Ret (mkResponse 200 (Some application_pdf)
                       (Ret (mkBlob application_pdf pdf_bytes))))
    (fun _ => Ret true)
    (fun _ => Throw (HostError (str "createObjectURL failed")))
    (fun _ _ => Ret tt).

(* --------------------------------------------------------------------- *)
(** ** More of the write path                                              *)
(* --------------------------------------------------------------------- *)

(** The [console.error] lines of the server. *)
Definition sv_error_of (e : server_event) : option string :=
  match e with SvError l => Some l | _ => None end.
Definition sv_errors (evs : list server_event) := omap sv_error_of evs.

(** The check of lines 181-187: a raw upload was asked for and the store
    reports another resource type. *)
Definition type_mismatch (options : gmap string JsVal) (res : UploadResult)
    : bool :=
  intended_raw options && negb (bool_decide (resource_type res = raw)).

Definition mismatch_warning : string :=
  "WARNING: PDF uploaded but resource_type is not raw!".

(* --------------------------------------------------------------------- *)
(** ** The upload filter (cloudinaryUpload.js, lines 124-139)              *)
(* --------------------------------------------------------------------- *)

Definition allowedMimes : list jsstring :=
  [str "application/pdf"; str "image/jpeg"; str "image/jpg"; str "image/png";
   str "image/gif"].

(** [list.includes(v)] on an array of strings: strict equality, so only a
    string can be found. *)
Definition array_includes (l : list jsstring) (v : JsVal) : bool :=
  match v with
  | VStr s => bool_decide (s ∈ l)
  | _ => false
  end.

(** [fileFilter(req, file, cb)], by the MIME type of the file: it accepts
    with [cb(null, true)] or rejects with [cb(new Error(...), false)]. *)
Definition fileFilter (file_mimetype : JsVal) : outcome bool :=
  if array_includes allowedMimes file_mimetype then Ret true
  else Throw (Error (str "Only PDF and image files are allowed")).

(* --------------------------------------------------------------------- *)
(** ** The notice controller (noticeController.js)                         *)
(* --------------------------------------------------------------------- *)

Local Open Scope state_scope.

(** [req.file], the file staged by the upload middleware. *)
Record StagedFile : Type := mkStagedFile {
  file_path : jsstring;
  file_originalname : JsVal;
  file_mimetype : JsVal
}.

(** The [pdfFile] object kept with a notice. *)
Record StoredFile : Type := mkStoredFile {
  sf_publicId : JsVal;
  sf_originalName : JsVal;
  sf_url : JsVal;
  sf_size : option N;
  sf_mimetype : JsVal
}.

(** A notice: the data handed to [new Notice], and the document read from
    the database. *)
Record Notice : Type := mkNotice {
  n_title : JsVal;
  n_content : JsVal;
  n_author : JsVal;
  n_priority : JsVal;
  n_tags : list jsstring;
  n_isActive : JsVal;
  n_pdfFile : option StoredFile
}.

(** The request: the fields of [req.body] that the controller reads (a field
    that is missing is undefined), [req.params.id] and [req.file]. *)
Record NoticeRequest : Type := mkNoticeRequest {
  req_id : JsVal;
  req_title : JsVal;
  req_content : JsVal;
  req_author : JsVal;
  req_priority : JsVal;
  req_tags : JsVal;
  req_isActive : JsVal;
  req_file : option StagedFile
}.

(** The collaborators of the controller: the model (database) and the
    deleting call of the store.  Each may fail. *)
Record NoticeModel : Type := mkNoticeModel {
  model_findById : JsVal -> outcome (option Notice);
  model_save : Notice -> outcome unit;
  model_findByIdAndDelete : JsVal -> outcome unit;
  uploader_destroy : JsVal -> gmap string JsVal -> outcome unit
}.

(** What a controller does besides the server's own events: the answer it
    sends and its calls of the collaborators. *)
Inductive ctl_event : Type :=
| CtlReply (code : N) (success : bool) (message : string)
| CtlFind (id : JsVal)
| CtlSave (n : Notice)
| CtlDelete (id : JsVal)
| CtlDestroy (publicId : JsVal) (config : gmap string JsVal).

Record Backend : Type := mkBackend {
  server : Server;
  ctl_events : list ctl_event
}.

(** A step of the server (disk and console) inside a controller. *)
Definition on_server {A} (m : @M Server A) : @M Backend A :=
  fun b =>
    let (w', r) := m (server b) in (mkBackend w' (ctl_events b), r).

Definition ctl_emit (e : ctl_event) : @M Backend unit :=
  fun b => (mkBackend (server b) (ctl_events b ++ [e]), Ret tt).

(** A call of a collaborator: recorded, then answered. *)
Definition ctl_call {A} (e : ctl_event) (answer : outcome A) : @M Backend A :=
  fun b => (mkBackend (server b) (ctl_events b ++ [e]), answer).

(** [res.status(code).json({ success, message, ... })] *)
Definition reply (code : N) (success : bool) (message : string)
    : @M Backend unit :=
  ctl_emit (CtlReply code success message).

(** [console.error(label, error)] *)
Definition ctl_console_error (label : string) : @M Backend unit :=
  on_server (sv_emit (SvError label)).

(** A parameter with a default value: the default is taken for undefined
    only. *)
Definition default_param (v dflt : JsVal) : JsVal :=
  match v with
  | VUndef => dflt
  | _ => v
  end.

(** [s.split(sep)] for a separator of one character. *)
Fixpoint split_on (sep : ascii) (s : jsstring) : list jsstring :=
  match s with
  | [] => [[]]
  | c :: s' =>
      if chr_eqb c sep then [] :: split_on sep s'
      else match split_on sep s' with
           | h :: t => (c :: h) :: t
           | [] => [[c]]
           end
  end.

(** [tags ? tags.split(',').map(tag => tag.trim()) : []] *)
Definition parse_tags (tags : JsVal) : outcome (list jsstring) :=
  if truthy tags then
    s <~ as_string "split" tags ;;
    Ret (map trim (split_on "," s))
  else Ret [].

(** [if (fs.existsSync(p)) { fs.unlinkSync(p); }] *)
Definition remove_if_exists (p : jsstring) : @M Backend unit :=
  there <- on_server (existsSync p) ;;
  if there : bool then on_server (unlinkSync p) else ret tt.

(** The [pdfFile] object built from the answer of the store and the staged
    file (lines 116-122 and 187-193). *)
Definition stored_file (cloudinaryResult : UploadResult) (file : StagedFile)
    : StoredFile :=
  mkStoredFile (VStr (public_id cloudinaryResult)) (file_originalname file)
    (match secure_url cloudinaryResult with
     | Some u => VStr u
     | None => VUndef
     end)
    (Some (bytes cloudinaryResult)) (file_mimetype file).

(** [deleteFromCloudinary(publicId, resourceType = 'image')]
    (cloudinaryUpload.js, lines 216-225): an error of the store is written to
    the console and not passed on. *)
Definition deleteFromCloudinary (m : NoticeModel) (publicId resourceType : JsVal)
    : @M Backend unit :=
  let resourceType := default_param resourceType (VStr (str "image")) in
  try_catch
    (if truthy publicId then
       ctl_call (CtlDestroy publicId {["resource_type" := resourceType]})
         (uploader_destroy m publicId {["resource_type" := resourceType]}) ;;;
       on_server (sv_emit (SvLog "Deleted file from Cloudinary:"))
     else ret tt)
    (fun error =>
       ctl_console_error "Error deleting file from Cloudinary:").

(** [notice.pdfFile && notice.pdfFile.publicId] *)
Definition old_publicId (notice : Notice) : JsVal :=
  match n_pdfFile notice with
  | Some f => sf_publicId f
  | None => VUndef
  end.

(** [createNotice(req, res)] (lines 93-153).  The inner try statement ends
    the request from its catch block: its value is [None] then, and the new
    [pdfFile] (or none, without a staged file) otherwise. *)
Definition createNotice (c : Cloudinary) (m : NoticeModel) (req : NoticeRequest)
    : @M Backend unit :=
  try_catch
    (let priority := default_param (req_priority req) (VStr (str "normal")) in
     if negb (truthy (req_title req)) || negb (truthy (req_content req)) ||
        negb (truthy (req_author req))
     then reply 400 false "Title, content, and author are required"
     else
       tags <- lift (parse_tags (req_tags req)) ;;
       uploaded <-
         match req_file req with
         | Some file =>
             try_catch
               (cloudinaryResult <-
                  on_server (uploadToCloudinary c (file_path file) ∅) ;;
                ret (Some (Some (stored_file cloudinaryResult file))))
               (fun uploadError =>
                  ctl_console_error "Cloudinary upload error:" ;;;
                  remove_if_exists (file_path file) ;;;
                  reply 500 false "Failed to upload PDF file" ;;;
                  ret None)
         | None => ret (Some None)
         end ;;
       match uploaded with
       | None => ret tt
       | Some pdfFile =>
           let notice :=
             mkNotice (req_title req) (req_content req) (req_author req)
               priority tags VUndef pdfFile in
           ctl_call (CtlSave notice) (model_save m notice) ;;;
           reply 201 true "Notice created successfully"
       end)
    (fun error =>
       ctl_console_error "Create notice error:" ;;;
       match req_file req with
       | Some file => remove_if_exists (file_path file)
       | None => ret tt
       end ;;;
       reply 500 false "Server error while creating notice").

(** The assignments of [updateNotice] (lines 170-175): a field of the body
    replaces the stored one when it is truthy, [isActive] when it is a
    boolean. *)
Definition update_fields (req : NoticeRequest) (notice : Notice)
    : outcome Notice :=
  let pick (v old : JsVal) := if truthy v then v else old in
  tags <~ (if truthy (req_tags req)
           then parse_tags (req_tags req)
           else Ret (n_tags notice)) ;;
  Ret (mkNotice (pick (req_title req) (n_title notice))
         (pick (req_content req) (n_content notice))
         (pick (req_author req) (n_author notice))
         (pick (req_priority req) (n_priority notice))
         tags
         (match req_isActive req with
          | VBool b => VBool b
          | _ => n_isActive notice
          end)
         (n_pdfFile notice)).

(** [updateNotice(req, res)] (lines 156-223) *)
Definition updateNotice (c : Cloudinary) (m : NoticeModel) (req : NoticeRequest)
    : @M Backend unit :=
  try_catch
    (found <- ctl_call (CtlFind (req_id req)) (model_findById m (req_id req)) ;;
     match found with
     | None => reply 404 false "Notice not found"
     | Some notice0 =>
         notice <- lift (update_fields req notice0) ;;
         uploaded <-
           match req_file req with
           | Some file =>
               try_catch
                 ((if truthy (old_publicId notice)
                   then deleteFromCloudinary m (old_publicId notice) VUndef
                   else ret tt) ;;;
                  cloudinaryResult <-
                    on_server (uploadToCloudinary c (file_path file) ∅) ;;
                  ret (Some (Some (stored_file cloudinaryResult file))))
                 (fun uploadError =>
                    ctl_console_error "Cloudinary upload error:" ;;;
                    remove_if_exists (file_path file) ;;;
                    reply 500 false "Failed to upload new PDF file" ;;;
                    ret None)
           | None => ret (Some (n_pdfFile notice))
           end ;;
         match uploaded with
         | None => ret tt
         | Some pdfFile =>
             let notice' :=
               mkNotice (n_title notice) (n_content notice) (n_author notice)
                 (n_priority notice) (n_tags notice) (n_isActive notice)
                 pdfFile in
             ctl_call (CtlSave notice') (model_save m notice') ;;;
             reply 200 true "Notice updated successfully"
         end
     end)
    (fun error =>
       ctl_console_error "Update notice error:" ;;;
       match req_file req with
       | Some file => remove_if_exists (file_path file)
       | None => ret tt
       end ;;;
       reply 500 false "Server error while updating notice").

(** [deleteNotice(req, res)] (lines 226-256) *)
Definition deleteNotice (m : NoticeModel) (req : NoticeRequest)
    : @M Backend unit :=
  try_catch
    (found <- ctl_call (CtlFind (req_id req)) (model_findById m (req_id req)) ;;
     match found with
     | None => reply 404 false "Notice not found"
     | Some notice =>
         (if truthy (old_publicId notice)
          then deleteFromCloudinary m (old_publicId notice) VUndef
          else ret tt) ;;;
         ctl_call (CtlDelete (req_id req))
           (model_findByIdAndDelete m (req_id req)) ;;;
         reply 200 true "Notice deleted successfully"
     end)
    (fun error =>
       ctl_console_error "Delete notice error:" ;;;
       reply 500 false "Server error while deleting notice").

Local Close Scope state_scope.

(** The methods of the model (Notice.js): [hasFile()] and the [hasFile] of
    the summary. *)
Definition hasFile (notice : Notice) : bool :=
  match n_pdfFile notice with
  | Some f => truthy (sf_url f)
  | None => false
  end.

(** The descriptor that the browser gets for a stored file: the object as it
    is serialized, read by the handler. *)
Definition descriptor_of (f : StoredFile) : PdfFile :=
  mkPdfFile VUndef VUndef (sf_url f) (sf_publicId f) (sf_originalName f)
    VUndef VUndef (sf_mimetype f).

(** Reading the events of a controller. *)
Definition reply_of (e : ctl_event) : option (N * bool * string) :=
  match e with CtlReply code ok msg => Some (code, ok, msg) | _ => None end.
Definition save_of (e : ctl_event) : option Notice :=
  match e with CtlSave n => Some n | _ => None end.
Definition destroy_of (e : ctl_event) : option (JsVal * gmap string JsVal) :=
  match e with CtlDestroy p cfg => Some (p, cfg) | _ => None end.
Definition delete_of (e : ctl_event) : option JsVal :=
  match e with CtlDelete id => Some id | _ => None end.

Definition replies (evs : list ctl_event) := omap reply_of evs.
Definition saves (evs : list ctl_event) := omap save_of evs.
Definition destroys (evs : list ctl_event) := omap destroy_of evs.
Definition deletions (evs : list ctl_event) := omap delete_of evs.

(** A backend that has done nothing yet, with the given files on disk. *)
Definition fresh (fs : gset jsstring) : Backend :=
  mkBackend (mkServer fs []) [].

(** The disk after the staged file of the request, if any, is removed. *)
Definition without_staged (fs : gset jsstring) (file : option StagedFile)
    : gset jsstring :=
  match file with
  | Some f => fs ∖ {[file_path f]}
  | None => fs
  end.

(** The check of the required fields of [createNotice]. *)
Definition missing_required (req : NoticeRequest) : bool :=
  negb (truthy (req_title req)) || negb (truthy (req_content req)) ||
  negb (truthy (req_author req)).

(** The last two steps of creating and updating: the record is saved and
    the success is answered, or the failure of the database is answered
    from the outer catch block. *)
Definition saved_reply (m : NoticeModel) (n : Notice) (code : N)
    (done failed : string) : list ctl_event :=
  match model_save m n with
  | Ret _ => [CtlSave n; CtlReply code true done]
  | Throw _ => [CtlSave n; CtlReply 500 false failed]
  end.

(** The notice that [createNotice] saves. *)
Definition new_notice (req : NoticeRequest) (tags : list jsstring)
    (pdfFile : option StoredFile) : Notice :=
  mkNotice (req_title req) (req_content req) (req_author req)
    (default_param (req_priority req) (VStr (str "normal"))) tags VUndef
    pdfFile.

(** The configuration of the deleting call made by the controllers, which
    name no resource type. *)
Definition destroy_config : gmap string JsVal :=
  {["resource_type" := VStr (str "image")]}.

(** The deleting calls for a notice: one for a notice that has a public
    id, none otherwise. *)
Definition old_file_destroyed (notice : Notice) : list ctl_event :=
  if truthy (old_publicId notice)
  then [CtlDestroy (old_publicId notice) destroy_config]
  else [].

(** The notice that [updateNotice] saves. *)
Definition with_file (notice : Notice) (pdfFile : option StoredFile) : Notice :=
  mkNotice (n_title notice) (n_content notice) (n_author notice)
    (n_priority notice) (n_tags notice) (n_isActive notice) pdfFile.

(** Sample inputs of the controllers: a notice with a stored PDF, a request
    that replaces the PDF, a database that holds the notice and accepts
    everything, and a store that refuses the upload. *)
Definition stored_notice : Notice :=
  mkNotice (VStr (str "Annual meeting")) (VStr (str "Agenda attached"))
    (VStr (str "Secretary")) (VStr (str "normal")) [] (VBool true)
    (Some (mkStoredFile (VStr (str "jamalpur-chamber/agenda"))
             (VStr (str "agenda.pdf"))
             (VStr (str "https://res.cloudinary.com/demo/image/upload/v1/jamalpur-chamber/agenda.pdf"))
             (Some 2048%N) (VStr (str "application/pdf")))).

Definition replacing_request : NoticeRequest :=
  mkNoticeRequest (VStr (str "64f0c0ffee")) VUndef VUndef VUndef VUndef VUndef
    VUndef
    (Some (mkStagedFile staged_path (VStr (str "agenda-v2.pdf"))
             (VStr (str "application/pdf")))).

Definition accepting_model : NoticeModel :=
  mkNoticeModel (fun _ => Ret (Some stored_notice)) (fun _ => Ret tt)
    (fun _ => Ret tt) (fun _ _ => Ret tt).

(* --------------------------------------------------------------------- *)
(** ** The error middleware (errorHandler.js, lines 2-91)                  *)
(* --------------------------------------------------------------------- *)

Local Open Scope trace_scope.

(** A value, as far as the middleware can tell values apart: it tests
    truthiness, compares with string and number literals, converts to a
    string, and hands values on.  [EhInt] is a number that is an integer
    (negative zero is 0).  [EhOther] is every other value: a number that is
    no integer (NaN is the falsy one), an object, a function, a symbol or a
    bigint, given by its truthiness and by its conversion to a string, which
    throws for a symbol. *)
Inductive EhVal : Type :=
| EhUndef
| EhNull
| EhBool (b : bool)
| EhInt (n : Z)
| EhStr (s : jsstring)
| EhOther (is_truthy : bool) (text : outcome jsstring).

Definition eh_truthy (v : EhVal) : bool :=
  match v with
  | EhUndef | EhNull => false
  | EhBool b => b
  | EhInt n => negb (Z.eqb n 0)
  | EhStr [] => false
  | EhStr (_ :: _) => true
  | EhOther t _ => t
  end.

(** [v === 'lit'] and [v === n] for an integer literal *)
Definition eh_is_str (v : EhVal) (lit : jsstring) : bool :=
  match v with
  | EhStr s => bool_decide (s = lit)
  | _ => false
  end.

Definition eh_is_int (v : EhVal) (n : Z) : bool :=
  match v with
  | EhInt k => Z.eqb k n
  | _ => false
  end.

(** Decimal text of an integer. *)
Definition dec_of_Z (n : Z) : jsstring :=
  match n with
  | Zneg p => str "-" ++ dec_of_N (Npos p)
  | _ => dec_of_N (Z.to_N n)
  end.

(** The error handed to the middleware, by the properties that it reads;
    a property that is missing is undefined.  The error and the values of
    [err.errors] are plain data (no getters, no proxies), and the error
    itself is not null or undefined: Express calls an error middleware for
    truthy values only.
    [err_errors] is [None] when [err.errors] is undefined or null; otherwise
    it lists the values of [err.errors] in order, each [None] when the value
    is null or undefined and [Some m] when its [message] is [m] (undefined
    when the value has none).  [err_keyValue] is [None] when [err.keyValue]
    is undefined or null, and lists its own keys otherwise. *)
Record ErrObject : Type := mkErrObject {
  err_name : EhVal;
  err_code : EhVal;
  err_errors : option (list (option EhVal));
  err_keyValue : option (list jsstring);
  err_statusCode : EhVal;
  err_message : EhVal;
  err_stack : EhVal
}.

(** The variable [error] of the middleware. *)
Record ErrorReply : Type := mkErrorReply {
  er_success : bool;
  er_message : EhVal;
  er_statusCode : EhVal
}.

(** The response object, a collaborator outside this repository:
    [res.status(code).json({ success, message, stack? })] sends the answer
    or throws (as the server does for a status that is no valid code). *)
Record Responder : Type := mkResponder {
  res_json : EhVal -> bool -> EhVal -> option EhVal -> outcome unit
}.

(** What the middleware does: the first line on the console, and the call
    of the response object. *)
Inductive eh_event : Type :=
| EhConsoleError
| EhReply (code : EhVal) (success : bool) (message : EhVal)
    (stack : option EhVal).

(** [Object.values(o)] and [Object.keys(o)] throw on undefined and null. *)
Definition object_entries {A} (what : string) (o : option (list A))
    : outcome (list A) :=
  match o with
  | Some l => Ret l
  | None => Throw (TypeError what)
  end.

(** [values.map(val => val.message)]: reading a property of null or
    undefined throws. *)
Fixpoint map_message (values : list (option EhVal)) : outcome (list EhVal) :=
  match values with
  | [] => Ret []
  | None :: _ => Throw (TypeError "message")
  | Some m :: values' =>
      messages <~ map_message values' ;;
      Ret (m :: messages)
  end.

(** The conversion of an element by [join]: undefined and null give the
    empty string. *)
Definition join_item (v : EhVal) : outcome jsstring :=
  match v with
  | EhUndef | EhNull => Ret []
  | EhBool true => Ret (str "true")
  | EhBool false => Ret (str "false")
  | EhInt n => Ret (dec_of_Z n)
  | EhStr s => Ret s
  | EhOther _ text => text
  end.

(** [array.join(sep)] *)
Fixpoint join (sep : jsstring) (l : list EhVal) : outcome jsstring :=
  match l with
  | [] => Ret []
  | [v] => join_item v
  | v :: l' =>
      first <~ join_item v ;;
      rest <~ join sep l' ;;
      Ret (first ++ sep ++ rest)
  end.

(** Line 14: [Object.values(err.errors).map(val => val.message).join(', ')] *)
Definition validation_message (errors : option (list (option EhVal)))
    : outcome jsstring :=
  values <~ object_entries "Object.values" errors ;;
  messages <~ map_message values ;;
  join (str ", ") messages.

(** Line 24: [Object.keys(err.keyValue)[0]], as the template literal of
    line 27 prints it. *)
Definition duplicate_field (keyValue : option (list jsstring))
    : outcome jsstring :=
  keys <~ object_entries "Object.keys" keyValue ;;
  Ret (match keys with
       | k :: _ => k
       | [] => str "undefined"
       end).

(** [process.env.NODE_ENV === 'lit'] *)
Definition env_is (NODE_ENV : option jsstring) (lit : jsstring) : bool :=
  bool_decide (NODE_ENV = Some lit).

(** [res.status(code).json(...)] *)
Definition respond (res : Responder) (code : EhVal) (success : bool)
    (message : EhVal) (stack : option EhVal) : @Trace.T eh_event unit :=
  ([EhReply code success message stack], res_json res code success message stack).

(** [errorHandler(err, req, res, next)] *)
Definition errorHandler (res : Responder) (NODE_ENV : option jsstring)
    (err : ErrObject) : @Trace.T eh_event unit :=
  Trace.emit EhConsoleError ;;;
  let error := mkErrorReply false (EhStr (str "Internal Server Error"))
                 (EhInt 500) in
  error <-
    (if eh_is_str (err_name err) (str "ValidationError") then
       message <- Trace.lift (validation_message (err_errors err)) ;;
       Trace.ret (mkErrorReply false
                    (EhStr (str "Validation Error: " ++ message)) (EhInt 400))
     else Trace.ret error) ;;
  error <-
    (if eh_is_int (err_code err) 11000 then
       field <- Trace.lift (duplicate_field (err_keyValue err)) ;;
       Trace.ret (mkErrorReply false (EhStr (field ++ str " already exists"))
                    (EhInt 400))
     else Trace.ret error) ;;
  let error :=
    if eh_is_str (err_name err) (str "CastError")
    then mkErrorReply false (EhStr (str "Invalid ID format")) (EhInt 400)
    else error in
  let error :=
    if eh_is_str (err_name err) (str "JsonWebTokenError")
    then mkErrorReply false (EhStr (str "Invalid token")) (EhInt 401)
    else error in
  let error :=
    if eh_is_str (err_name err) (str "TokenExpiredError")
    then mkErrorReply false (EhStr (str "Token expired")) (EhInt 401)
    else error in
  let error :=
    if eh_is_str (err_code err) (str "LIMIT_FILE_SIZE")
    then mkErrorReply false (EhStr (str "File too large")) (EhInt 400)
    else error in
  let error :=
    if eh_is_str (err_code err) (str "LIMIT_UNEXPECTED_FILE")
    then mkErrorReply false (EhStr (str "Unexpected file field")) (EhInt 400)
    else error in
  let error :=
    if eh_truthy (err_statusCode err)
    then mkErrorReply (er_success error) (err_message err) (err_statusCode err)
    else error in
  let error :=
    if env_is NODE_ENV (str "production") && eh_is_int (er_statusCode error) 500
    then mkErrorReply (er_success error) (EhStr (str "Something went wrong"))
           (er_statusCode error)
    else error in
  respond res (er_statusCode error) (er_success error) (er_message error)
    (if env_is NODE_ENV (str "development") then Some (err_stack err)
     else None).

Local Close Scope trace_scope.

(** The answers in a trace of the middleware. *)
Definition eh_reply_of (e : eh_event)
    : option (EhVal * bool * EhVal * option EhVal) :=
  match e with
  | EhReply code ok msg st => Some (code, ok, msg, st)
  | EhConsoleError => None
  end.
Definition eh_replies (evs : list eh_event) := omap eh_reply_of evs.

(** A value of [err.errors] whose message can be read and joined: the
    value is not null or undefined, and its message is not a value whose
    conversion to a string throws. *)
Definition readable_value (v : option EhVal) : bool :=
  match v with
  | None => false
  | Some (EhOther _ (Throw _)) => false
  | Some _ => true
  end.

(** The errors that the middleware cannot read: a validation error whose
    [errors] is missing or holds a value that cannot be read, and a
    duplicate-key error whose [keyValue] is missing. *)
Definition unreadable (err : ErrObject) : bool :=
  eh_is_str (err_name err) (str "ValidationError") &&
    match err_errors err with
    | None => true
    | Some values => negb (forallb readable_value values)
    end ||
  eh_is_int (err_code err) 11000 &&
    match err_keyValue err with
    | None => true
    | Some _ => false
    end.

(** The error with another message and another stack. *)
Definition with_message_and_stack (err : ErrObject) (m st : EhVal)
    : ErrObject :=
  mkErrObject (err_name err) (err_code err) (err_errors err)
    (err_keyValue err) (err_statusCode err) m st.

(** The part of the middleware after the two readings of the error: the
    tests that follow each other, each replacing what the ones before it
    chose (lines 33-82). *)
Definition settled (NODE_ENV : option jsstring) (err : ErrObject)
    (error : ErrorReply) : ErrorReply :=
  let error :=
    if eh_is_str (err_name err) (str "CastError")
    then mkErrorReply false (EhStr (str "Invalid ID format")) (EhInt 400)
    else error in
  let error :=
    if eh_is_str (err_name err) (str "JsonWebTokenError")
    then mkErrorReply false (EhStr (str "Invalid token")) (EhInt 401)
    else error in
  let error :=
    if eh_is_str (err_name err) (str "TokenExpiredError")
    then mkErrorReply false (EhStr (str "Token expired")) (EhInt 401)
    else error in
  let error :=
    if eh_is_str (err_code err) (str "LIMIT_FILE_SIZE")
    then mkErrorReply false (EhStr (str "File too large")) (EhInt 400)
    else error in
  let error :=
    if eh_is_str (err_code err) (str "LIMIT_UNEXPECTED_FILE")
    then mkErrorReply false (EhStr (str "Unexpected file field")) (EhInt 400)
    else error in
  let error :=
    if eh_truthy (err_statusCode err)
    then mkErrorReply (er_success error) (err_message err) (err_statusCode err)
    else error in
  if env_is NODE_ENV (str "production") && eh_is_int (er_statusCode error) 500
  then mkErrorReply (er_success error) (EhStr (str "Something went wrong"))
         (er_statusCode error)
  else error.

(** What the two readings of the error choose, when they succeed. *)
Definition read_error (err : ErrObject) : ErrorReply :=
  if eh_is_int (err_code err) 11000 then
    mkErrorReply false
      (EhStr (match duplicate_field (err_keyValue err) with
              | Ret field => field
              | Throw _ => []
              end ++ str " already exists")) (EhInt 400)
  else if eh_is_str (err_name err) (str "ValidationError") then
    mkErrorReply false
      (EhStr (str "Validation Error: " ++
              match validation_message (err_errors err) with
              | Ret message => message
              | Throw _ => []
              end)) (EhInt 400)
  else mkErrorReply false (EhStr (str "Internal Server Error")) (EhInt 500).

(** Sample inputs of the middleware: a validation error one of whose
    values is null, and a response object that sends every answer. *)
Definition null_entry_error : ErrObject :=
  mkErrObject (EhStr (str "ValidationError")) EhUndef
    (Some [Some (EhStr (str "Title is required")); None]) None EhUndef
    (EhStr (str "Notice validation failed")) EhUndef.

Definition sending : Responder := mkResponder (fun _ _ _ _ => Ret tt).

(* --------------------------------------------------------------------- *)
(** ** The gallery controller: the public id of an image to delete         *)
(* --------------------------------------------------------------------- *)

(** Lines 224-226 of galleryController.js, in [deleteImage]: the last part
    of the image URL, up to its first dot, under the folder of the gallery.
    [split] never gives an empty array, so the last and the first part
    exist. *)
Definition deleteImage_publicId (imageUrl : jsstring) : jsstring :=
  let urlParts := split_on "/" imageUrl in
  let publicId := List.hd [] (split_on "." (List.last urlParts [])) in
  str "jamalpur-chamber/gallery/" ++ publicId.

(** A text without the given character. *)
Definition free_of (c : ascii) (s : jsstring) : bool :=
  forallb (fun x => negb (chr_eqb x c)) s.

(* --------------------------------------------------------------------- *)
(** ** The entry points when no window is given                            *)
(* --------------------------------------------------------------------- *)

(** A browser that blocks new windows: [window.open] returns null.  The
    network and the rest of the browser work. *)
Definition blocked_host : Host :=
  mkHost None
    (fun _ _ => Ret (mkResponse 200 (Some application_pdf)
                       (Ret (mkBlob application_pdf pdf_bytes))))
    (fun _ => Ret false)
    (fun _ => Ret (str "blob:https://example.org/1"))
    (fun _ _ => Ret tt).

(** What [window.open] answers to [view] and [print] for this argument:
    nothing when the argument is missing or holds none of the four fields,
    so that no window is asked for. *)
Definition window_answer (h : Host) (pdfFile : option PdfFile)
    : option (outcome bool) :=
  match pdfFile with
  | Some f =>
      match open_target h f with
      | Some u => Some (host_open h u)
      | None => None
      end
  | None => None
  end.

(* ===================================================================== *)
(** * Part II. Properties                                                  *)
(* ===================================================================== *)

(** ** Strings *)

Lemma chr_eqb_true (a b : ascii) : chr_eqb a b = true <-> a = b.
Proof. unfold chr_eqb. apply Ascii.eqb_eq. Qed.

Lemma startsWith_split (s pat : jsstring) :
  startsWith s pat = true -> s = pat ++ drop (length pat) s.
Proof.
  revert s. induction pat as [|p pat IH]; intros s H.
  - reflexivity.
  - destruct s as [|c s]; simpl in H; [discriminate|].
    apply andb_true_iff in H as [Hc Hs].
    apply chr_eqb_true in Hc. subst c.
    simpl. f_equal. by apply IH.
Qed.

Lemma includes_occurrences (s pat : jsstring) :
  includes s pat = negb (Nat.eqb (occurrences s pat) 0).
Proof.
  induction s as [|c s IH]; cbn [includes occurrences].
  - destruct (startsWith [] pat); reflexivity.
  - rewrite IH. destruct (startsWith (c :: s) pat); reflexivity.
Qed.

Lemma replace_absent (s pat rep : jsstring) :
  includes s pat = false -> replace s pat rep = s.
Proof.
  induction s as [|c s IH]; simpl; intros H.
  - apply orb_false_iff in H as [-> _]. reflexivity.
  - apply orb_false_iff in H as [-> H]. f_equal. by apply IH.
Qed.

(** The delivery segments of the store. *)
Lemma image_segment_chars :
  image_segment =
  ["/"; "i"; "m"; "a"; "g"; "e"; "/"; "u"; "p"; "l"; "o"; "a"; "d"; "/"]%char.
Proof. reflexivity. Qed.

Lemma raw_segment_chars :
  raw_segment =
  ["/"; "r"; "a"; "w"; "/"; "u"; "p"; "l"; "o"; "a"; "d"; "/"]%char.
Proof. reflexivity. Qed.

(** Rewriting the first image segment never makes a proper suffix of the
    segment match where it did not match before. *)
Lemma replace_suffix_match (k : nat) (u : jsstring) :
  startsWith (replace u image_segment raw_segment) (drop (S k) image_segment) = true ->
  startsWith u (drop (S k) image_segment) = true.
Proof.
  revert k. induction u as [|c u IH]; intros k.
  - simpl. auto.
  - cbn [replace].
    destruct (startsWith (c :: u) image_segment) eqn:Hs.
    + apply startsWith_split in Hs. rewrite Hs.
      rewrite image_segment_chars, raw_segment_chars.
      do 14 (destruct k as [|k]; [cbn; try discriminate; auto|]).
      cbn. auto.
    + destruct (drop (S k) image_segment) as [|q qs] eqn:Hq; [auto|].
      cbn [startsWith]. intros H.
      apply andb_true_iff in H as [Hc H]. rewrite Hc. cbn.
      assert (qs = drop (S (S k)) image_segment) as ->.
      { transitivity (drop 1 (drop (S k) image_segment)).
        - rewrite Hq. reflexivity.
        - rewrite drop_drop. f_equal. lia. }
      by apply IH.
Qed.

Lemma replace_keeps_mismatch (c : ascii) (u : jsstring) :
  startsWith (c :: u) image_segment = false ->
  startsWith (c :: replace u image_segment raw_segment) image_segment = false.
Proof.
  intros H.
  destruct (startsWith (c :: replace u image_segment raw_segment) image_segment)
    eqn:E; [|reflexivity].
  rewrite <- H. symmetry.
  rewrite image_segment_chars in E |- *. cbn [startsWith] in E |- *.
  apply andb_true_iff in E as [Hc E]. rewrite Hc. cbn [andb].
  apply (replace_suffix_match 0 u). rewrite image_segment_chars. exact E.
Qed.

(** After the rewrite the URL still holds an image segment exactly when the
    URL held more than one of them. *)
Lemma replace_image_segment_includes (u : jsstring) :
  includes (replace u image_segment raw_segment) image_segment =
  negb (occurrences u image_segment <=? 1).
Proof.
  induction u as [|c u IH].
  - reflexivity.
  - cbn [replace occurrences].
    destruct (startsWith (c :: u) image_segment) eqn:Hs.
    + assert (negb (1 + occurrences u image_segment <=? 1) =
              includes u image_segment) as ->.
      { rewrite includes_occurrences.
        by destruct (occurrences u image_segment). }
      apply startsWith_split in Hs.
      rewrite image_segment_chars in Hs. cbn in Hs.
      injection Hs as -> ->.
      rewrite image_segment_chars, raw_segment_chars. reflexivity.
    + cbn [includes]. rewrite replace_keeps_mismatch by exact Hs.
      cbn [orb plus]. exact IH.
Qed.

(** The string functions at work. *)
Example replace_first_only :
  replace (str "a/b/c") (str "/") (str "-") = str "a-b/c" /\
  includes (str "application/pdf") (str "pdf") = true /\
  occurrences (str "aaa") (str "aa") = 2.
Proof. repeat split. Qed.

Example trim_samples :
  trim (str "  a b  ") = str "a b" /\ trim (str "   ") = [] /\
  toLowerCase (str "Image/JPEG") = str "image/jpeg".
Proof. repeat split. Qed.

Example extension_tests :
  test_has_extension (str "notice.pdf") = true /\
  test_has_extension (str "archive.tar.gz") = true /\
  test_has_extension (str "version 1.5") = false /\
  test_has_extension (str "name.abcdefg") = false /\
  test_has_extension (str "notice") = false /\
  test_pdf_ext (str "NOTICE.PdF") = true /\
  test_pdf_ext (str "notice.pdf.txt") = false.
Proof. repeat split. Qed.

Example strip_and_match_samples :
  strip_known_ext (str "jamalpur-chamber/notice.PDF") = str "jamalpur-chamber/notice" /\
  strip_known_ext (str "photo.jpeg") = str "photo" /\
  strip_known_ext (str "notes.txt") = str "notes.txt" /\
  match_cloud_name (str "https://res.cloudinary.com/demo/image/upload/x.pdf") =
    Some (str "demo") /\
  match_cloud_name (str "https://res.cloudinary.com//x") = None /\
  match_cloud_name (str "https://example.org/x.pdf") = None /\
  dec_of_N 404 = str "404".
Proof. repeat split. Qed.

(** ** Write path *)

Lemma removed_file_is_gone (fs : gset jsstring) (p : jsstring) :
  p ∉ fs ∖ {[p]}.
Proof.
  intros [_ H]%elem_of_difference. apply H. by apply elem_of_singleton.
Qed.

Lemma remove_missing_file (fs : gset jsstring) (p : jsstring) :
  p ∉ fs -> fs = fs ∖ {[p]}.
Proof.
  intros Hp. apply set_eq. intros x.
  rewrite elem_of_difference, elem_of_singleton. split.
  - intros Hx. split; [exact Hx|]. intros ->. by apply Hp.
  - by intros [Hx _].
Qed.

Lemma store_calls_app (a b : list server_event) :
  store_calls (a ++ b) = store_calls a ++ store_calls b.
Proof.
  induction a as [|[| |p cfg] a IH]; simpl; [done|done|done|by rewrite IH].
Qed.

Lemma default_config_resource_type :
  default_config !! "resource_type" = Some (VStr (str "auto")).
Proof. reflexivity. Qed.

(** What [fix_raw_url] does: it only logs, and it rewrites the URL when the
    upload is raw by request or by the store's report. *)
Lemma fix_raw_url_run (options : gmap string JsVal) (res : UploadResult)
    (w : Server) :
  exists res' evs,
    fix_raw_url options res w = (mkServer (files w) (sv_events w ++ evs), Ret res') /\
    store_calls evs = [] /\
    resource_type res' = resource_type res /\
    public_id res' = public_id res /\
    bytes res' = bytes res /\
    secure_url res' =
      if intended_raw options || bool_decide (resource_type res = raw)
      then (fun u => replace u image_segment raw_segment) <$> secure_url res
      else secure_url res.
Proof.
  unfold fix_raw_url, intended_raw.
  destruct (is_str (prop options "resource_type") raw ||
            bool_decide (resource_type res = raw)) eqn:Hraw.
  - destruct (secure_url res) as [[|c u]|] eqn:Hu.
    + exists res, []. rewrite app_nil_r. destruct w. by rewrite Hu.
    + destruct (includes (c :: u) image_segment) eqn:Hi.
      * eexists _, [_]. split; [reflexivity|]. by repeat split.
      * exists res, []. rewrite app_nil_r. destruct w.
        rewrite Hu. cbn [fmap option_fmap option_map].
        by rewrite replace_absent.
    + exists res, []. rewrite app_nil_r. destruct w. by rewrite Hu.
  - exists res, []. rewrite app_nil_r. by destruct w.
Qed.

(** A complete account of one call of [uploadToCloudinary]. *)
Lemma uploadToCloudinary_run (c : Cloudinary) (filePath : jsstring)
    (options : gmap string JsVal) (w : Server) :
  exists evs,
    store_calls evs = [(filePath, baseConfig options)] /\
    match uploader_upload c filePath (baseConfig options) with
    | Throw e =>
        uploadToCloudinary c filePath options w =
        (mkServer (files w ∖ {[filePath]}) (sv_events w ++ evs), Throw e)
    | Ret res =>
        exists res',
          resource_type res' = resource_type res /\
          public_id res' = public_id res /\
          bytes res' = bytes res /\
          secure_url res' =
            (if intended_raw options || bool_decide (resource_type res = raw)
             then (fun u => replace u image_segment raw_segment) <$> secure_url res
             else secure_url res) /\
          uploadToCloudinary c filePath options w =
          (mkServer (files w ∖ {[filePath]}) (sv_events w ++ evs),
           if bool_decide (filePath ∈ files w) then Ret res' else Throw enoent)
    end.
Proof.
  unfold uploadToCloudinary, try_catch, bind, store_upload, sv_emit.
  cbn [files sv_events].
  destruct (uploader_upload c filePath (baseConfig options)) as [res|e] eqn:Hup.
  - set (warn := if is_str (prop options "resource_type") raw &&
                    negb (bool_decide (resource_type res = raw))
                 then [SvError "WARNING: PDF uploaded but resource_type is not raw!"]
                 else []).
    assert (store_calls warn = []) as Hwarn.
    { subst warn. by destruct (_ && _). }
    assert (exists res' evs,
      store_calls evs = [] /\
      resource_type res' = resource_type res /\
      public_id res' = public_id res /\
      bytes res' = bytes res /\
      secure_url res' =
        (if intended_raw options || bool_decide (resource_type res = raw)
         then (fun u => replace u image_segment raw_segment) <$> secure_url res
         else secure_url res) /\
      forall evs0,
        fix_raw_url options res (mkServer (files w) evs0) =
        (mkServer (files w) (evs0 ++ evs), Ret res'))
      as (res' & evs & Hcalls & Hrt & Hid & Hby & Hurl & Hfix).
    { destruct (fix_raw_url_run options res (mkServer (files w) []))
        as (res' & evs & Hfix & Hrest).
      exists res', evs. repeat (split; [tauto|]).
      intros evs0. revert Hfix. unfold fix_raw_url.
      destruct (_ || _); [|intros [= <- <-]; by rewrite app_nil_r].
      destruct (secure_url res) as [[|? ?]|];
        try (intros [= <- <-]; by rewrite app_nil_r).
      destruct (includes _ _); [|intros [= <- <-]; by rewrite app_nil_r].
      unfold bind, sv_emit, ret. cbn. by intros [= <- <-]. }
    exists ([SvLog "Uploading to Cloudinary:";
             SvStoreUpload filePath (baseConfig options);
             SvLog "Cloudinary upload result:"] ++ warn ++ evs).
    split.
    { by rewrite !store_calls_app, Hcalls, Hwarn. }
    exists res'. repeat (split; [assumption|]).
    subst warn.
    destruct (is_str (prop options "resource_type") raw &&
              negb (bool_decide (resource_type res = raw)));
      unfold ret at 1; cbn [files sv_events]; rewrite Hfix;
      unfold unlinkSync, existsSync, ret, throw; cbn [files sv_events];
      destruct (bool_decide (filePath ∈ files w)) eqn:Hin;
      cbn [files sv_events]; rewrite ?Hin; cbn;
      try apply bool_decide_eq_false in Hin;
      (f_equal; f_equal;
       first [by rewrite <- ?app_assoc | by apply remove_missing_file]).
  - exists [SvLog "Uploading to Cloudinary:";
            SvStoreUpload filePath (baseConfig options)].
    split; [reflexivity|].
    unfold unlinkSync, existsSync, ret, throw. cbn [files sv_events].
    destruct (bool_decide (filePath ∈ files w)) eqn:Hin.
    + cbn. rewrite Hin. cbn. f_equal. f_equal. by rewrite <- !app_assoc.
    + cbn. apply bool_decide_eq_false in Hin.
      f_equal. f_equal;
        first [by rewrite <- ?app_assoc | by apply remove_missing_file].
Qed.

(** A raw upload into the folder archive/image/upload, for which the store
    answers with an image delivery URL: the URL holds the image segment
    twice, only the first is rewritten, and the returned URL still contains
    the segment. *)
Lemma raw_upload_nested_folder_keeps_image_segment :
  intended_raw raw_options_nested_folder = true /\
  occurrences nested_folder_url image_segment = 2 /\
  exists res',
    snd (uploadToCloudinary (store_answering nested_folder_url) staged_path
           raw_options_nested_folder (disk_with staged_path)) = Ret res' /\
    secure_url res' =
      Some (str "https://res.cloudinary.com/demo/raw/upload/v1/archive/image/upload/notice.pdf") /\
    (exists u', secure_url res' = Some u' /\ includes u' image_segment = true).
Proof.
  split; [reflexivity|]. split; [reflexivity|].
  destruct (uploadToCloudinary_run (store_answering nested_folder_url)
              staged_path raw_options_nested_folder (disk_with staged_path))
    as (evs & _ & res' & _ & _ & _ & Hurl & Hrun).
  exists res'. rewrite Hrun. split; [reflexivity|].
  rewrite Hurl. split; [reflexivity|].
  eexists. split; reflexivity.
Qed.

(** C1 (amended). For every raw upload that succeeds, the returned
    delivery URL is the store's URL with its first image segment rewritten to
    the raw segment; it is free of the image segment exactly when the store's
    URL held that segment at most once. *)
Theorem raw_upload_rewrites_first_image_segment
    (c : Cloudinary) (filePath : jsstring) (options : gmap string JsVal)
    (w : Server) (res : UploadResult) (u : jsstring) :
  intended_raw options = true ->
  uploader_upload c filePath (baseConfig options) = Ret res ->
  secure_url res = Some u ->
  filePath ∈ files w ->
  exists res',
    snd (uploadToCloudinary c filePath options w) = Ret res' /\
    secure_url res' = Some (replace u image_segment raw_segment) /\
    includes (replace u image_segment raw_segment) image_segment =
      negb (occurrences u image_segment <=? 1).
Proof.
  intros Hraw Hup Hu Hin.
  destruct (uploadToCloudinary_run c filePath options w) as (evs & _ & Hrun).
  rewrite Hup in Hrun. destruct Hrun as (res' & _ & _ & _ & Hurl & Hrun).
  exists res'. rewrite Hrun, Hurl, Hraw, Hu.
  rewrite bool_decide_eq_true_2 by exact Hin.
  repeat split. apply replace_image_segment_includes.
Qed.

Lemma raw_upload_rewrites_first_image_segment_witness :
  intended_raw raw_options = true /\
  uploader_upload (store_answering plain_url) staged_path (baseConfig raw_options) =
    Ret (mkUploadResult (str "image") (Some plain_url) (str "notice") 2048) /\
  staged_path ∈ files (disk_with staged_path) /\
  exists res',
    snd (uploadToCloudinary (store_answering plain_url) staged_path raw_options
           (disk_with staged_path)) = Ret res' /\
    secure_url res' = Some (replace plain_url image_segment raw_segment) /\
    includes (replace plain_url image_segment raw_segment) image_segment =
      negb (occurrences plain_url image_segment <=? 1).
Proof.
  assert (staged_path ∈ files (disk_with staged_path)) as Hin
    by (unfold disk_with; cbn [files]; apply elem_of_singleton_2; reflexivity).
  split; [reflexivity|]. split; [reflexivity|]. split; [exact Hin|].
  apply (raw_upload_rewrites_first_image_segment (store_answering plain_url)
           staged_path raw_options (disk_with staged_path)
           (mkUploadResult (str "image") (Some plain_url) (str "notice") 2048)
           plain_url);
    [reflexivity | reflexivity | reflexivity | exact Hin].
Defined.

(** With a single image segment in the store's URL, the returned URL has
    none. *)
Example plain_url_is_cleaned :
  replace plain_url image_segment raw_segment =
    str "https://res.cloudinary.com/demo/raw/upload/v1/jamalpur-chamber/notice.pdf" /\
  includes (replace plain_url image_segment raw_segment) image_segment = false.
Proof. split; reflexivity. Qed.

(** C6. Every exit of [uploadToCloudinary] leaves the disk without the
    staged file and with every other file untouched: on success the result is
    returned after the removal, and when the store fails its error is thrown
    on to the caller after the removal. *)
Theorem uploadToCloudinary_releases_staged_file
    (c : Cloudinary) (filePath : jsstring) (options : gmap string JsVal)
    (w : Server) :
  files (fst (uploadToCloudinary c filePath options w)) =
    (files w ∖ {[filePath]}) /\
  (filePath ∉ files (fst (uploadToCloudinary c filePath options w))) /\
  match uploader_upload c filePath (baseConfig options) with
  | Throw e => snd (uploadToCloudinary c filePath options w) = Throw e
  | Ret res =>
      if bool_decide (filePath ∈ files w)
      then exists res',
             snd (uploadToCloudinary c filePath options w) = Ret res' /\
             public_id res' = public_id res /\ bytes res' = bytes res
      else snd (uploadToCloudinary c filePath options w) = Throw enoent
  end.
Proof.
  destruct (uploadToCloudinary_run c filePath options w) as (evs & _ & Hrun).
  destruct (uploader_upload c filePath (baseConfig options)) as [res|e].
  - destruct Hrun as (res' & _ & Hid & Hby & _ & Hrun). rewrite Hrun.
    cbn [fst snd files]. split; [reflexivity|].
    split; [apply removed_file_is_gone|].
    destruct (bool_decide (filePath ∈ files w)); [|reflexivity].
    by exists res'.
  - rewrite Hrun. cbn [fst snd files]. split; [reflexivity|].
    split; [apply removed_file_is_gone|reflexivity].
Qed.

Example store_failure_still_cleans_up :
  uploadToCloudinary (failing_store (HostError (str "quota exceeded")))
    staged_path ∅ (disk_with staged_path) =
  (mkServer ∅ [SvLog "Uploading to Cloudinary:";
               SvStoreUpload staged_path (baseConfig ∅)],
   Throw (HostError (str "quota exceeded"))).
Proof. vm_compute. reflexivity. Qed.

Lemma baseConfig_resource_type (options : gmap string JsVal) :
  (options ∪ default_config) !! "resource_type" =
  match options !! "resource_type" with
  | Some v => Some v
  | None => Some (VStr (str "auto"))
  end.
Proof.
  rewrite lookup_union, default_config_resource_type.
  by destruct (options !! "resource_type").
Qed.

Lemma baseConfig_keeps (options : gmap string JsVal) (k : string) :
  default_config !! k = None ->
  (options ∪ default_config) !! k = options !! k.
Proof.
  intros Hk. rewrite lookup_union, Hk. by destruct (options !! k).
Qed.

(** A raw upload whose caller passes a quality option: the store call is
    classified as a document upload and carries the option all the same. *)
Lemma raw_upload_passes_caller_quality :
  intended_raw raw_options_with_quality = true /\
  is_str (prop (baseConfig raw_options_with_quality) "resource_type") raw = true /\
  baseConfig raw_options_with_quality !! "quality" = Some (VStr (str "auto")) /\
  baseConfig raw_options_with_quality !! "quality" <> None /\
  store_calls
    (sv_events (fst (uploadToCloudinary (store_answering plain_url) staged_path
                       raw_options_with_quality (disk_with staged_path)))) =
    [(staged_path, baseConfig raw_options_with_quality)].
Proof.
  split; [reflexivity|]. split; [reflexivity|]. split; [reflexivity|].
  split; [discriminate|].
  destruct (uploadToCloudinary_run (store_answering plain_url) staged_path
              raw_options_with_quality (disk_with staged_path))
    as (evs & Hcalls & res' & _ & _ & _ & _ & Hrun).
  rewrite Hrun. cbn [fst sv_events disk_with]. exact Hcalls.
Qed.

(** C3 (amended). Every call of [uploadToCloudinary] makes exactly one
    store call, with the configuration [baseConfig options].  Its resource
    type is the caller's, or auto when the caller names none.  Whenever that
    resource type is not raw (so for every image upload) the store call
    carries quality and fetch_format, both set to auto.  When it is raw the
    function adds neither: each of the two is in the store call exactly when
    the caller's options hold it. *)
Theorem image_options_follow_resource_type
    (c : Cloudinary) (filePath : jsstring) (options : gmap string JsVal)
    (w : Server) :
  store_calls (sv_events (fst (uploadToCloudinary c filePath options w))) =
    store_calls (sv_events w) ++ [(filePath, baseConfig options)] /\
  prop (baseConfig options) "resource_type" =
    match options !! "resource_type" with
    | Some v => v
    | None => VStr (str "auto")
    end /\
  if is_str (prop (baseConfig options) "resource_type") raw
  then baseConfig options !! "quality" = options !! "quality" /\
       baseConfig options !! "fetch_format" = options !! "fetch_format"
  else baseConfig options !! "quality" = Some (VStr (str "auto")) /\
       baseConfig options !! "fetch_format" = Some (VStr (str "auto")).
Proof.
  split; [|split].
  - destruct (uploadToCloudinary_run c filePath options w) as (evs & Hcalls & Hrun).
    destruct (uploader_upload c filePath (baseConfig options)) as [res|e].
    + destruct Hrun as (res' & _ & _ & _ & _ & Hrun). rewrite Hrun.
      cbn [fst sv_events]. by rewrite store_calls_app, Hcalls.
    + rewrite Hrun. cbn [fst sv_events]. by rewrite store_calls_app, Hcalls.
  - unfold baseConfig, prop.
    destruct (negb _); rewrite ?lookup_insert_ne by discriminate;
      rewrite baseConfig_resource_type;
      by destruct (options !! "resource_type").
  - unfold baseConfig.
    destruct (is_str (prop (options ∪ default_config) "resource_type") raw) eqn:E;
      cbn [negb].
    + rewrite E. split; by apply baseConfig_keeps.
    + assert (is_str (prop (<["fetch_format":=VStr (str "auto")]>
                (<["quality":=VStr (str "auto")]> (options ∪ default_config)))
                "resource_type") raw = false) as ->.
      { unfold prop. by rewrite !lookup_insert_ne by discriminate. }
      split.
      * rewrite lookup_insert_ne by discriminate. apply lookup_insert_eq.
      * apply lookup_insert_eq.
Qed.

(** The upload of the notice and form controllers, a PDF sent with no
    options: the store call has resource type auto and both image options. *)
Example notice_upload_store_call :
  prop (baseConfig ∅) "resource_type" = VStr (str "auto") /\
  baseConfig ∅ !! "quality" = Some (VStr (str "auto")) /\
  baseConfig ∅ !! "fetch_format" = Some (VStr (str "auto")) /\
  store_calls
    (sv_events (fst (notice_upload (store_answering plain_url) staged_path
                       (disk_with staged_path)))) =
    [(staged_path, baseConfig ∅)].
Proof. repeat split; vm_compute; reflexivity. Qed.

(** The upload of the gallery controller, an image. *)
Example gallery_upload_store_call :
  prop (baseConfig gallery_options) "resource_type" = VStr (str "image") /\
  baseConfig gallery_options !! "quality" = Some (VStr (str "auto")) /\
  baseConfig gallery_options !! "fetch_format" = Some (VStr (str "auto")).
Proof. repeat split. Qed.

(** ** Filename sanitization *)

Section Trim.

Lemma trimStart_starts_clean (s : jsstring) : starts_clean (trimStart s).
Proof.
  induction s as [|c s IH]; simpl; [exact I|].
  destruct (is_ws c) eqn:E; [exact IH|exact E].
Qed.

Lemma trimStart_fixed (s : jsstring) : starts_clean s -> trimStart s = s.
Proof. destruct s as [|c s]; simpl; [reflexivity|]. by intros ->. Qed.

Lemma trimEnd_starts_clean (s : jsstring) :
  starts_clean s -> starts_clean (trimEnd s).
Proof.
  destruct s as [|c s]; simpl; [auto|]. intros Hc.
  destruct (trimEnd s); [rewrite Hc|]; exact Hc.
Qed.

Lemma trimEnd_idempotent (s : jsstring) : trimEnd (trimEnd s) = trimEnd s.
Proof.
  induction s as [|c s IH]; simpl; [reflexivity|].
  destruct (trimEnd s) as [|a r] eqn:E.
  - destruct (is_ws c) eqn:Hc; simpl; [reflexivity|]. by rewrite Hc.
  - change (trimEnd (c :: a :: r)) with
      (match trimEnd (a :: r) with
       | [] => if is_ws c then [] else [c]
       | x :: r' => c :: x :: r'
       end).
    by rewrite IH.
Qed.

Lemma trim_idempotent (s : jsstring) : trim (trim s) = trim s.
Proof.
  unfold trim.
  rewrite (trimStart_fixed (trimEnd (trimStart s))).
  - apply trimEnd_idempotent.
  - apply trimEnd_starts_clean, trimStart_starts_clean.
Qed.

Context (P : ascii -> Prop).

Lemma trimStart_Forall (s : jsstring) : Forall P s -> Forall P (trimStart s).
Proof.
  induction 1 as [|c s Hc Hs IH]; simpl; [constructor|].
  destruct (is_ws c); [exact IH|by constructor].
Qed.

Lemma trimEnd_Forall (s : jsstring) : Forall P s -> Forall P (trimEnd s).
Proof.
  induction 1 as [|c s Hc Hs IH]; simpl; [constructor|].
  revert IH. destruct (trimEnd s) as [|a r]; intros IH.
  - destruct (is_ws c); repeat constructor; exact Hc.
  - constructor; [exact Hc|exact IH].
Qed.

Lemma trim_Forall (s : jsstring) : Forall P s -> Forall P (trim s).
Proof. intros H. by apply trimEnd_Forall, trimStart_Forall. Qed.

End Trim.

Lemma replace_illegal_legal (s : jsstring) :
  Forall (fun c => is_illegal c = false) (replace_illegal s).
Proof.
  induction s as [|c s IH]; simpl; constructor; [|exact IH].
  destruct (is_illegal c) eqn:E; [reflexivity|exact E].
Qed.

Lemma replace_illegal_fixed (s : jsstring) :
  Forall (fun c => is_illegal c = false) s -> replace_illegal s = s.
Proof.
  induction 1 as [|c s Hc Hs IH]; simpl; [reflexivity|].
  rewrite Hc. f_equal. exact IH.
Qed.

(** Sanitizing is idempotent for every fallback name that is itself a fixed
    point of it. *)
Lemma sanitize_twice_for (fallback fname : jsstring) :
  sanitizeFilename fallback fallback = fallback ->
  sanitizeFilename fallback (sanitizeFilename fallback fname) =
  sanitizeFilename fallback fname.
Proof.
  intros Hfb. unfold sanitizeFilename at 2 3.
  destruct (trim (replace_illegal fname)) as [|a r] eqn:E; [exact Hfb|].
  unfold sanitizeFilename.
  rewrite replace_illegal_fixed.
  - assert (trim (a :: r) = a :: r) as ->; [|reflexivity].
    rewrite <- E. apply trim_idempotent.
  - rewrite <- E. apply trim_Forall, replace_illegal_legal.
Qed.

(** C9. The sanitization of the delivery step, namely replacing each of the
    nine illegal characters by an underscore, trimming, and falling back to
    the name document when nothing is left, is idempotent on every string.
    The same holds for the variant of the data-URL path, whose fallback is
    document.pdf. *)
Theorem sanitizeFilename_idempotent (fname : jsstring) :
  sanitizeFilename (str "document") (sanitizeFilename (str "document") fname) =
    sanitizeFilename (str "document") fname /\
  sanitizeFilename (str "document.pdf")
      (sanitizeFilename (str "document.pdf") fname) =
    sanitizeFilename (str "document.pdf") fname.
Proof.
  split; apply sanitize_twice_for; reflexivity.
Qed.

Example sanitize_samples :
  sanitizeFilename (str "document") (str "  a<b>:c/d?.pdf ") = str "a_b__c_d_.pdf" /\
  sanitizeFilename (str "document") (str "   ") = str "document" /\
  sanitizeFilename (str "document") (str "a_b__c_d_.pdf") = str "a_b__c_d_.pdf".
Proof. repeat split. Qed.


(** ** Read path *)
Ltac step_trace :=
  cbn [Trace.bind Trace.try_catch Trace.ret Trace.throw Trace.lift Trace.emit
       emit console_log console_warn console_error alert fetch createObjectURL
       anchor_click window_open fst snd negb].

Ltac flatten_trace := rewrite <- ?app_assoc; cbn [app]; rewrite ?app_nil_r.

(** The source function and its decision tree agree. *)
Lemma _downloadBlob_deliver (h : Host) (blob : Blob) (fname : jsstring) :
  _downloadBlob h blob fname = deliver h blob fname.
Proof.
  unfold _downloadBlob, deliver, finalFilename_of, blob_alert,
    invalid_blob_error.
  destruct (Nat.eqb (blob_size blob) 0); [reflexivity|].
  destruct (test_has_extension (sanitizeFilename (str "document") fname));
    match goal with
    | |- context [test_pdf_ext ?n] => destruct (test_pdf_ext n)
    end;
    step_trace;
    (destruct (host_createObjectURL h blob) as [ou|e]; [|reflexivity]);
    step_trace;
    match goal with
    | |- context [host_click h ou ?n] => destruct (host_click h ou n) as [[]|e]
    end;
    reflexivity.
Qed.

Lemma _downloadFromUrl_settle (h : Host) (f : PdfFile) :
  _downloadFromUrl h f =
  match getFilename (Some f) with
  | Throw e => ([], Throw e)
  | Ret fname =>
      match expectPdf_of f fname with
      | Throw e => ([], Throw e)
      | Ret expectPdf =>
          settle CloudinaryFailed
            (EvLog FetchingCloudinary :: fst (cloudinary_fetch_url f))
            (match snd (cloudinary_fetch_url f) with
             | Throw e => ([], Throw e)
             | Ret u =>
                 fetch_and_deliver h fname expectPdf u cloudinary_init
                   BlobReceived true
             end)
      end
  end.
Proof.
  unfold _downloadFromUrl, settle, fetch_and_deliver, fetch_failure.
  destruct (getFilename (Some f)) as [fname|e]; step_trace; [|reflexivity].
  destruct (expectPdf_of f fname) as [expectPdf|e]; step_trace; [|reflexivity].
  destruct (cloudinary_fetch_url f) as [logs [u|e]]; step_trace;
    [|by flatten_trace].
  destruct (host_fetch h u cloudinary_init) as [r|e]; step_trace;
    [|by flatten_trace].
  destruct (response_ok r); step_trace; [|by flatten_trace].
  destruct (body r) as [blob|e]; step_trace; [|by flatten_trace].
  destruct (Nat.eqb (blob_size blob) 0); step_trace; [by flatten_trace|].
  unfold pdf_check, finalBlob_of.
  destruct expectPdf; step_trace.
  - destruct (startsWith (firstBytes blob) pdf_signature),
      (type_left_alone blob); step_trace;
      match goal with
      | |- context [_downloadBlob h ?b fname] =>
          destruct (_downloadBlob h b fname) as [devs [[]|e]]
      end; step_trace; by flatten_trace.
  - destruct (_downloadBlob h blob fname) as [devs [[]|e]];
      step_trace; by flatten_trace.
Qed.

Lemma _downloadFromServer_settle (h : Host) (f : PdfFile) :
  _downloadFromServer h f =
  match getFilename (Some f) with
  | Throw e => ([], Throw e)
  | Ret fname =>
      match expectPdf_of f fname with
      | Throw e => ([], Throw e)
      | Ret expectPdf =>
          settle ServerFailed [EvLog FetchingServer]
            (fetch_and_deliver h fname expectPdf (legacy_url h f) server_init
               ServerBlobReceived false)
      end
  end.
Proof.
  unfold _downloadFromServer, settle, fetch_and_deliver, fetch_failure.
  destruct (getFilename (Some f)) as [fname|e]; step_trace; [|reflexivity].
  destruct (expectPdf_of f fname) as [expectPdf|e]; step_trace; [|reflexivity].
  step_trace.
  destruct (host_fetch h (legacy_url h f) server_init) as [r|e]; step_trace;
    [|by flatten_trace].
  destruct (response_ok r); step_trace; [|by flatten_trace].
  destruct (body r) as [blob|e]; step_trace; [|by flatten_trace].
  destruct (Nat.eqb (blob_size blob) 0); step_trace; [by flatten_trace|].
  unfold pdf_check, finalBlob_of.
  destruct expectPdf; step_trace.
  - destruct (startsWith (firstBytes blob) pdf_signature),
      (type_left_alone blob); step_trace;
      match goal with
      | |- context [_downloadBlob h ?b fname] =>
          destruct (_downloadBlob h b fname) as [devs [[]|e]]
      end; step_trace; by flatten_trace.
  - destruct (_downloadBlob h blob fname) as [devs [[]|e]];
      step_trace; by flatten_trace.
Qed.

(** *** Reading the trace of the common course *)

Lemma quiet_omap {X} (p : event -> option X) (l : list event) :
  (forall s, p (EvLog s) = None) ->
  forallb is_quiet l = true -> omap p l = [].
Proof.
  intros Hp. induction l as [|e l IH]; simpl; [reflexivity|].
  intros [He Hl]%andb_true_iff. destruct e; try discriminate.
  rewrite Hp. by apply IH.
Qed.

Lemma quiet_no_blob_log (l : list event) :
  forallb is_quiet l = true -> ~ In DownloadingBlob (omap log_of l).
Proof.
  induction l as [|e l IH]; simpl; [tauto|].
  intros [He Hl]%andb_true_iff.
  destruct e as [lb| | | | | | | | | |]; try discriminate.
  simpl. intros [->|Hin]; [discriminate|]. by apply IH.
Qed.

Lemma cloudinary_fetch_url_quiet (f : PdfFile) :
  forallb is_quiet (fst (cloudinary_fetch_url f)) = true.
Proof.
  unfold cloudinary_fetch_url.
  destruct (as_string "includes" (url f)) as [u|e]; step_trace; [|reflexivity].
  destruct (includes u (str "res.cloudinary.com")); [|reflexivity].
  destruct (includes u image_segment); step_trace;
    (match goal with
     | |- context [truthy (publicId f) && negb (includes ?u1 raw_segment)] =>
         destruct (truthy (publicId f) && negb (includes u1 raw_segment));
         [destruct (match_cloud_name u1);
          [destruct (as_string "replace" (publicId f))|]|]
     end);
    step_trace;
    repeat (match goal with
            | |- context [if ?b then _ else _] => destruct b
            end; step_trace);
    reflexivity.
Qed.

(** The projections of a trace, on a concatenation. *)
Ltac read_app :=
  unfold fetches, object_urls, clicks, opened, caught, alerts, warnings,
    log_labels, errors_logged;
  rewrite ?omap_app.

Ltac read_quiet Hq :=
  rewrite ?(quiet_omap fetch_of _ (fun _ => eq_refl) Hq),
          ?(quiet_omap object_url_of _ (fun _ => eq_refl) Hq),
          ?(quiet_omap click_of _ (fun _ => eq_refl) Hq),
          ?(quiet_omap caught_of _ (fun _ => eq_refl) Hq),
          ?(quiet_omap alert_of _ (fun _ => eq_refl) Hq),
          ?(quiet_omap warn_of _ (fun _ => eq_refl) Hq),
          ?(quiet_omap error_label_of _ (fun _ => eq_refl) Hq).

Ltac read_cons :=
  cbn [omap list_omap fetch_of object_url_of click_of open_of caught_of
       alert_of warn_of log_of error_label_of app].

(** What [_downloadBlob] leaves in the trace for a blob that is not empty. *)
Lemma deliver_reads (h : Host) (blob : Blob) (fname : jsstring) :
  Nat.eqb (blob_size blob) 0 = false ->
  let d := _downloadBlob h blob fname in
  fetches (fst d) = [] /\
  warnings (fst d) = [] /\
  object_urls (fst d) = [blob] /\
  caught (fst d) = match snd d with Throw e => [e] | Ret _ => [] end /\
  alerts (fst d) = match snd d with Throw e => [blob_alert e] | Ret _ => [] end /\
  errors_logged (fst d) =
    match snd d with Throw e => [BlobError] | Ret _ => [] end /\
  (match snd d with Ret _ => clicks (fst d) <> [] | Throw _ => True end) /\
  (snd d = Ret tt <->
   exists ou, host_createObjectURL h blob = Ret ou /\
              host_click h ou (finalFilename_of blob fname) = Ret tt).
Proof.
  intros Hsize. rewrite _downloadBlob_deliver. unfold deliver. rewrite Hsize.
  destruct (host_createObjectURL h blob) as [ou|e].
  - destruct (host_click h ou (finalFilename_of blob fname)) as [[]|e] eqn:Hc;
      cbn [fst snd]; read_app;
      destruct (test_pdf_ext (finalFilename_of blob fname)); read_cons;
      repeat split; try reflexivity; try discriminate; try tauto;
      try (intros _; eexists; split; [reflexivity|exact Hc]);
      try (intros (ou' & [= <-] & Hc'); congruence).
  - cbn [fst snd]; read_app;
      destruct (test_pdf_ext (finalFilename_of blob fname)); read_cons;
      repeat split; try reflexivity; try discriminate; try tauto;
      intros (ou' & [=] & _).
Qed.

Lemma finalBlob_of_size (expectPdf : bool) (blob : Blob) :
  blob_size (finalBlob_of expectPdf blob) = blob_size blob.
Proof.
  unfold finalBlob_of. destruct expectPdf; [|reflexivity].
  by destruct (type_left_alone blob).
Qed.

(** One request, and what follows from each answer of the host. *)
Lemma settle_reads (failed : label) (pre : list event) (h : Host)
    (fname : jsstring) (expectPdf : bool) (u : jsstring) (init : FetchInit)
    (received : label) (finalized : bool) :
  forallb is_quiet pre = true ->
  let run := settle failed pre
               (fetch_and_deliver h fname expectPdf u init received finalized) in
  fetches (fst run) = [(u, init)] /\
  returns_boolean run /\
  match host_fetch h u init with
  | Throw e =>
      snd run = Ret false /\ caught (fst run) = [e] /\
      object_urls (fst run) = [] /\ clicks (fst run) = []
  | Ret r =>
      if response_ok r then
        match body r with
        | Throw e =>
            snd run = Ret false /\ caught (fst run) = [e] /\
            object_urls (fst run) = [] /\ clicks (fst run) = []
        | Ret blob =>
            if Nat.eqb (blob_size blob) 0 then
              snd run = Ret false /\
              caught (fst run) = [empty_file_error] /\
              alerts (fst run) = [failure_alert empty_file_error] /\
              object_urls (fst run) = [] /\
              clicks (fst run) = [] /\
              ~ In DownloadingBlob (log_labels (fst run))
            else
              warnings (fst run) = warnings (pdf_check expectPdf finalized blob) /\
              object_urls (fst run) = [finalBlob_of expectPdf blob] /\
              (snd run = Ret true <->
               exists ou,
                 host_createObjectURL h (finalBlob_of expectPdf blob) = Ret ou /\
                 host_click h ou
                   (finalFilename_of (finalBlob_of expectPdf blob) fname) = Ret tt)
        end
      else
        snd run = Ret false /\
        caught (fst run) = [http_error r] /\
        alerts (fst run) = [failure_alert (http_error r)] /\
        object_urls (fst run) = [] /\
        clicks (fst run) = []
  end.
Proof.
  intros Hq. unfold settle, fetch_and_deliver, fetch_failure, returns_boolean.
  destruct (host_fetch h u init) as [r|e].
  2: { cbn [fst snd]. read_app. read_quiet Hq. read_cons.
       repeat split; eauto. }
  destruct (response_ok r).
  2: { cbn [fst snd]. read_app. read_quiet Hq. read_cons.
       repeat split; eauto. }
  destruct (body r) as [blob|e].
  2: { cbn [fst snd]. read_app. read_quiet Hq. read_cons.
       repeat split; eauto. }
  destruct (Nat.eqb (blob_size blob) 0) eqn:Hsize.
  { cbn [fst snd]. read_app. read_quiet Hq. read_cons.
    repeat split; eauto.
    rewrite in_app_iff. cbn [In].
    intros [Hin|[[=]|[]]]. by apply (quiet_no_blob_log pre). }
  assert (Nat.eqb (blob_size (finalBlob_of expectPdf blob)) 0 = false) as Hsz
    by (by rewrite finalBlob_of_size).
  destruct (deliver_reads h (finalBlob_of expectPdf blob) fname Hsz)
    as (Hf & Hw & Ho & Hc & Ha & He & _ & Hres).
  destruct (_downloadBlob h (finalBlob_of expectPdf blob) fname)
    as [devs [[]|e]]; cbn [fst snd] in *.
  - read_app. read_quiet Hq.
    unfold fetches, warnings, object_urls, errors_logged in Hf, Hw, Ho, He.
    rewrite Hf, Hw, Ho, He.
    assert (omap fetch_of (pdf_check expectPdf finalized blob) = [] /\
            omap object_url_of (pdf_check expectPdf finalized blob) = [] /\
            omap error_label_of (pdf_check expectPdf finalized blob) = [])
      as (-> & -> & ->).
    { unfold pdf_check. destruct expectPdf; [|done].
      by destruct (startsWith _ _), finalized. }
    read_cons. rewrite ?app_nil_r.
    repeat split; eauto; try tauto;
      try (intros _; by apply Hres).
  - read_app. read_quiet Hq.
    unfold fetches, warnings, object_urls, errors_logged in Hf, Hw, Ho, He.
    rewrite Hf, Hw, Ho.
    assert (omap fetch_of (pdf_check expectPdf finalized blob) = [] /\
            omap object_url_of (pdf_check expectPdf finalized blob) = [])
      as (-> & ->).
    { unfold pdf_check. destruct expectPdf; [|done].
      by destruct (startsWith _ _), finalized. }
    read_cons. rewrite ?app_nil_r.
    repeat split; eauto; try discriminate;
      try (intros Hex; apply Hres in Hex; discriminate).
Qed.

(** *** The wrapper of [download] *)

Lemma truthy_js_or (a b : JsVal) :
  truthy (js_or a b) = truthy a || truthy b.
Proof. unfold js_or. by destruct (truthy a) eqn:E; rewrite ?E. Qed.

Lemma download_dispatch (h : Host) (f : PdfFile) :
  download h (Some f) = download_by h f (resolve_spec f).
Proof.
  unfold download, resolve_spec, download_by, dispatched.
  rewrite truthy_js_or.
  destruct (truthy (url f)).
  - destruct (_downloadFromUrl h f) as [evs [b|e]]; step_trace;
      by flatten_trace.
  - destruct (truthy (filename f) || truthy (fileId f)).
    + destruct (_downloadFromServer h f) as [evs [b|e]]; step_trace;
        by flatten_trace.
    + destruct (truthy (data f)); [|reflexivity].
      destruct (_downloadFromDataURL h f) as [evs [b|e]]; step_trace;
        by flatten_trace.
Qed.

Lemma dispatched_reads (method : label) (inner : BM bool) :
  is_quiet (EvLog method) = true ->
  let run := dispatched method inner in
  fetches (fst run) = fetches (fst inner) /\
  object_urls (fst run) = object_urls (fst inner) /\
  clicks (fst run) = clicks (fst inner) /\
  warnings (fst run) = warnings (fst inner) /\
  alerts (fst run) = alerts (fst inner) /\
  (forall b, snd inner = Ret b ->
     snd run = Ret b /\ caught (fst run) = caught (fst inner) /\
     errors_logged (fst run) = errors_logged (fst inner)) /\
  (In DownloadingBlob (log_labels (fst run)) ->
   In DownloadingBlob (log_labels (fst inner))).
Proof.
  intros Hm. unfold dispatched. cbn [fst snd]. read_app. read_cons.
  destruct (snd inner) as [b|e]; read_cons; rewrite ?app_nil_r.
  - repeat split; try reflexivity; try congruence.
    intros [H|[H|Hin]]; [discriminate H| |exact Hin].
    by subst method.
  - repeat split; try reflexivity; try discriminate.
    intros [H|[H|Hin]]; [discriminate H|by subst method|exact Hin].
Qed.

(** *** Every run of the fetching paths has the common course *)

Lemma fetch_run_remote (h : Host) (f : PdfFile) :
  fetch_run h f (_downloadFromUrl h f).
Proof.
  rewrite _downloadFromUrl_settle.
  destruct (getFilename (Some f)) as [fname|e] eqn:Hname;
    [|by apply run_no_fetch].
  destruct (expectPdf_of f fname) as [expectPdf|e] eqn:Hexp;
    [|by apply run_no_fetch].
  pose proof (cloudinary_fetch_url_quiet f) as Hq.
  destruct (cloudinary_fetch_url f) as [logs [u|e]]; cbn [fst snd] in *.
  - apply run_fetched; auto.
  - apply run_no_fetch. unfold settle, fetch_failure. cbn [fst snd].
    read_app. cbn [omap list_omap fetch_of].
    by rewrite (quiet_omap fetch_of logs (fun _ => eq_refl) Hq).
Qed.

Lemma fetch_run_legacy (h : Host) (f : PdfFile) :
  fetch_run h f (_downloadFromServer h f).
Proof.
  rewrite _downloadFromServer_settle.
  destruct (getFilename (Some f)) as [fname|e] eqn:Hname;
    [|by apply run_no_fetch].
  destruct (expectPdf_of f fname) as [expectPdf|e] eqn:Hexp;
    [|by apply run_no_fetch].
  apply run_fetched; auto.
Qed.

Lemma inline_run_no_fetch (h : Host) (f : PdfFile) :
  fetches (fst (_downloadFromDataURL h f)) = [].
Proof.
  unfold _downloadFromDataURL.
  destruct (getFilename (Some f)) as [fname|e]; step_trace; [|reflexivity].
  match goal with
  | |- context [host_click h ?a ?b] => destruct (host_click h a b) as [[]|e]
  end; reflexivity.
Qed.

Lemma fetch_run_download (h : Host) (f : PdfFile) :
  fetch_run h f (download h (Some f)).
Proof.
  rewrite download_dispatch. unfold download_by.
  destruct (resolve_spec f).
  - apply run_dispatched; [reflexivity|apply fetch_run_remote].
  - apply run_dispatched; [reflexivity|apply fetch_run_legacy].
  - apply run_dispatched; [reflexivity|].
    apply run_no_fetch, inline_run_no_fetch.
  - by apply run_no_fetch.
Qed.

Section RunProperties.
Context (h : Host) (f : PdfFile).

Lemma fetch_run_single_get (run : BM bool) :
  fetch_run h f run -> single_get (fst run).
Proof.
  unfold single_get.
  induction 1 as [run Hnone|failed pre fname ex u init received fin Hq _ _ Hinit
                 |method inner Hm _ IH].
  - rewrite Hnone. split; [simpl; lia|constructor].
  - destruct (settle_reads failed pre h fname ex u init received fin Hq)
      as (-> & _).
    split; [simpl; lia|].
    constructor; [|constructor]. by destruct Hinit as [-> | ->].
  - destruct (dispatched_reads method inner Hm) as (-> & _). exact IH.
Qed.

Lemma fetch_run_http_failure (run : BM bool) :
  fetch_run h f run -> http_failure_fails h run.
Proof.
  unfold http_failure_fails.
  induction 1 as [run Hnone|failed pre fname ex u init received fin Hq _ _ _
                 |method inner Hm _ IH]; intros u' init' r Hin Hf Hok.
  - rewrite Hnone in Hin. destruct Hin.
  - destruct (settle_reads failed pre h fname ex u init received fin Hq)
      as (Hfs & _ & Hrest).
    rewrite Hfs in Hin. destruct Hin as [[= <- <-]|[]].
    rewrite Hf, Hok in Hrest. tauto.
  - destruct (dispatched_reads method inner Hm)
      as (Hfs & Ho & Hc & _ & Ha & Hres & _).
    rewrite Hfs in Hin.
    destruct (IH u' init' r Hin Hf Hok) as (Hr & Hcg & Hal & Hmsg & Hob & Hcl).
    destruct (Hres false Hr) as (-> & -> & _).
    rewrite Ho, Hc, Ha. tauto.
Qed.

Lemma fetch_run_empty_body (run : BM bool) :
  fetch_run h f run -> empty_body_fails h run.
Proof.
  unfold empty_body_fails.
  induction 1 as [run Hnone|failed pre fname ex u init received fin Hq _ _ _
                 |method inner Hm _ IH]; intros u' init' r blob Hin Hf Hok Hb Hs.
  - rewrite Hnone in Hin. destruct Hin.
  - destruct (settle_reads failed pre h fname ex u init received fin Hq)
      as (Hfs & _ & Hrest).
    rewrite Hfs in Hin. destruct Hin as [[= <- <-]|[]].
    rewrite Hf, Hok, Hb, Hs in Hrest. exact Hrest.
  - destruct (dispatched_reads method inner Hm)
      as (Hfs & Ho & Hc & _ & Ha & Hres & Hlog).
    rewrite Hfs in Hin.
    destruct (IH u' init' r blob Hin Hf Hok Hb Hs)
      as (Hr & Hcg & Hal & Hob & Hcl & Hno).
    destruct (Hres false Hr) as (-> & -> & _).
    rewrite Ho, Hc, Ha. tauto.
Qed.

Lemma fetch_run_pdf_check (run : BM bool) :
  fetch_run h f run -> pdf_check_is_advisory h f run.
Proof.
  unfold pdf_check_is_advisory.
  induction 1 as [run Hnone|failed pre fname ex u init received fin Hq Hn He _
                 |method inner Hm _ IH];
    intros fname' u' init' r blob Hname Hexp Hin Hf Hok Hb Hs.
  - rewrite Hnone in Hin. destruct Hin.
  - destruct (settle_reads failed pre h fname ex u init received fin Hq)
      as (Hfs & _ & Hrest).
    rewrite Hfs in Hin. destruct Hin as [[= <- <-]|[]].
    rewrite Hname in Hn. injection Hn as <-.
    rewrite Hexp in He. injection He as <-.
    apply Nat.eqb_neq in Hs.
    rewrite Hf, Hok, Hb, Hs in Hrest.
    unfold finalBlob_of, pdf_check in Hrest.
    destruct Hrest as (Hw & Ho & Hres).
    split; [|split; [exact Ho|exact Hres]].
    rewrite Hw. by destruct (startsWith _ _), fin.
  - destruct (dispatched_reads method inner Hm)
      as (Hfs & Ho & _ & Hw & _ & Hres & _).
    rewrite Hfs in Hin.
    destruct (IH fname' u' init' r blob Hname Hexp Hin Hf Hok Hb Hs)
      as (Hwi & Hoi & Hri).
    rewrite Hw, Ho. split; [exact Hwi|]. split; [exact Hoi|].
    rewrite <- Hri. unfold dispatched. cbn [snd].
    destruct (snd inner) as [[]|e]; split; congruence.
Qed.

End RunProperties.

(** *** The entry points *)

Lemma settle_no_url_returns (failed : label) (pre : list event) (e : JsError) :
  returns_boolean (settle failed pre ([], Throw e)).
Proof.
  unfold returns_boolean, settle. cbn [fst snd]. split; eauto.
Qed.

Lemma remote_returns_or_throws (h : Host) (f : PdfFile) :
  (exists e, _downloadFromUrl h f = ([], Throw e)) \/
  returns_boolean (_downloadFromUrl h f).
Proof.
  rewrite _downloadFromUrl_settle.
  destruct (getFilename (Some f)) as [fname|e]; [|eauto].
  destruct (expectPdf_of f fname) as [expectPdf|e]; [|eauto].
  right.
  pose proof (cloudinary_fetch_url_quiet f) as Hq.
  destruct (cloudinary_fetch_url f) as [logs [u|e]]; cbn [fst snd] in *.
  - by apply settle_reads.
  - apply settle_no_url_returns.
Qed.

Lemma legacy_returns_or_throws (h : Host) (f : PdfFile) :
  (exists e, _downloadFromServer h f = ([], Throw e)) \/
  returns_boolean (_downloadFromServer h f).
Proof.
  rewrite _downloadFromServer_settle.
  destruct (getFilename (Some f)) as [fname|e]; [|eauto].
  destruct (expectPdf_of f fname) as [expectPdf|e]; [|eauto].
  right. by apply settle_reads.
Qed.

Lemma inline_returns (h : Host) (f : PdfFile) :
  returns_boolean (_downloadFromDataURL h f).
Proof.
  unfold returns_boolean, _downloadFromDataURL.
  destruct (getFilename (Some f)) as [fname|e]; step_trace;
    [|split; eauto].
  match goal with
  | |- context [host_click h ?a ?b] => destruct (host_click h a b) as [[]|e]
  end; cbn [fst snd]; split; eauto.
  intros Hne. by destruct Hne.
Qed.

Lemma dispatched_returns (method : label) (inner : BM bool) :
  (exists e, inner = ([], Throw e)) \/ returns_boolean inner ->
  returns_boolean (dispatched method inner).
Proof.
  unfold returns_boolean, dispatched.
  intros [[e ->]|[[b Hb] Hfalse]]; cbn [fst snd]; [split; eauto|].
  rewrite Hb in *. split; [eauto|].
  unfold errors_logged in *. rewrite app_nil_r.
  cbn [omap list_omap error_label_of app]. exact Hfalse.
Qed.

Lemma download_returns (h : Host) (pdfFile : option PdfFile) :
  returns_boolean (download h pdfFile).
Proof.
  destruct pdfFile as [f|]; [|unfold returns_boolean; cbn; split; eauto].
  rewrite download_dispatch. unfold download_by.
  destruct (resolve_spec f).
  - apply dispatched_returns, remote_returns_or_throws.
  - apply dispatched_returns, legacy_returns_or_throws.
  - apply dispatched_returns. right. apply inline_returns.
  - unfold returns_boolean. cbn. split; eauto.
Qed.

Lemma view_returns (h : Host) (pdfFile : option PdfFile) :
  returns_boolean (view h pdfFile).
Proof.
  unfold returns_boolean.
  destruct pdfFile as [f|]; [|cbn; split; eauto].
  unfold view.
  destruct (truthy (url f)); [|destruct (truthy (js_or (filename f) (fileId f)));
                               [|destruct (truthy (data f))]];
    step_trace;
    try match goal with
        | |- context [host_open h ?a] => destruct (host_open h a) as [[]|e]
        end;
    cbn [fst snd]; (split; [eauto|]);
    unfold errors_logged; cbn [omap list_omap error_label_of app];
    first [reflexivity | intros Hne; by destruct Hne].
Qed.

Lemma print_returns (h : Host) (pdfFile : option PdfFile) :
  returns_boolean (print h pdfFile).
Proof.
  unfold returns_boolean.
  destruct pdfFile as [f|]; [|cbn; split; eauto].
  unfold print.
  destruct (truthy (url f)); [|destruct (truthy (js_or (filename f) (fileId f)));
                               [|destruct (truthy (data f))]];
    step_trace;
    try match goal with
        | |- context [host_open h ?a] => destruct (host_open h a) as [[]|e]
        end;
    cbn [fst snd]; (split; [eauto|]);
    unfold errors_logged; cbn [omap list_omap error_label_of app];
    first [reflexivity | intros Hne; by destruct Hne].
Qed.

Lemma invalid_descriptor_resolve (f : PdfFile) :
  isValid (Some f) = false -> resolve_spec f = Invalid.
Proof.
  unfold isValid, resolve_spec. rewrite !truthy_js_or.
  destruct (truthy (url f)), (truthy (filename f)), (truthy (fileId f)),
    (truthy (data f)); cbn; congruence.
Qed.

(** For every host and every argument, [download], [view] and [print]
    return a boolean and throw nothing; each returns [false] whenever it
    wrote an error to the console, that is on every path through a guard or a
    catch block; and for a null or undefined argument and for a descriptor
    with none of url, filename, fileId and data, all three return [false]. *)
Theorem entry_points_return_boolean (h : Host) (pdfFile : option PdfFile) :
  returns_boolean (download h pdfFile) /\
  returns_boolean (view h pdfFile) /\
  returns_boolean (print h pdfFile) /\
  if isValid pdfFile then True
  else snd (download h pdfFile) = Ret false /\
       snd (view h pdfFile) = Ret false /\
       snd (print h pdfFile) = Ret false.
Proof.
  split; [apply download_returns|].
  split; [apply view_returns|].
  split; [apply print_returns|].
  destruct (isValid pdfFile) eqn:Hv; [exact I|].
  destruct pdfFile as [f|]; [|by repeat split].
  split.
  - rewrite download_dispatch, (invalid_descriptor_resolve f Hv). reflexivity.
  - revert Hv. unfold isValid, view, print. rewrite !truthy_js_or.
    destruct (truthy (url f)), (truthy (filename f)), (truthy (fileId f)),
      (truthy (data f)); cbn; try discriminate. by split.
Qed.

(** *** The handler on sample descriptors *)

Example getFilename_samples :
  getFilename None = Ret (str "document") /\
  getFilename (Some (descriptor VUndef VUndef VUndef (VStr (str "  report "))
                       (VStr (str "application/pdf")))) = Ret (str "report.pdf") /\
  getFilename (Some (descriptor (VStr (str "scan.jpeg")) VUndef VUndef VUndef VUndef)) =
    Ret (str "scan.jpeg") /\
  getFilename (Some (descriptor VUndef VUndef VUndef (VStr (str "photo"))
                       (VStr (str "IMAGE/JPEG")))) = Ret (str "photo.jpg") /\
  getFilename (Some (descriptor VUndef VUndef VUndef VUndef VUndef)) =
    Ret (str "document") /\
  getFilename (Some (descriptor (VBool true) VUndef VUndef VUndef VUndef)) =
    Throw (TypeError "trim").
Proof. repeat split. Qed.

Example cloudinary_fetch_url_samples :
  cloudinary_fetch_url
    (descriptor VUndef VUndef
       (VStr (str "https://res.cloudinary.com/demo/image/upload/v1/x/notice.pdf"))
       VUndef VUndef) =
    ([EvLog ConvertedToRaw],
     Ret (str "https://res.cloudinary.com/demo/raw/upload/v1/x/notice.pdf?fl_attachment")) /\
  cloudinary_fetch_url
    (mkPdfFile VUndef VUndef
       (VStr (str "https://res.cloudinary.com/demo/video/upload/v1/x/notice.pdf"))
       (VStr (str "x/notice.PDF")) VUndef VUndef VUndef VUndef) =
    ([EvLog UsingPublicId],
     Ret (str "https://res.cloudinary.com/demo/raw/upload/x/notice?fl_attachment")) /\
  cloudinary_fetch_url
    (descriptor VUndef VUndef
       (VStr (str "https://res.cloudinary.com/demo/raw/upload/a.pdf?x=1"))
       VUndef VUndef) =
    ([], Ret (str "https://res.cloudinary.com/demo/raw/upload/a.pdf?x=1&fl_attachment")) /\
  cloudinary_fetch_url
    (descriptor VUndef VUndef (VStr (str "https://cdn.example.org/a.pdf"))
       VUndef VUndef) =
    ([], Ret (str "https://cdn.example.org/a.pdf")) /\
  cloudinary_fetch_url (descriptor VUndef VUndef (VBool true) VUndef VUndef) =
    ([], Throw (TypeError "includes")).
Proof. repeat split. Qed.

(** A whole download of a notice PDF from the store. *)
Example download_notice_trace :
  download (host_answering 200 (mkBlob application_pdf pdf_bytes))
    (Some remote_descriptor) =
  ([EvLog DownloadAttempt; EvLog UsingCloudinary; EvLog FetchingCloudinary;
    EvFetch notice_fetch_url cloudinary_init; EvLog ContentType;
    EvLog BlobReceived; EvLog HeaderValidated; EvLog BlobFinalized;
    EvLog DownloadingBlob; EvReadHeader (str "%PDF");
    EvCreateObjectURL (mkBlob application_pdf pdf_bytes);
    EvAnchorClick (str "blob:https://example.org/1") (str "notice.pdf");
    EvLog DownloadTriggered; EvSetTimeout 1000],
   Ret true).
Proof. vm_compute. reflexivity. Qed.

(** ** The claims about the read path *)

(** C2. [download] resolves a descriptor in the order of the specification:
    the remote strategy whenever url is present (set and truthy), whatever
    the legacy and inline fields hold; otherwise the legacy strategy when
    filename or fileId is present; otherwise the inline strategy when data is
    present; and with none of them the resolution fails: [download] logs the
    invalid format, calls nothing else and returns [false]. *)
Theorem download_resolution_order (h : Host) (f : PdfFile) :
  download h (Some f) = download_by h f (resolve_spec f) /\
  (if truthy (url f) then
     download h (Some f) = dispatched UsingCloudinary (_downloadFromUrl h f)
   else if truthy (filename f) || truthy (fileId f) then
     download h (Some f) = dispatched UsingServer (_downloadFromServer h f)
   else if truthy (data f) then
     download h (Some f) = dispatched UsingDataUrl (_downloadFromDataURL h f)
   else
     download h (Some f) =
       ([EvLog DownloadAttempt; EvErrorLog InvalidFormat None], Ret false)).
Proof.
  split; [apply download_dispatch|].
  rewrite download_dispatch. unfold resolve_spec.
  destruct (truthy (url f)); [reflexivity|].
  destruct (truthy (filename f) || truthy (fileId f)); [reflexivity|].
  destruct (truthy (data f)); reflexivity.
Qed.

(** A descriptor migrated to the remote format that kept its legacy fields
    and an inline copy: the remote URL is the one that is fetched. *)
Example stale_legacy_fields_are_ignored :
  let f := mkPdfFile (VStr (str "old.pdf")) (VStr (str "123"))
             (VStr (str "https://cdn.example.org/notice.pdf")) VUndef
             (VStr (str "notice.pdf")) (VStr (str "data:application/pdf;base64,AAAA"))
             VUndef VUndef in
  resolve_spec f = Remote /\
  fetches (fst (download (host_answering 200 (mkBlob application_pdf pdf_bytes))
                  (Some f))) =
    [(str "https://cdn.example.org/notice.pdf", cloudinary_init)].
Proof. split; vm_compute; reflexivity. Qed.

(** The legacy descriptor of the scenario: the legacy strategy is selected,
    and the URL that is built ends in the file name, not in the file id. *)
Lemma legacy_descriptor_url_has_file_name :
  resolve_spec legacy_descriptor = Legacy /\
  fetches (fst (download (host_answering 200 (mkBlob application_pdf pdf_bytes))
                  (Some legacy_descriptor))) =
    [(str "https://jamalpur-chamber-backend-b61d.onrender.com/api/files/old.pdf",
      server_init)] /\
  legacy_url (host_answering 200 (mkBlob application_pdf pdf_bytes))
    legacy_descriptor <>
  api_base (host_answering 200 (mkBlob application_pdf pdf_bytes)) ++
  str "/files/123".
Proof.
  split; [reflexivity|]. split; [vm_compute; reflexivity|].
  vm_compute. discriminate.
Qed.

(** C4 (amended). For the descriptor with filename old.pdf and fileId 123
    and no url, on every host: the legacy strategy is selected and the
    retrieval URL is the base followed by /files/old.pdf, in [download] (the
    one request it sends) as in [view] and [print] (the one window they
    open); the file name takes precedence over the file id, which is used
    when there is no file name. *)
Theorem legacy_url_prefers_file_name (h : Host) :
  resolve_spec legacy_descriptor = Legacy /\
  legacy_url h legacy_descriptor = api_base h ++ str "/files/old.pdf" /\
  fetches (fst (download h (Some legacy_descriptor))) =
    [(api_base h ++ str "/files/old.pdf", server_init)] /\
  opened (fst (view h (Some legacy_descriptor))) =
    [api_base h ++ str "/files/old.pdf"] /\
  opened (fst (print h (Some legacy_descriptor))) =
    [api_base h ++ str "/files/old.pdf"] /\
  legacy_url h id_only_descriptor = api_base h ++ str "/files/123".
Proof.
  split; [reflexivity|]. split; [reflexivity|].
  split; [|split; [|split; [|reflexivity]]].
  - rewrite download_dispatch.
    change (resolve_spec legacy_descriptor) with Legacy. unfold download_by.
    destruct (dispatched_reads UsingServer
                (_downloadFromServer h legacy_descriptor) eq_refl) as (-> & _).
    rewrite _downloadFromServer_settle.
    change (getFilename (Some legacy_descriptor)) with (Ret (str "old.pdf")).
    cbv beta iota.
    change (expectPdf_of legacy_descriptor (str "old.pdf")) with (Ret true).
    cbv beta iota.
    by destruct (settle_reads ServerFailed [EvLog FetchingServer] h
                   (str "old.pdf") true (legacy_url h legacy_descriptor)
                   server_init ServerBlobReceived false eq_refl) as (-> & _).
  - unfold view. change (truthy (url legacy_descriptor)) with false.
    change (truthy (js_or (filename legacy_descriptor)
                      (fileId legacy_descriptor))) with true.
    cbv beta iota. step_trace.
    by destruct (host_open h (legacy_url h legacy_descriptor)) as [[]|e].
  - unfold print. change (truthy (url legacy_descriptor)) with false.
    change (truthy (js_or (filename legacy_descriptor)
                      (fileId legacy_descriptor))) with true.
    cbv beta iota. step_trace.
    by destruct (host_open h (legacy_url h legacy_descriptor)) as [[]|e].
Qed.

Lemma legacy_sends_one_request (h : Host) (f : PdfFile) (fname : jsstring)
    (expectPdf : bool) :
  getFilename (Some f) = Ret fname ->
  expectPdf_of f fname = Ret expectPdf ->
  fetches (fst (_downloadFromServer h f)) = [(legacy_url h f, server_init)].
Proof.
  intros Hname Hexp. rewrite _downloadFromServer_settle, Hname, Hexp.
  by destruct (settle_reads ServerFailed [EvLog FetchingServer] h fname
                 expectPdf (legacy_url h f) server_init ServerBlobReceived
                 false eq_refl) as (-> & _).
Qed.

Lemma remote_sends_one_request (h : Host) (f : PdfFile) (fname u : jsstring)
    (expectPdf : bool) :
  getFilename (Some f) = Ret fname ->
  expectPdf_of f fname = Ret expectPdf ->
  snd (cloudinary_fetch_url f) = Ret u ->
  fetches (fst (_downloadFromUrl h f)) = [(u, cloudinary_init)].
Proof.
  intros Hname Hexp Hu. rewrite _downloadFromUrl_settle, Hname, Hexp, Hu.
  pose proof (cloudinary_fetch_url_quiet f) as Hq.
  by destruct (settle_reads CloudinaryFailed
                 (EvLog FetchingCloudinary :: fst (cloudinary_fetch_url f))
                 h fname expectPdf u cloudinary_init BlobReceived true Hq)
    as (-> & _).
Qed.

(** C7. Every run of the remote and of the legacy path, alone or through
    [download], sends at most one request, a GET with credentials omitted,
    so nothing is retried; it sends exactly one, to the URL it computed,
    unless a string method failed on a field that is not a string before it
    could.  When the answer has a status outside 200-299, the run fails: it
    returns [false], the error it reports and shows carries the status code,
    no object URL is created and no anchor is clicked. *)
Theorem single_get_and_http_failure (h : Host) (f : PdfFile) :
  (single_get (fst (_downloadFromUrl h f)) /\
   http_failure_fails h (_downloadFromUrl h f)) /\
  (single_get (fst (_downloadFromServer h f)) /\
   http_failure_fails h (_downloadFromServer h f)) /\
  (single_get (fst (download h (Some f))) /\
   http_failure_fails h (download h (Some f))) /\
  match getFilename (Some f) with
  | Throw _ => True
  | Ret fname =>
      match expectPdf_of f fname with
      | Throw _ => True
      | Ret _ =>
          fetches (fst (_downloadFromServer h f)) =
            [(legacy_url h f, server_init)] /\
          match snd (cloudinary_fetch_url f) with
          | Throw _ => True
          | Ret u => fetches (fst (_downloadFromUrl h f)) = [(u, cloudinary_init)]
          end
      end
  end.
Proof.
  assert (forall run, fetch_run h f run ->
            single_get (fst run) /\ http_failure_fails h run) as Hrun.
  { intros run Hr. split.
    - by apply (fetch_run_single_get h f).
    - by apply (fetch_run_http_failure h f). }
  split; [apply Hrun, fetch_run_remote|].
  split; [apply Hrun, fetch_run_legacy|].
  split; [apply Hrun, fetch_run_download|].
  destruct (getFilename (Some f)) as [fname|e] eqn:Hname; [|exact I].
  destruct (expectPdf_of f fname) as [expectPdf|e] eqn:Hexp; [|exact I].
  split; [by apply (legacy_sends_one_request h f fname expectPdf)|].
  destruct (snd (cloudinary_fetch_url f)) as [u|e] eqn:Hu; [|exact I].
  by apply (remote_sends_one_request h f fname u expectPdf).
Qed.

(** The scenario of the specification: the store answers 404. *)
Lemma single_get_and_http_failure_witness :
  In (old_pdf_url, server_init)
    (fetches (fst (download not_found_host (Some legacy_descriptor)))) /\
  host_fetch not_found_host old_pdf_url server_init = Ret not_found_response /\
  response_ok not_found_response = false /\
  snd (download not_found_host (Some legacy_descriptor)) = Ret false /\
  caught (fst (download not_found_host (Some legacy_descriptor))) =
    [Error (str "HTTP error! status: 404")] /\
  object_urls (fst (download not_found_host (Some legacy_descriptor))) = [] /\
  clicks (fst (download not_found_host (Some legacy_descriptor))) = [].
Proof.
  assert (In (old_pdf_url, server_init)
            (fetches (fst (download not_found_host (Some legacy_descriptor)))))
    as Hin by (vm_compute; left; reflexivity).
  assert (host_fetch not_found_host old_pdf_url server_init =
          Ret not_found_response) as Hf by reflexivity.
  assert (response_ok not_found_response = false) as Hok by reflexivity.
  split; [exact Hin|]. split; [exact Hf|]. split; [exact Hok|].
  destruct (proj2 (proj1 (proj2 (proj2
              (single_get_and_http_failure not_found_host legacy_descriptor))))
              old_pdf_url server_init not_found_response Hin Hf Hok)
    as (Hres & Hcaught & _ & _ & Hurls & Hclicks).
  split; [exact Hres|]. split; [exact Hcaught|].
  split; [exact Hurls|exact Hclicks].
Defined.

(** C8. Every run of the remote and of the legacy path, alone or through
    [download], in which the request succeeds with a body of length zero
    fails with the empty-file error: it returns [false], and the payload
    never reaches the delivery step, as no step of [_downloadBlob] is in the
    trace. *)
Theorem empty_body_never_delivered (h : Host) (f : PdfFile) :
  empty_body_fails h (_downloadFromUrl h f) /\
  empty_body_fails h (_downloadFromServer h f) /\
  empty_body_fails h (download h (Some f)).
Proof.
  split; [apply (fetch_run_empty_body h f), fetch_run_remote|].
  split; [apply (fetch_run_empty_body h f), fetch_run_legacy|].
  apply (fetch_run_empty_body h f), fetch_run_download.
Qed.

Lemma empty_body_never_delivered_witness :
  In (notice_fetch_url, cloudinary_init)
    (fetches (fst (download empty_host (Some remote_descriptor)))) /\
  host_fetch empty_host notice_fetch_url cloudinary_init = Ret empty_response /\
  response_ok empty_response = true /\
  body empty_response = Ret empty_blob /\
  blob_size empty_blob = 0 /\
  snd (download empty_host (Some remote_descriptor)) = Ret false /\
  caught (fst (download empty_host (Some remote_descriptor))) =
    [empty_file_error] /\
  object_urls (fst (download empty_host (Some remote_descriptor))) = [] /\
  ~ In DownloadingBlob
      (log_labels (fst (download empty_host (Some remote_descriptor)))).
Proof.
  assert (In (notice_fetch_url, cloudinary_init)
            (fetches (fst (download empty_host (Some remote_descriptor)))))
    as Hin by (vm_compute; left; reflexivity).
  assert (host_fetch empty_host notice_fetch_url cloudinary_init =
          Ret empty_response) as Hf by reflexivity.
  assert (response_ok empty_response = true) as Hok by reflexivity.
  assert (body empty_response = Ret empty_blob) as Hb by reflexivity.
  assert (blob_size empty_blob = 0) as Hs by reflexivity.
  split; [exact Hin|]. split; [exact Hf|]. split; [exact Hok|].
  split; [exact Hb|]. split; [exact Hs|].
  destruct (proj2 (proj2 (empty_body_never_delivered empty_host remote_descriptor))
              notice_fetch_url cloudinary_init empty_response empty_blob
              Hin Hf Hok Hb Hs)
    as (Hres & Hcaught & _ & Hurls & _ & Hno).
  split; [exact Hres|]. split; [exact Hcaught|].
  split; [exact Hurls|exact Hno].
Defined.

Lemma type_left_alone_spec (b : Blob) :
  type_left_alone b = true <->
  blob_type b = application_pdf \/ blob_type b = octet_stream \/ blob_type b = [].
Proof.
  unfold type_left_alone.
  rewrite !orb_true_iff, !bool_decide_eq_true.
  destruct (blob_type b); split; intros H; try tauto.
  - destruct H as [[H|H]|H]; auto; discriminate.
  - destruct H as [H|[H|H]]; auto. discriminate.
Qed.

(** A PDF is expected and the store reports the generic type
    application/octet-stream: the payload is delivered with that type, it is
    not given the type application/pdf.  A payload reported as text/html is
    given the type application/pdf. *)
Lemma generic_type_is_left_alone :
  expectPdf_of remote_descriptor (str "notice.pdf") = Ret true /\
  object_urls
    (fst (download (host_answering 200 (mkBlob octet_stream pdf_bytes))
            (Some remote_descriptor))) = [mkBlob octet_stream pdf_bytes] /\
  blob_type (mkBlob octet_stream pdf_bytes) <> application_pdf /\
  object_urls
    (fst (download (host_answering 200 (mkBlob (str "text/html") html_bytes))
            (Some remote_descriptor))) = [mkBlob application_pdf html_bytes] /\
  warnings
    (fst (download (host_answering 200 (mkBlob (str "text/html") html_bytes))
            (Some remote_descriptor))) = [(MaybeNotPdf, str "<htm")] /\
  snd (download (host_answering 200 (mkBlob (str "text/html") html_bytes))
         (Some remote_descriptor)) = Ret true.
Proof.
  split; [reflexivity|]. split; [vm_compute; reflexivity|].
  split; [vm_compute; discriminate|].
  repeat split; vm_compute; reflexivity.
Qed.

(** C5 (amended). On the remote and on the legacy path, alone or through
    [download], when a PDF is expected and the body is not empty: a
    signature other than the PDF signature only writes a warning, and the
    payload goes to the delivery step all the same; the run returns [true]
    exactly when the host creates the object URL and clicks the anchor.  The
    payload keeps the bytes; its MIME type is set to application/pdf exactly
    when the reported type is none of application/pdf,
    application/octet-stream and the empty string, and is left as reported
    for those three. *)
Theorem pdf_check_warns_and_delivers (h : Host) (f : PdfFile) :
  pdf_check_is_advisory h f (_downloadFromUrl h f) /\
  pdf_check_is_advisory h f (_downloadFromServer h f) /\
  pdf_check_is_advisory h f (download h (Some f)) /\
  forall blob : Blob,
    blob_bytes (finalBlob_of true blob) = blob_bytes blob /\
    finalBlob_of true blob =
      (if type_left_alone blob then blob else as_pdf_blob blob) /\
    blob_type (finalBlob_of true blob) =
      (if type_left_alone blob then blob_type blob else application_pdf) /\
    (type_left_alone blob = true <->
     blob_type blob = application_pdf \/ blob_type blob = octet_stream \/
     blob_type blob = []).
Proof.
  split; [apply fetch_run_pdf_check, fetch_run_remote|].
  split; [apply fetch_run_pdf_check, fetch_run_legacy|].
  split; [apply fetch_run_pdf_check, fetch_run_download|].
  intros blob. unfold finalBlob_of.
  split; [by destruct (type_left_alone blob)|].
  split; [reflexivity|].
  split; [by destruct (type_left_alone blob)|].
  apply type_left_alone_spec.
Qed.

Lemma pdf_check_warns_and_delivers_witness :
  getFilename (Some remote_descriptor) = Ret (str "notice.pdf") /\
  expectPdf_of remote_descriptor (str "notice.pdf") = Ret true /\
  In (notice_fetch_url, cloudinary_init)
    (fetches (fst (_downloadFromUrl html_host remote_descriptor))) /\
  host_fetch html_host notice_fetch_url cloudinary_init = Ret html_response /\
  response_ok html_response = true /\
  body html_response = Ret html_blob /\
  blob_size html_blob <> 0 /\
  warnings (fst (_downloadFromUrl html_host remote_descriptor)) =
    [(MaybeNotPdf, str "<htm")] /\
  object_urls (fst (_downloadFromUrl html_host remote_descriptor)) =
    [mkBlob application_pdf html_bytes].
Proof.
  assert (getFilename (Some remote_descriptor) = Ret (str "notice.pdf"))
    as Hname by reflexivity.
  assert (expectPdf_of remote_descriptor (str "notice.pdf") = Ret true)
    as Hexp by reflexivity.
  assert (In (notice_fetch_url, cloudinary_init)
            (fetches (fst (_downloadFromUrl html_host remote_descriptor))))
    as Hin by (vm_compute; left; reflexivity).
  assert (host_fetch html_host notice_fetch_url cloudinary_init =
          Ret html_response) as Hf by reflexivity.
  assert (response_ok html_response = true) as Hok by reflexivity.
  assert (body html_response = Ret html_blob) as Hb by reflexivity.
  assert (blob_size html_blob <> 0) as Hs by (vm_compute; discriminate).
  split; [exact Hname|]. split; [exact Hexp|]. split; [exact Hin|].
  split; [exact Hf|]. split; [exact Hok|]. split; [exact Hb|].
  split; [exact Hs|].
  destruct (proj1 (pdf_check_warns_and_delivers html_host remote_descriptor)
              (str "notice.pdf") notice_fetch_url cloudinary_init html_response
              html_blob Hname Hexp Hin Hf Hok Hb Hs)
    as (Hw & Ho & _).
  split; [exact Hw|exact Ho].
Defined.

(* ===================================================================== *)
(** * Part III. Further properties of the code                            *)
(* ===================================================================== *)

(** ** More on strings *)

Lemma startsWith_refl (p : jsstring) : startsWith p p = true.
Proof.
  induction p as [|c p IH]; simpl; [reflexivity|].
  rewrite IH. unfold chr_eqb. by rewrite Ascii.eqb_refl.
Qed.

Lemma startsWith_app_l (s t p : jsstring) :
  startsWith s p = true -> startsWith (s ++ t) p = true.
Proof.
  revert s. induction p as [|q p IH]; intros s; [by destruct s, t|].
  destruct s as [|c s]; simpl; [discriminate|].
  intros [-> H]%andb_true_iff. simpl. by apply IH.
Qed.

Lemma startsWith_app_self (p t : jsstring) : startsWith (p ++ t) p = true.
Proof. apply startsWith_app_l, startsWith_refl. Qed.

Lemma startsWith_includes (s p : jsstring) :
  startsWith s p = true -> includes s p = true.
Proof. intros H. destruct s; cbn [includes]; by rewrite H. Qed.

Lemma includes_app_l (s t p : jsstring) :
  includes s p = true -> includes (s ++ t) p = true.
Proof.
  induction s as [|c s IH]; cbn [includes app].
  - rewrite orb_false_r. intros H.
    destruct p; [|discriminate].
    destruct t; reflexivity.
  - intros [H|H]%orb_true_iff.
    + change (c :: s ++ t) with ((c :: s) ++ t).
      by rewrite (startsWith_app_l _ t _ H).
    + rewrite (IH H). apply orb_true_r.
Qed.

Lemma includes_app_r (s p : jsstring) : includes (s ++ p) p = true.
Proof.
  induction s as [|c s IH]; cbn [app].
  - apply startsWith_includes, startsWith_refl.
  - cbn [includes]. rewrite IH. apply orb_true_r.
Qed.

Lemma includes_replace (s pat rep : jsstring) :
  includes s pat = true -> includes (replace s pat rep) rep = true.
Proof.
  induction s as [|c s IH]; cbn [includes replace].
  - destruct (startsWith [] pat); [|discriminate].
    intros _. apply startsWith_includes, startsWith_app_self.
  - destruct (startsWith (c :: s) pat).
    + intros _. apply startsWith_includes, startsWith_app_self.
    + cbn [orb]. intros H. cbn [includes]. rewrite (IH H). apply orb_true_r.
Qed.

Lemma includes_occurs_once (s pat : jsstring) :
  occurrences s pat = 1 -> includes s pat = true.
Proof. intros H. by rewrite includes_occurrences, H. Qed.

Lemma trimEnd_app (s ext : jsstring) :
  ext <> [] -> trimEnd ext = ext -> trimEnd (s ++ ext) = s ++ ext.
Proof.
  intros Hne Hext. induction s as [|c s IH]; cbn [app]; [exact Hext|].
  cbn [trimEnd]. rewrite IH.
  destruct (s ++ ext) eqn:E; [|reflexivity].
  apply app_eq_nil in E as [_ E]. contradiction.
Qed.

Lemma trim_starts_clean (s : jsstring) : starts_clean (trim s).
Proof. apply trimEnd_starts_clean, trimStart_starts_clean. Qed.

Lemma trim_app_ext (base ext : jsstring) :
  trim base = base -> ext <> [] -> trim ext = ext ->
  trim (base ++ ext) = base ++ ext.
Proof.
  intros Hb Hne He. unfold trim.
  assert (starts_clean (base ++ ext)) as Hc.
  { destruct base as [|c b]; cbn [app].
    - rewrite <- He. apply trim_starts_clean.
    - pose proof (trim_starts_clean (c :: b)) as H. by rewrite Hb in H. }
  rewrite (trimStart_fixed _ Hc). apply trimEnd_app; [exact Hne|].
  assert (starts_clean ext) as Hce by (rewrite <- He; apply trim_starts_clean).
  unfold trim in He. by rewrite (trimStart_fixed _ Hce) in He.
Qed.

(** The extensions that [ext_of_mime] can give. *)
Lemma ext_of_mime_cases (mime : jsstring) :
  ext_of_mime mime = [] \/ ext_of_mime mime = str ".pdf" \/
  ext_of_mime mime = str ".jpg" \/ ext_of_mime mime = str ".png" \/
  ext_of_mime mime = str ".gif".
Proof.
  unfold ext_of_mime.
  destruct (includes mime (str "pdf")); [tauto|].
  destruct (includes mime (str "jpeg") || includes mime (str "jpg")); [tauto|].
  destruct (includes mime (str "png")); [tauto|].
  destruct (includes mime (str "gif")); tauto.
Qed.

(** A name with one of the inferred extensions appended passes the test for
    an extension, is trimmed where the name was, and is legal where the name
    was. *)
Lemma inferred_ext_facts (base mime : jsstring) :
  ext_of_mime mime <> [] ->
  test_has_extension (base ++ ext_of_mime mime) = true /\
  (trim base = base -> trim (base ++ ext_of_mime mime) = base ++ ext_of_mime mime) /\
  (legal base -> legal (base ++ ext_of_mime mime)).
Proof.
  intros Hne.
  destruct (ext_of_mime_cases mime) as [H|[H|[H|[H|H]]]]; rewrite H in *;
    try contradiction;
    (split; [unfold test_has_extension; rewrite rev_app_distr; reflexivity|]);
    (split; [intros Hb; by apply trim_app_ext|]);
    intros Hl; apply Forall_app; (split; [exact Hl|]);
    repeat constructor.
Qed.

Lemma sanitizeFilename_facts (fallback fname : jsstring) :
  fallback <> [] -> legal fallback -> trim fallback = fallback ->
  sanitizeFilename fallback fname <> [] /\
  legal (sanitizeFilename fallback fname) /\
  trim (sanitizeFilename fallback fname) = sanitizeFilename fallback fname.
Proof.
  intros Hne Hl Ht. unfold sanitizeFilename.
  destruct (trim (replace_illegal fname)) as [|a r] eqn:E; [by repeat split|].
  split; [discriminate|]. split.
  - rewrite <- E. apply trim_Forall, replace_illegal_legal.
  - rewrite <- E. apply trim_idempotent.
Qed.

Lemma document_facts :
  str "document" <> [] /\ legal (str "document") /\
  trim (str "document") = str "document".
Proof. split; [discriminate|]. split; [repeat constructor|reflexivity]. Qed.

Lemma document_pdf_facts :
  str "document.pdf" <> [] /\ legal (str "document.pdf") /\
  trim (str "document.pdf") = str "document.pdf".
Proof. split; [discriminate|]. split; [repeat constructor|reflexivity]. Qed.

(** ** Names: [getFilename], the sanitizing step and the download names *)

(** X1. Whatever the descriptor holds, a name returned by [getFilename] is
    not empty and has no white space at either end. *)
Theorem getFilename_nonempty_trimmed (pdfFile : option PdfFile) (s : jsstring) :
  getFilename pdfFile = Ret s -> s <> [] /\ trim s = s.
Proof.
  destruct pdfFile as [f|]; cbn [getFilename].
  2: { intros [= <-]. split; [discriminate|reflexivity]. }
  destruct (as_string "trim" _) as [base0|e]; cbn [obind]; [|discriminate].
  destruct (test_has_extension (trim base0)) eqn:Hext.
  - intros [= <-]. split; [|apply trim_idempotent].
    intros Hnil. rewrite Hnil in Hext. discriminate.
  - destruct (as_string "toLowerCase" _) as [mime0|e]; cbn [obind];
      [|discriminate].
    destruct (trim base0 ++ ext_of_mime (toLowerCase mime0)) as [|a r] eqn:E.
    + intros [= <-]. split; [discriminate|reflexivity].
    + intros [= <-]. split; [discriminate|]. rewrite <- E.
      destruct (ext_of_mime (toLowerCase mime0)) as [|x xs] eqn:Hx.
      * rewrite app_nil_r. apply trim_idempotent.
      * rewrite <- Hx.
        apply (inferred_ext_facts (trim base0) (toLowerCase mime0));
          [by rewrite Hx|apply trim_idempotent].
Qed.

Lemma getFilename_nonempty_trimmed_witness :
  getFilename (Some remote_descriptor) = Ret (str "notice.pdf") /\
  str "notice.pdf" <> [] /\ trim (str "notice.pdf") = str "notice.pdf".
Proof.
  split; [reflexivity|].
  apply (getFilename_nonempty_trimmed (Some remote_descriptor) (str "notice.pdf")).
  reflexivity.
Defined.

Lemma getFilename_extension_for (f : PdfFile) (mime s : jsstring) :
  mimetype f = VStr mime ->
  ext_of_mime (toLowerCase mime) <> [] ->
  getFilename (Some f) = Ret s ->
  test_has_extension s = true.
Proof.
  intros Hm Hext. cbn [getFilename]. rewrite Hm.
  destruct (as_string "trim" _) as [base0|e]; cbn [obind]; [|discriminate].
  destruct (test_has_extension (trim base0)) eqn:Hb; [by intros [= <-]|].
  assert (js_or (VStr mime) (VStr []) = VStr mime) as ->.
  { unfold js_or. destruct mime; [|reflexivity].
    exfalso. apply Hext. reflexivity. }
  cbn [as_string obind].
  destruct (inferred_ext_facts (trim base0) (toLowerCase mime) Hext) as (Hhas & _).
  destruct (trim base0 ++ ext_of_mime (toLowerCase mime)) eqn:E;
    intros [= <-]; [discriminate Hhas|exact Hhas].
Qed.

(** X2. When the MIME type of the descriptor names pdf, jpeg, jpg, png or
    gif (in any letter case), a name returned by [getFilename] always has an
    extension: the original one, or the one inferred from the type. *)
Theorem getFilename_has_extension (f : PdfFile) (mime s : jsstring) :
  mimetype f = VStr mime ->
  ext_of_mime (toLowerCase mime) <> [] ->
  getFilename (Some f) = Ret s ->
  test_has_extension s = true.
Proof.
  apply getFilename_extension_for.
Qed.

Lemma getFilename_has_extension_witness :
  mimetype (descriptor VUndef VUndef VUndef (VStr (str "photo")) (VStr (str "IMAGE/JPEG"))) =
    VStr (str "IMAGE/JPEG") /\
  ext_of_mime (toLowerCase (str "IMAGE/JPEG")) <> [] /\
  getFilename (Some (descriptor VUndef VUndef VUndef (VStr (str "photo"))
                       (VStr (str "IMAGE/JPEG")))) = Ret (str "photo.jpg") /\
  test_has_extension (str "photo.jpg") = true.
Proof.
  split; [reflexivity|]. split; [discriminate|]. split; [reflexivity|].
  apply (getFilename_has_extension
           (descriptor VUndef VUndef VUndef (VStr (str "photo")) (VStr (str "IMAGE/JPEG")))
           (str "IMAGE/JPEG") (str "photo.jpg"));
    [reflexivity|discriminate|reflexivity].
Defined.

(** X3. The sanitizing step never yields an empty name, a name with one of
    the nine replaced characters, or a name with white space at either end;
    this holds for the fallback of the delivery step and for the one of the
    data-URL path. *)
Theorem sanitizeFilename_is_clean (fname : jsstring) :
  (sanitizeFilename (str "document") fname <> [] /\
   legal (sanitizeFilename (str "document") fname) /\
   trim (sanitizeFilename (str "document") fname) =
     sanitizeFilename (str "document") fname) /\
  (sanitizeFilename (str "document.pdf") fname <> [] /\
   legal (sanitizeFilename (str "document.pdf") fname) /\
   trim (sanitizeFilename (str "document.pdf") fname) =
     sanitizeFilename (str "document.pdf") fname).
Proof.
  destruct document_facts as (H1 & H2 & H3).
  destruct document_pdf_facts as (H4 & H5 & H6).
  split; by apply sanitizeFilename_facts.
Qed.

Lemma finalFilename_of_facts (blob : Blob) (fname : jsstring) :
  finalFilename_of blob fname <> [] /\
  legal (finalFilename_of blob fname) /\
  trim (finalFilename_of blob fname) = finalFilename_of blob fname /\
  (ext_of_mime (toLowerCase (blob_type blob)) = [] \/
   test_has_extension (finalFilename_of blob fname) = true).
Proof.
  destruct document_facts as (H1 & H2 & H3).
  destruct (sanitizeFilename_facts (str "document") fname H1 H2 H3)
    as (Hne & Hl & Ht).
  unfold finalFilename_of.
  destruct (test_has_extension (sanitizeFilename (str "document") fname)) eqn:Hx;
    [by repeat split; auto|].
  destruct (ext_of_mime (toLowerCase (blob_type blob))) as [|x xs] eqn:He.
  - rewrite app_nil_r. by repeat split; auto.
  - rewrite <- He.
    destruct (inferred_ext_facts (sanitizeFilename (str "document") fname)
                (toLowerCase (blob_type blob))) as (Hh & Htr & Hlg);
      [by rewrite He|].
    split; [|by repeat split; auto].
    intros Hnil. apply app_eq_nil in Hnil as [Hnil _]. contradiction.
Qed.

(** X4. The name under which [_downloadBlob] saves a blob: whenever an
    anchor is clicked, it is clicked once and its download name is the
    derived name; that name is never empty, holds none of the nine replaced
    characters, and has an extension whenever the type of the blob names a
    known one.  Deriving the name again from the derived name changes
    nothing. *)
Theorem blob_download_name (h : Host) (blob : Blob) (fname : jsstring) :
  (clicks (fst (_downloadBlob h blob fname)) = [] \/
   exists href,
     clicks (fst (_downloadBlob h blob fname)) =
       [(href, finalFilename_of blob fname)]) /\
  finalFilename_of blob fname <> [] /\
  legal (finalFilename_of blob fname) /\
  (ext_of_mime (toLowerCase (blob_type blob)) = [] \/
   test_has_extension (finalFilename_of blob fname) = true) /\
  finalFilename_of blob (finalFilename_of blob fname) =
    finalFilename_of blob fname.
Proof.
  destruct (finalFilename_of_facts blob fname) as (Hne & Hl & Ht & Hx).
  split; [|split; [exact Hne|split; [exact Hl|split; [exact Hx|]]]].
  - rewrite _downloadBlob_deliver. unfold deliver.
    destruct (Nat.eqb (blob_size blob) 0); [by left|].
    destruct (host_createObjectURL h blob) as [ou|e].
    + right. exists ou.
      destruct (host_click h ou (finalFilename_of blob fname)) as [[]|e];
        cbn [fst]; read_app;
        destruct (test_pdf_ext (finalFilename_of blob fname)); reflexivity.
    + left. cbn [fst]. read_app.
      destruct (test_pdf_ext (finalFilename_of blob fname)); reflexivity.
  - assert (sanitizeFilename (str "document") (finalFilename_of blob fname) =
            finalFilename_of blob fname) as Hfix.
    { unfold sanitizeFilename at 1.
      rewrite (replace_illegal_fixed _ Hl), Ht.
      by destruct (finalFilename_of blob fname). }
    unfold finalFilename_of at 1. rewrite Hfix.
    destruct (test_has_extension (finalFilename_of blob fname)) eqn:Hext;
      [reflexivity|].
    destruct Hx as [Hx|Hx]; [|congruence].
    rewrite Hx. apply app_nil_r.
Qed.

(** ** The URL that is fetched *)

(** The course of [cloudinary_fetch_url] on a string that names the store's
    host: the path is moved to raw; the URL is rebuilt from the public id
    only when there is one and the path is still not raw; the flag is
    added. *)
Lemma cloudinary_fetch_url_shape (f : PdfFile) (u : jsstring) :
  url f = VStr u ->
  includes u cloudinary_host = true ->
  (exists e, snd (cloudinary_fetch_url f) = Throw e) \/
  exists u2,
    snd (cloudinary_fetch_url f) = Ret (with_attachment u2) /\
    (truthy (publicId f) && negb (includes (to_raw_path u) raw_segment) = false ->
     u2 = to_raw_path u /\
     fst (cloudinary_fetch_url f) =
       if includes u image_segment then [EvLog ConvertedToRaw] else []).
Proof.
  intros Hu Hhost. unfold cloudinary_fetch_url, to_raw_path.
  rewrite Hu. cbn [as_string]. step_trace.
  change (str "res.cloudinary.com") with cloudinary_host. rewrite Hhost.
  change (str "fl_attachment") with fl_attachment.
  destruct (includes u image_segment); step_trace.
  - destruct (truthy (publicId f) &&
              negb (includes (replace u image_segment raw_segment) raw_segment)).
    + destruct (match_cloud_name (replace u image_segment raw_segment)) as [cn|].
      * destruct (as_string "replace" (publicId f)) as [pid|e]; step_trace;
          [|left; eauto].
        right.
        exists (str "https://res.cloudinary.com/" ++ cn ++ raw_segment ++
                strip_known_ext pid).
        split; [|discriminate]. unfold with_attachment.
        match goal with
        | |- context [negb (includes ?x fl_attachment)] =>
            by destruct (includes x fl_attachment)
        end.
      * step_trace. right. exists (replace u image_segment raw_segment).
        split; [|discriminate]. unfold with_attachment.
        by destruct (includes (replace u image_segment raw_segment) fl_attachment).
    + step_trace. right. exists (replace u image_segment raw_segment).
      unfold with_attachment.
      by destruct (includes (replace u image_segment raw_segment) fl_attachment).
  - destruct (truthy (publicId f) && negb (includes u raw_segment)).
    + destruct (match_cloud_name u) as [cn|].
      * destruct (as_string "replace" (publicId f)) as [pid|e]; step_trace;
          [|left; eauto].
        right.
        exists (str "https://res.cloudinary.com/" ++ cn ++ raw_segment ++
                strip_known_ext pid).
        split; [|discriminate]. unfold with_attachment.
        match goal with
        | |- context [negb (includes ?x fl_attachment)] =>
            by destruct (includes x fl_attachment)
        end.
      * step_trace. right. exists u. split; [|discriminate].
        unfold with_attachment. by destruct (includes u fl_attachment).
    + step_trace. right. exists u. unfold with_attachment.
      by destruct (includes u fl_attachment).
Qed.

Lemma with_attachment_flagged (u : jsstring) :
  includes (with_attachment u) fl_attachment = true.
Proof.
  unfold with_attachment.
  destruct (includes u fl_attachment) eqn:E; [exact E|].
  rewrite app_assoc. apply includes_app_r.
Qed.

(** X5. The attachment flag.  A stored URL that does not name the store's
    host is fetched exactly as stored, and nothing is logged.  For a URL
    that names the host, the URL that is fetched always holds the attachment
    flag. *)
Theorem fetch_url_attachment_flag (f : PdfFile) (u r : jsstring) :
  url f = VStr u ->
  snd (cloudinary_fetch_url f) = Ret r ->
  if includes u cloudinary_host
  then includes r fl_attachment = true
  else cloudinary_fetch_url f = ([], Ret u).
Proof.
  intros Hu Hr. destruct (includes u cloudinary_host) eqn:Hhost.
  - destruct (cloudinary_fetch_url_shape f u Hu Hhost) as [[e He]|(u2 & H2 & _)];
      [congruence|].
    rewrite H2 in Hr. injection Hr as <-. apply with_attachment_flagged.
  - unfold cloudinary_fetch_url. rewrite Hu. cbn [as_string]. step_trace.
    change (str "res.cloudinary.com") with cloudinary_host. by rewrite Hhost.
Qed.

Lemma fetch_url_attachment_flag_witness :
  url remote_descriptor =
    VStr (str "https://res.cloudinary.com/demo/raw/upload/v1/jamalpur-chamber/notice.pdf") /\
  snd (cloudinary_fetch_url remote_descriptor) = Ret notice_fetch_url /\
  includes notice_fetch_url fl_attachment = true.
Proof.
  split; [reflexivity|]. split; [reflexivity|].
  apply (fetch_url_attachment_flag remote_descriptor
           (str "https://res.cloudinary.com/demo/raw/upload/v1/jamalpur-chamber/notice.pdf")
           notice_fetch_url); reflexivity.
Defined.

(** A text without a slash, put at the end, neither makes nor breaks an
    occurrence of a pattern that ends in a slash. *)
Lemma startsWith_slash_tail (t q : jsstring) :
  forallb (fun c => negb (chr_eqb c "/")) t = true ->
  startsWith t (q ++ str "/") = false.
Proof.
  revert t. induction q as [|p q IH]; intros [|c t] Ht; try reflexivity.
  - cbn in Ht |- *. apply andb_true_iff in Ht as [Hc _].
    apply negb_true_iff in Hc. by rewrite Hc.
  - cbn in Ht. apply andb_true_iff in Ht as [_ Ht].
    cbn [app startsWith]. rewrite (IH t Ht). apply andb_false_r.
Qed.

Lemma startsWith_app_slash (s t q : jsstring) :
  forallb (fun c => negb (chr_eqb c "/")) t = true ->
  startsWith (s ++ t) (q ++ str "/") = startsWith s (q ++ str "/").
Proof.
  intros Ht. revert q. induction s as [|c s IH]; intros q.
  - cbn [app]. rewrite (startsWith_slash_tail t q Ht). by destruct q.
  - destruct q as [|p q].
    + cbn. by destruct s, t.
    + cbn [app startsWith]. change (q ++ "/"%char :: []) with (q ++ str "/").
      by rewrite IH.
Qed.

Lemma includes_app_slash (s t q : jsstring) :
  forallb (fun c => negb (chr_eqb c "/")) t = true ->
  includes (s ++ t) (q ++ str "/") = includes s (q ++ str "/").
Proof.
  intros Ht. induction s as [|c s IH].
  - cbn [app includes]. rewrite orb_false_r.
    transitivity false; [|by destruct q].
    induction t as [|c t IHt]; [by destruct q|].
    cbn [includes]. rewrite (startsWith_slash_tail (c :: t) q Ht).
    cbn in Ht. apply andb_true_iff in Ht as [_ Ht]. by apply IHt.
  - change ((c :: s) ++ t) with (c :: (s ++ t)) at 1. cbn [includes].
    change (c :: (s ++ t)) with ((c :: s) ++ t).
    by rewrite (startsWith_app_slash (c :: s) t q Ht), IH.
Qed.

Lemma with_attachment_image_segment (u : jsstring) :
  includes (with_attachment u) image_segment = includes u image_segment.
Proof.
  unfold with_attachment. destruct (includes u fl_attachment); [reflexivity|].
  change image_segment with (str "/image/upload" ++ str "/").
  apply includes_app_slash. by destruct (includes u (str "?")).
Qed.

Lemma with_attachment_keeps (u p : jsstring) :
  includes u p = true -> includes (with_attachment u) p = true.
Proof.
  intros H. unfold with_attachment.
  destruct (includes u fl_attachment); [exact H|]. by apply includes_app_l.
Qed.

(** The run of [cloudinary_fetch_url] on a URL of the store's host that
    holds the image path. *)
Lemma cloudinary_fetch_url_image (f : PdfFile) (u : jsstring) :
  url f = VStr u ->
  includes u cloudinary_host = true ->
  includes u image_segment = true ->
  cloudinary_fetch_url f =
    ([EvLog ConvertedToRaw],
     Ret (with_attachment (replace u image_segment raw_segment))).
Proof.
  intros Hu Hhost Himg.
  assert (Hraw : includes (replace u image_segment raw_segment) raw_segment = true)
    by by apply includes_replace.
  destruct (cloudinary_fetch_url_shape f u Hu Hhost) as [[e He]|(u2 & H2 & H3)].
  - exfalso. revert He. unfold cloudinary_fetch_url. rewrite Hu.
    cbn [as_string]. step_trace.
    change (str "res.cloudinary.com") with cloudinary_host.
    rewrite Hhost, Himg. step_trace. rewrite Hraw, andb_false_r.
    step_trace.
    by destruct (includes (replace u image_segment raw_segment)
                   (str "fl_attachment")).
  - unfold to_raw_path in H3. rewrite Himg, Hraw, andb_false_r in H3.
    destruct (H3 eq_refl) as [-> Hlog].
    destruct (cloudinary_fetch_url f) as [evs o]. cbn [fst snd] in *.
    by subst.
Qed.

(** X6. A stored URL on the store's host that holds the image path is
    fetched from the raw path: the first image segment is rewritten, the
    attachment flag is added, the conversion is the only thing logged, and
    the public id plays no part, whatever it is.  The fetched URL holds the
    raw segment; it still holds an image segment exactly when the stored
    URL held more than one. *)
Theorem fetch_url_moves_image_to_raw (f : PdfFile) (u : jsstring) :
  url f = VStr u ->
  includes u cloudinary_host = true ->
  includes u image_segment = true ->
  let r := with_attachment (replace u image_segment raw_segment) in
  cloudinary_fetch_url f = ([EvLog ConvertedToRaw], Ret r) /\
  includes r raw_segment = true /\
  includes r fl_attachment = true /\
  includes r image_segment = negb (occurrences u image_segment <=? 1).
Proof.
  intros Hu Hhost Himg r.
  assert (Hraw : includes (replace u image_segment raw_segment) raw_segment = true)
    by by apply includes_replace.
  split; [|split; [|split]].
  - by apply cloudinary_fetch_url_image.
  - by apply with_attachment_keeps.
  - apply with_attachment_flagged.
  - unfold r. rewrite with_attachment_image_segment.
    apply replace_image_segment_includes.
Qed.

Lemma fetch_url_moves_image_to_raw_witness :
  snd (cloudinary_fetch_url
         {| filename := VUndef; fileId := VUndef; url := VStr plain_url;
            publicId := VStr (str "jamalpur-chamber/notice.pdf");
            originalName := VUndef; data := VUndef; name := VUndef;
            mimetype := VUndef |}) =
  Ret (with_attachment (replace plain_url image_segment raw_segment)).
Proof.
  exact (f_equal snd (proj1 (fetch_url_moves_image_to_raw
    {| filename := VUndef; fileId := VUndef; url := VStr plain_url;
       publicId := VStr (str "jamalpur-chamber/notice.pdf");
       originalName := VUndef; data := VUndef; name := VUndef;
       mimetype := VUndef |} plain_url eq_refl eq_refl eq_refl))).
Defined.

(** ** Delivery: [_downloadBlob] and [_downloadFromDataURL] *)

(** X7. The cleanup of [_downloadBlob].  The timer that removes the link and
    revokes the object URL is set, for one second, exactly when the function
    returns; it returns exactly when the blob is not empty and the host
    made the object URL and clicked the link.  Every failure is alerted with
    its message and thrown on to the caller.  An empty blob gets no object
    URL; any other blob gets one, also on the runs that fail afterwards and
    set no timer. *)
Theorem blob_download_cleanup (h : Host) (blob : Blob) (fname : jsstring) :
  let d := _downloadBlob h blob fname in
  timeouts (fst d) = (match snd d with Ret _ => [1000%N] | Throw _ => [] end) /\
  alerts (fst d) =
    (match snd d with
     | Ret _ => []
     | Throw e => [str "Failed to download PDF: " ++ error_message e]
     end) /\
  object_urls (fst d) = (if Nat.eqb (blob_size blob) 0 then [] else [blob]) /\
  snd d =
    (if Nat.eqb (blob_size blob) 0
     then Throw (Error (str "Invalid blob: file is empty"))
     else match host_createObjectURL h blob with
          | Throw e => Throw e
          | Ret ou =>
              match host_click h ou (finalFilename_of blob fname) with
              | Throw e => Throw e
              | Ret _ => Ret tt
              end
          end).
Proof.
  intros d. subst d. rewrite _downloadBlob_deliver. unfold deliver.
  destruct (Nat.eqb (blob_size blob) 0); [by repeat split|].
  destruct (host_createObjectURL h blob) as [ou|e].
  - destruct (host_click h ou (finalFilename_of blob fname)) as [[]|e];
      destruct (test_pdf_ext (finalFilename_of blob fname));
      by repeat split.
  - destruct (test_pdf_ext (finalFilename_of blob fname)); by repeat split.
Qed.

Lemma test_pdf_ext_app (s : jsstring) : test_pdf_ext (s ++ str ".pdf") = true.
Proof.
  unfold test_pdf_ext, endsWith, toLowerCase.
  rewrite map_app, rev_app_distr. apply startsWith_app_self.
Qed.

Lemma dataurl_filename_facts (fname : jsstring) :
  test_pdf_ext (dataurl_filename fname) = true /\
  legal (dataurl_filename fname).
Proof.
  destruct document_pdf_facts as (H1 & H2 & H3).
  destruct (sanitizeFilename_facts (str "document.pdf") fname H1 H2 H3)
    as (_ & Hl & _).
  unfold dataurl_filename.
  destruct (test_pdf_ext (sanitizeFilename (str "document.pdf") fname)) eqn:E.
  - by split.
  - split; [apply test_pdf_ext_app|].
    apply Forall_app. split; [exact Hl|repeat constructor].
Qed.

(** X8. The inline path.  [_downloadFromDataURL] never throws and makes no
    request, window, object URL or alert.  When the name can be read it
    clicks once, on the stored data as the address, with a download name
    that ends in .pdf and holds none of the characters the sanitizing
    pattern removes; the result is [true] exactly when that click went
    through, and only then is the link's removal scheduled.  When the name
    cannot be read nothing is clicked and the result is [false]. *)
Theorem data_url_download (h : Host) (f : PdfFile) :
  let d := _downloadFromDataURL h f in
  fetches (fst d) = [] /\ object_urls (fst d) = [] /\ opened (fst d) = [] /\
  alerts (fst d) = [] /\
  match getFilename (Some f) with
  | Ret fname =>
      let final := dataurl_filename fname in
      test_pdf_ext final = true /\ legal final /\
      clicks (fst d) = [(toString (data f), final)] /\
      match host_click h (toString (data f)) final with
      | Ret _ => snd d = Ret true /\ timeouts (fst d) = [100%N]
      | Throw _ => snd d = Ret false /\ timeouts (fst d) = []
      end
  | Throw _ =>
      clicks (fst d) = [] /\ timeouts (fst d) = [] /\ snd d = Ret false
  end.
Proof.
  intros d. subst d. unfold _downloadFromDataURL.
  destruct (getFilename (Some f)) as [fname|e]; step_trace;
    [|by repeat split].
  destruct (dataurl_filename_facts fname) as [Hp Hl].
  change (if test_pdf_ext (sanitizeFilename (str "document.pdf") fname)
          then sanitizeFilename (str "document.pdf") fname
          else sanitizeFilename (str "document.pdf") fname ++ str ".pdf")
    with (dataurl_filename fname).
  destruct (host_click h (toString (data f)) (dataurl_filename fname))
    as [[]|e]; by repeat split.
Qed.

(** ** [view], [print] and [isValid] *)

(** What [view] and [print] leave in the trace, and their results. *)
Lemma view_print_reads (h : Host) (f : PdfFile) :
  let v := view h (Some f) in
  let p := print h (Some f) in
  let target := match open_target h f with Some u => [u] | None => [] end in
  opened (fst v) = target /\ opened (fst p) = target /\
  fetches (fst v) = [] /\ fetches (fst p) = [] /\
  object_urls (fst v) = [] /\ object_urls (fst p) = [] /\
  clicks (fst v) = [] /\ clicks (fst p) = [] /\
  alerts (fst v) = [] /\ alerts (fst p) = [] /\
  snd v = Ret (match open_target h f with
               | Some u => match host_open h u with
                           | Ret _ => true
                           | Throw _ => false
                           end
               | None => false
               end) /\
  snd p = Ret (match open_target h f with
               | Some u => match host_open h u with
                           | Ret w => w
                           | Throw _ => false
                           end
               | None => false
               end).
Proof.
  intros v p target. subst v p target.
  unfold view, print, open_target, resolve_spec.
  rewrite truthy_js_or.
  destruct (truthy (url f)); step_trace.
  - destruct (host_open h (toString (url f))) as [[]|e]; by repeat split.
  - destruct (truthy (filename f) || truthy (fileId f)); step_trace.
    + destruct (host_open h (legacy_url h f)) as [[]|e]; by repeat split.
    + destruct (truthy (data f)); step_trace; [|by repeat split].
      destruct (host_open h (toString (data f))) as [[]|e]; by repeat split.
Qed.

(** X9. [view] and [print] open the same address, once: the stored URL,
    else the server address built from the file name or file id, else the
    inline data; neither makes a request, an object URL, a click or an
    alert.  [print] returns [true] exactly when the host gave a window;
    [view] returns [true] whenever the host did not throw, also when no
    window was given. *)
Theorem view_print_open_same_target (h : Host) (f : PdfFile) :
  let v := view h (Some f) in
  let p := print h (Some f) in
  let target := match open_target h f with Some u => [u] | None => [] end in
  opened (fst v) = target /\ opened (fst p) = target /\
  fetches (fst v) = [] /\ fetches (fst p) = [] /\
  object_urls (fst v) = [] /\ object_urls (fst p) = [] /\
  clicks (fst v) = [] /\ clicks (fst p) = [] /\
  alerts (fst v) = [] /\ alerts (fst p) = [] /\
  snd v = Ret (match open_target h f with
               | Some u => match host_open h u with
                           | Ret _ => true
                           | Throw _ => false
                           end
               | None => false
               end) /\
  snd p = Ret (match open_target h f with
               | Some u => match host_open h u with
                           | Ret w => w
                           | Throw _ => false
                           end
               | None => false
               end).
Proof. apply view_print_reads. Qed.

Lemma isValid_resolve (f : PdfFile) :
  isValid (Some f) = match resolve_spec f with Invalid => false | _ => true end.
Proof.
  unfold isValid, resolve_spec. rewrite !truthy_js_or.
  by destruct (truthy (url f)), (truthy (filename f)), (truthy (fileId f)),
    (truthy (data f)).
Qed.

(** X10. [isValid] agrees with the three entry points.  For an argument
    that [isValid] rejects, [download], [view] and [print] return [false]
    and do not call the host at all.  For one that it accepts, [view] and
    [print] open exactly one window address. *)
Theorem isValid_guards_entry_points (h : Host) (pdfFile : option PdfFile) :
  if isValid pdfFile
  then length (opened (fst (view h pdfFile))) = 1 /\
       length (opened (fst (print h pdfFile))) = 1
  else (snd (download h pdfFile) = Ret false /\
        no_host_call (fst (download h pdfFile))) /\
       (snd (view h pdfFile) = Ret false /\
        no_host_call (fst (view h pdfFile))) /\
       (snd (print h pdfFile) = Ret false /\
        no_host_call (fst (print h pdfFile))).
Proof.
  destruct pdfFile as [f|]; [|by repeat split].
  rewrite isValid_resolve.
  pose proof (view_print_reads h f) as (Hv & Hp & _).
  cbv zeta in Hv, Hp. rewrite Hv, Hp. clear Hv Hp.
  unfold open_target.
  destruct (resolve_spec f) eqn:E; try by split.
  rewrite download_dispatch, E.
  revert E. unfold view, print, resolve_spec. rewrite truthy_js_or.
  destruct (truthy (url f)); [discriminate|].
  destruct (truthy (filename f) || truthy (fileId f)); [discriminate|].
  destruct (truthy (data f)); [discriminate|].
  intros _. by repeat split.
Qed.

(** ** What the result of [download] tells *)

Lemma delivered_after_quiet (pre evs : list event) :
  forallb is_quiet pre = true -> delivered evs -> delivered (pre ++ evs).
Proof.
  intros Hq (He & Ha & Ht & Hc). unfold delivered, timeouts in *. read_app.
  rewrite ?(quiet_omap timeout_of _ (fun _ => eq_refl) Hq),
          ?(quiet_omap click_of _ (fun _ => eq_refl) Hq),
          ?(quiet_omap alert_of _ (fun _ => eq_refl) Hq),
          ?(quiet_omap error_label_of _ (fun _ => eq_refl) Hq).
  cbn [app]. unfold errors_logged, alerts, clicks in *. by repeat split.
Qed.

Lemma _downloadBlob_delivered (h : Host) (blob : Blob) (fname : jsstring) :
  match snd (_downloadBlob h blob fname) with
  | Ret _ => delivered (fst (_downloadBlob h blob fname))
  | Throw _ => True
  end.
Proof.
  destruct (finalFilename_of_facts blob fname) as (Hne & Hl & _).
  rewrite _downloadBlob_deliver. unfold deliver.
  destruct (Nat.eqb (blob_size blob) 0); [exact I|].
  destruct (host_createObjectURL h blob) as [ou|e]; [|exact I].
  destruct (host_click h ou (finalFilename_of blob fname)) as [[]|e]; [|exact I].
  cbn [fst snd]. unfold delivered, timeouts. read_app.
  destruct (test_pdf_ext (finalFilename_of blob fname)); cbn;
    (split; [reflexivity|split; [reflexivity|split; [reflexivity|]]]);
    by exists ou, (finalFilename_of blob fname).
Qed.

Lemma pdf_check_silent (expectPdf finalized : bool) (blob : Blob) :
  errors_logged (pdf_check expectPdf finalized blob) = [] /\
  alerts (pdf_check expectPdf finalized blob) = [] /\
  timeouts (pdf_check expectPdf finalized blob) = [] /\
  clicks (pdf_check expectPdf finalized blob) = [].
Proof.
  unfold pdf_check. destruct expectPdf; [|done].
  by destruct (startsWith _ _), finalized.
Qed.

Lemma fetch_and_deliver_delivered (h : Host) (fname : jsstring)
    (expectPdf : bool) (u : jsstring) (init : FetchInit) (received : label)
    (finalized : bool) :
  let steps := fetch_and_deliver h fname expectPdf u init received finalized in
  match snd steps with
  | Ret _ => delivered (fst steps)
  | Throw _ => True
  end.
Proof.
  unfold fetch_and_deliver.
  destruct (host_fetch h u init) as [r|e]; [|exact I].
  destruct (response_ok r); [|exact I].
  destruct (body r) as [blob|e]; [|exact I].
  destruct (Nat.eqb (blob_size blob) 0); [exact I|].
  pose proof (_downloadBlob_delivered h (finalBlob_of expectPdf blob) fname) as Hd.
  destruct (_downloadBlob h (finalBlob_of expectPdf blob) fname)
    as [devs [[]|e]]; cbn [fst snd] in *; [|exact I].
  destruct Hd as (He & Ha & Ht & Hc).
  destruct (pdf_check_silent expectPdf finalized blob) as (Pe & Pa & Pt & Pc).
  unfold delivered, timeouts, errors_logged, alerts, clicks in *.
  rewrite !omap_app, Pe, Pa, Pt, Pc, He, Ha. cbn. by repeat split.
Qed.

Lemma settle_outcome (failed : label) (pre : list event) (steps : BM unit) :
  forallb is_quiet pre = true ->
  match snd steps with Ret _ => delivered (fst steps) | Throw _ => True end ->
  outcome_reported (settle failed pre steps).
Proof.
  intros Hq Hd. unfold settle, outcome_reported.
  destruct (snd steps) as [[]|e]; cbn [fst snd].
  - by apply delivered_after_quiet.
  - unfold errors_logged, fetch_failure. rewrite !omap_app. cbn.
    intros H. by apply app_eq_nil in H as [_ [_ [=]]%app_eq_nil].
Qed.

Lemma dispatched_outcome (method : label) (inner : BM bool) :
  is_quiet (EvLog method) = true ->
  match snd inner with
  | Ret _ => outcome_reported inner
  | Throw _ => True
  end ->
  outcome_reported (dispatched method inner).
Proof.
  intros Hm Hi. unfold dispatched, outcome_reported in *.
  destruct (snd inner) as [[]|e]; cbn [fst snd].
  - rewrite app_nil_r.
    apply (delivered_after_quiet [EvLog DownloadAttempt; EvLog method]);
      [|exact Hi].
    cbn [forallb]. by rewrite Hm.
  - rewrite app_nil_r. unfold errors_logged in *. rewrite omap_app.
    intros H. by apply app_eq_nil in H as [_ H].
  - unfold errors_logged. rewrite !omap_app. cbn.
    intros H. by apply app_eq_nil in H as [_ [=]].
Qed.

Lemma _downloadFromUrl_outcome (h : Host) (f : PdfFile) :
  match snd (_downloadFromUrl h f) with
  | Ret _ => outcome_reported (_downloadFromUrl h f)
  | Throw _ => True
  end.
Proof.
  rewrite _downloadFromUrl_settle.
  destruct (getFilename (Some f)) as [fname|e]; [|exact I].
  destruct (expectPdf_of f fname) as [expectPdf|e]; [|exact I].
  pose proof (cloudinary_fetch_url_quiet f) as Hq.
  match goal with
  | |- match snd ?run with _ => _ end =>
      assert (outcome_reported run) as Hr; [|unfold outcome_reported in Hr |- *;
        by destruct (snd run) as [[]|?]]
  end.
  apply settle_outcome; [exact Hq|].
  destruct (snd (cloudinary_fetch_url f)) as [u|e]; [|exact I].
  apply fetch_and_deliver_delivered.
Qed.

Lemma _downloadFromServer_outcome (h : Host) (f : PdfFile) :
  match snd (_downloadFromServer h f) with
  | Ret _ => outcome_reported (_downloadFromServer h f)
  | Throw _ => True
  end.
Proof.
  rewrite _downloadFromServer_settle.
  destruct (getFilename (Some f)) as [fname|e]; [|exact I].
  destruct (expectPdf_of f fname) as [expectPdf|e]; [|exact I].
  match goal with
  | |- match snd ?run with _ => _ end =>
      assert (outcome_reported run) as Hr; [|unfold outcome_reported in Hr |- *;
        by destruct (snd run) as [[]|?]]
  end.
  apply settle_outcome; [reflexivity|].
  apply fetch_and_deliver_delivered.
Qed.

Lemma _downloadFromDataURL_outcome (h : Host) (f : PdfFile) :
  outcome_reported (_downloadFromDataURL h f).
Proof.
  unfold _downloadFromDataURL, outcome_reported.
  destruct (getFilename (Some f)) as [fname|e]; step_trace; [|discriminate].
  destruct (dataurl_filename_facts fname) as [_ Hl].
  destruct document_pdf_facts as (H1 & H2 & H3).
  destruct (sanitizeFilename_facts (str "document.pdf") fname H1 H2 H3)
    as (Hne & _ & _).
  change (if test_pdf_ext (sanitizeFilename (str "document.pdf") fname)
          then sanitizeFilename (str "document.pdf") fname
          else sanitizeFilename (str "document.pdf") fname ++ str ".pdf")
    with (dataurl_filename fname).
  destruct (host_click h (toString (data f)) (dataurl_filename fname))
    as [[]|e]; cbn; [|discriminate].
  repeat split. exists (toString (data f)), (dataurl_filename fname).
  split; [reflexivity|]. split; [|exact Hl].
  unfold dataurl_filename.
  destruct (test_pdf_ext (sanitizeFilename (str "document.pdf") fname));
    [exact Hne|].
  intros H. by apply app_eq_nil in H as [_ [=]].
Qed.

(** X11. The result of [download] can be trusted.  It never throws.  When
    it returns [true], exactly one link was clicked, with a download name
    that is not empty and holds none of the characters removed by the
    sanitizing pattern, its cleanup was scheduled, and neither an error line
    nor an alert was produced.  When it returns [false], an error line was
    written to the console: it never fails silently. *)
Theorem download_outcome_reported (h : Host) (pdfFile : option PdfFile) :
  outcome_reported (download h pdfFile).
Proof.
  destruct pdfFile as [f|]; [|by cbn].
  rewrite download_dispatch. unfold download_by.
  destruct (resolve_spec f).
  - apply dispatched_outcome; [reflexivity|apply _downloadFromUrl_outcome].
  - apply dispatched_outcome; [reflexivity|apply _downloadFromServer_outcome].
  - apply dispatched_outcome; [reflexivity|].
    pose proof (_downloadFromDataURL_outcome h f) as H.
    by destruct (snd (_downloadFromDataURL h f)).
  - by cbn.
Qed.

(** X12. A delivery that fails is announced twice.  On the server path,
    when the file was fetched and is not empty but [_downloadBlob] fails
    (the object URL or the click), the user gets two alerts for the one
    error: the one of [_downloadBlob], then the one of the catch block of
    [_downloadFromServer]; the result is [false]. *)
Theorem delivery_failure_alerts_twice (h : Host) (f : PdfFile)
    (fname : jsstring) (expectPdf : bool) (r : Response) (blob : Blob)
    (e : JsError) :
  getFilename (Some f) = Ret fname ->
  expectPdf_of f fname = Ret expectPdf ->
  host_fetch h (legacy_url h f) server_init = Ret r ->
  response_ok r = true ->
  body r = Ret blob ->
  Nat.eqb (blob_size blob) 0 = false ->
  snd (_downloadBlob h (finalBlob_of expectPdf blob) fname) = Throw e ->
  snd (_downloadFromServer h f) = Ret false /\
  alerts (fst (_downloadFromServer h f)) =
    [str "Failed to download PDF: " ++ error_message e; failure_alert e].
Proof.
  intros Hname Hexp Hfetch Hok Hbody Hsize Hblob.
  rewrite _downloadFromServer_settle, Hname, Hexp.
  unfold settle, fetch_and_deliver. rewrite Hfetch, Hok, Hbody, Hsize.
  assert (Nat.eqb (blob_size (finalBlob_of expectPdf blob)) 0 = false) as Hsz
    by (by rewrite finalBlob_of_size).
  destruct (deliver_reads h (finalBlob_of expectPdf blob) fname Hsz)
    as (_ & _ & _ & _ & Ha & _).
  destruct (pdf_check_silent expectPdf false blob) as (_ & Pa & _).
  destruct (_downloadBlob h (finalBlob_of expectPdf blob) fname) as [devs o].
  cbn [fst snd] in *. subst o. cbn [fst snd]. split; [reflexivity|].
  unfold alerts, fetch_failure in *. rewrite !omap_app, Pa, Ha. reflexivity.
Qed.

Lemma delivery_failure_alerts_twice_witness :
  snd (_downloadFromServer refusing_host legacy_descriptor) = Ret false /\
  length (alerts (fst (_downloadFromServer refusing_host legacy_descriptor))) = 2.
Proof.
  destruct (delivery_failure_alerts_twice refusing_host legacy_descriptor
              (str "old.pdf") true
              (mkResponse 200 (Some application_pdf)
                 (Ret (mkBlob application_pdf pdf_bytes)))
              (mkBlob application_pdf pdf_bytes)
              (HostError (str "createObjectURL failed"))
              eq_refl eq_refl eq_refl eq_refl eq_refl eq_refl eq_refl)
    as [Hres Hal].
  split; [exact Hres|]. rewrite Hal. reflexivity.
Defined.

(* --------------------------------------------------------------------- *)
(** ** The write path: configuration and console                           *)
(* --------------------------------------------------------------------- *)

(** X13. What reaches the store.  Every option of the caller reaches the
    store as given, and every default (folder jamalpur-chamber, resource
    type auto, type upload, access mode public) is there unless the caller
    overrides it.  The only values the function imposes are quality and
    fetch_format, set to auto on every upload that is not raw, also over
    the caller's own values. *)
Theorem baseConfig_lookup (options : gmap string JsVal) (k : string) :
  baseConfig options !! k =
  if (bool_decide (k = "quality") || bool_decide (k = "fetch_format")) &&
     negb (is_str (prop (baseConfig options) "resource_type") raw)
  then Some (VStr (str "auto"))
  else match options !! k with
       | Some v => Some v
       | None => default_config !! k
       end.
Proof.
  assert (is_str (prop (baseConfig options) "resource_type") raw =
          is_str (prop (options ∪ default_config) "resource_type") raw) as ->.
  { unfold baseConfig, prop.
    destruct (negb _); by rewrite ?lookup_insert_ne by discriminate. }
  assert ((options ∪ default_config) !! k =
          match options !! k with
          | Some v => Some v
          | None => default_config !! k
          end) as Hu.
  { rewrite lookup_union. destruct (options !! k), (default_config !! k); done. }
  unfold baseConfig.
  destruct (negb (is_str (prop (options ∪ default_config) "resource_type") raw)).
  - rewrite andb_true_r.
    destruct (bool_decide (k = "fetch_format")) eqn:Ef.
    + apply bool_decide_eq_true in Ef as ->. rewrite orb_true_r.
      apply lookup_insert_eq.
    + apply bool_decide_eq_false in Ef. rewrite orb_false_r.
      rewrite lookup_insert_ne by congruence.
      destruct (bool_decide (k = "quality")) eqn:Eq.
      * apply bool_decide_eq_true in Eq as ->. apply lookup_insert_eq.
      * apply bool_decide_eq_false in Eq.
        by rewrite lookup_insert_ne by congruence.
  - by rewrite andb_false_r.
Qed.

(** The events and the result of a call whose store call succeeds. *)
Lemma uploadToCloudinary_events (c : Cloudinary) (filePath : jsstring)
    (options : gmap string JsVal) (w : Server) (res : UploadResult) :
  uploader_upload c filePath (baseConfig options) = Ret res ->
  exists fixed,
    store_calls fixed = [] /\ sv_errors fixed = [] /\
    sv_events (fst (uploadToCloudinary c filePath options w)) =
      sv_events w ++
      [SvLog "Uploading to Cloudinary:";
       SvStoreUpload filePath (baseConfig options);
       SvLog "Cloudinary upload result:"] ++
      (if type_mismatch options res then [SvError mismatch_warning] else []) ++
      fixed.
Proof.
  intros Hup.
  assert (exists res' fixed,
    store_calls fixed = [] /\ sv_errors fixed = [] /\
    forall evs0,
      fix_raw_url options res (mkServer (files w) evs0) =
      (mkServer (files w) (evs0 ++ fixed), Ret res'))
    as (res' & fixed & Hcalls & Herrs & Hfix).
  { unfold fix_raw_url.
    destruct (_ || _); [|exists res, []; by setoid_rewrite app_nil_r].
    destruct (secure_url res) as [[|? ?]|];
      try (exists res, []; by setoid_rewrite app_nil_r).
    destruct (includes _ _); [|exists res, []; by setoid_rewrite app_nil_r].
    eexists _, [_]. by repeat split. }
  exists fixed. split; [exact Hcalls|]. split; [exact Herrs|].
  unfold uploadToCloudinary, try_catch, bind, store_upload, sv_emit.
  cbn [files sv_events]. rewrite Hup.
  unfold type_mismatch, intended_raw, mismatch_warning.
  destruct (is_str (prop options "resource_type") raw &&
            negb (bool_decide (resource_type res = raw)));
    unfold ret at 1; cbn [files sv_events]; rewrite Hfix;
    unfold unlinkSync, existsSync, ret, throw; cbn [files sv_events];
    destruct (bool_decide (filePath ∈ files w)) eqn:Hin;
    cbn [files sv_events fst]; rewrite ?Hin; cbn [files sv_events fst];
    by rewrite <- ?app_assoc.
Qed.

(** X14. The check of the resource type.  The warning that a PDF was not
    stored as raw is written exactly when the caller asked for a raw upload
    and the store reports another resource type; it is the only error line
    the function ever writes, and nothing is written when the store call
    fails.  The controllers' PDF uploads pass no options, so they are never
    checked. *)
Theorem upload_warns_on_type_mismatch (c : Cloudinary) (filePath : jsstring)
    (options : gmap string JsVal) (w : Server) :
  sv_errors (sv_events (fst (uploadToCloudinary c filePath options w))) =
    sv_errors (sv_events w) ++
    match uploader_upload c filePath (baseConfig options) with
    | Ret res =>
        if intended_raw options && negb (bool_decide (resource_type res = raw))
        then ["WARNING: PDF uploaded but resource_type is not raw!"%string]
        else []
    | Throw _ => []
    end /\
  sv_errors (sv_events (fst (notice_upload c filePath w))) =
    sv_errors (sv_events w).
Proof.
  assert (forall options,
    sv_errors (sv_events (fst (uploadToCloudinary c filePath options w))) =
    sv_errors (sv_events w) ++
    match uploader_upload c filePath (baseConfig options) with
    | Ret res =>
        if type_mismatch options res then [mismatch_warning] else []
    | Throw _ => []
    end) as H.
  { intros o.
    destruct (uploader_upload c filePath (baseConfig o)) as [res|e] eqn:Hup.
    - destruct (uploadToCloudinary_events c filePath o w res Hup)
        as (fixed & _ & Hf & ->).
      unfold sv_errors in *. rewrite !omap_app, Hf.
      destruct (type_mismatch o res); cbn; by rewrite ?app_nil_r.
    - unfold uploadToCloudinary, try_catch, bind, store_upload, sv_emit.
      cbn [files sv_events]. rewrite Hup.
      unfold unlinkSync, existsSync, ret, throw. cbn [files sv_events].
      destruct (bool_decide (filePath ∈ files w)) eqn:Hin;
        cbn [files sv_events fst]; rewrite ?Hin; cbn [files sv_events fst];
        unfold sv_errors; rewrite <- ?app_assoc, !omap_app; reflexivity. }
  split; [apply H|].
  unfold notice_upload. rewrite H.
  destruct (uploader_upload c filePath (baseConfig ∅)); by rewrite app_nil_r.
Qed.

(* --------------------------------------------------------------------- *)
(** ** The notice controller                                               *)
(* --------------------------------------------------------------------- *)

Lemma difference_twice (fs : gset jsstring) (p : jsstring) :
  fs ∖ {[p]} ∖ {[p]} = fs ∖ {[p]}.
Proof. symmetry. apply remove_missing_file, removed_file_is_gone. Qed.

Lemma remove_if_exists_run (p : jsstring) (b : Backend) :
  remove_if_exists p b =
  (mkBackend (mkServer (files (server b) ∖ {[p]}) (sv_events (server b)))
     (ctl_events b), Ret tt).
Proof.
  unfold remove_if_exists, bind, on_server, existsSync, unlinkSync, ret.
  destruct b as [[fs evs] cevs]. cbn [server files sv_events ctl_events].
  destruct (bool_decide (p ∈ fs)) eqn:Hin; cbn [server files sv_events ctl_events].
  - by rewrite Hin.
  - apply bool_decide_eq_false in Hin.
    by rewrite <- (remove_missing_file fs p Hin).
Qed.

(** The upload of a controller, as a step of the backend. *)
Lemma on_server_upload_run (c : Cloudinary) (p : jsstring)
    (options : gmap string JsVal) (b : Backend) :
  exists evs,
    store_calls evs = [(p, baseConfig options)] /\
    on_server (uploadToCloudinary c p options) b =
    (mkBackend (mkServer (files (server b) ∖ {[p]}) (sv_events (server b) ++ evs))
       (ctl_events b),
     snd (uploadToCloudinary c p options (server b))).
Proof.
  destruct (uploadToCloudinary_run c p options (server b)) as (evs & Hcalls & Hrun).
  exists evs. split; [exact Hcalls|]. unfold on_server.
  destruct (uploader_upload c p (baseConfig options)) as [res|e].
  - destruct Hrun as (res' & _ & _ & _ & _ & ->). reflexivity.
  - by rewrite Hrun.
Qed.

(** A complete account of one call of [createNotice]. *)
Lemma createNotice_run (c : Cloudinary) (m : NoticeModel) (req : NoticeRequest)
    (b : Backend) :
  exists fs' svs cevs,
    createNotice c m req b =
      (mkBackend (mkServer fs' (sv_events (server b) ++ svs))
         (ctl_events b ++ cevs), Ret tt) /\
    if missing_required req then
      fs' = files (server b) /\ svs = [] /\
      cevs = [CtlReply 400 false "Title, content, and author are required"]
    else
      match parse_tags (req_tags req) with
      | Throw _ =>
          fs' = without_staged (files (server b)) (req_file req) /\
          store_calls svs = [] /\
          cevs = [CtlReply 500 false "Server error while creating notice"]
      | Ret tags =>
          match req_file req with
          | None =>
              fs' = files (server b) /\ store_calls svs = [] /\
              cevs = saved_reply m (new_notice req tags None) 201
                       "Notice created successfully"
                       "Server error while creating notice"
          | Some file =>
              fs' = files (server b) ∖ {[file_path file]} /\
              store_calls svs = [(file_path file, baseConfig ∅)] /\
              match snd (uploadToCloudinary c (file_path file) ∅ (server b)) with
              | Throw _ =>
                  cevs = [CtlReply 500 false "Failed to upload PDF file"]
              | Ret res =>
                  cevs = saved_reply m
                           (new_notice req tags (Some (stored_file res file))) 201
                           "Notice created successfully"
                           "Server error while creating notice"
              end
          end
      end.
Proof.
  destruct b as [[fs evs0] cevs0]. cbn [server files sv_events ctl_events].
  unfold createNotice. fold (missing_required req).
  destruct (missing_required req).
  { exists fs, [], [CtlReply 400 false "Title, content, and author are required"].
    split; [|done]. cbn. by rewrite app_nil_r. }
  unfold try_catch at 1. unfold bind at 1. unfold lift at 1.
  destruct (parse_tags (req_tags req)) as [tags|e].
  2: { unfold bind, ctl_console_error, on_server, sv_emit, reply, ctl_emit.
       cbn [server files sv_events ctl_events].
       destruct (req_file req) as [file|]; cbn [without_staged].
       - rewrite remove_if_exists_run. cbn [server files sv_events ctl_events].
         eexists _, _, _. split; [reflexivity|done].
       - unfold ret. eexists _, _, _. split; [reflexivity|done]. }
  destruct (req_file req) as [file|]; cbn [without_staged].
  - unfold bind at 1. unfold try_catch at 1. unfold bind at 1.
    destruct (on_server_upload_run c (file_path file) ∅
                (mkBackend (mkServer fs evs0) cevs0)) as (evs & Hcalls & ->).
    cbn [server files sv_events ctl_events].
    destruct (snd (uploadToCloudinary c (file_path file) ∅ (mkServer fs evs0)))
      as [res|e].
    + unfold ret at 1. unfold bind, ctl_call, reply, ctl_emit, saved_reply.
      cbn [server files sv_events ctl_events].
      fold (new_notice req tags (Some (stored_file res file))).
      destruct (model_save m _) as [[]|e].
      * eexists _, _, _. split; [by rewrite <- app_assoc|done].
      * unfold ctl_console_error, on_server, sv_emit.
        cbn [server files sv_events ctl_events].
        rewrite remove_if_exists_run. cbn [server files sv_events ctl_events].
        rewrite difference_twice.
        eexists _, _, _. split; [by rewrite <- !app_assoc|].
        split; [done|]. split; [|done].
        rewrite store_calls_app, Hcalls. reflexivity.
    + unfold bind, ctl_console_error, on_server, sv_emit, reply, ctl_emit, ret.
      cbn [server files sv_events ctl_events].
      rewrite remove_if_exists_run. cbn [server files sv_events ctl_events].
      rewrite difference_twice.
      eexists _, _, _. split; [by rewrite <- ?app_assoc|].
      split; [done|]. split; [|done].
      rewrite store_calls_app, Hcalls. reflexivity.
  - unfold bind at 1. unfold ret at 1.
    unfold bind, ctl_call, reply, ctl_emit, saved_reply.
    cbn [server files sv_events ctl_events].
    fold (new_notice req tags None).
    destruct (model_save m _) as [[]|e].
    + exists fs, [], [CtlSave (new_notice req tags None);
                      CtlReply 201 true "Notice created successfully"].
      split; [|done]. by rewrite app_nil_r, <- app_assoc.
    + unfold ctl_console_error, on_server, sv_emit, ret.
      cbn [server files sv_events ctl_events].
      eexists _, _, _. split; [by rewrite <- ?app_assoc|done].
Qed.

Lemma split_on_nonempty (sep : ascii) (s : jsstring) : split_on sep s <> [].
Proof.
  destruct s as [|c s]; cbn [split_on]; [discriminate|].
  destruct (chr_eqb c sep); [discriminate|].
  by destruct (split_on sep s).
Qed.

Lemma parse_tags_trimmed (tags : JsVal) (l : list jsstring) :
  parse_tags tags = Ret l -> Forall (fun t => trim t = t) l.
Proof.
  unfold parse_tags. destruct (truthy tags); [|intros [= <-]; constructor].
  destruct (as_string "split" tags) as [s|e]; cbn [obind]; [|discriminate].
  intros [= <-]. apply Forall_map, Forall_forall. intros t _.
  apply trim_idempotent.
Qed.

Lemma saved_reply_reads (m : NoticeModel) (n : Notice) (code : N)
    (done failed : string) :
  saves (saved_reply m n code done failed) = [n] /\
  destroys (saved_reply m n code done failed) = [] /\
  deletions (saved_reply m n code done failed) = [] /\
  replies (saved_reply m n code done failed) =
    [match model_save m n with
     | Ret _ => (code, true, done)
     | Throw _ => (500%N, false, failed)
     end].
Proof. unfold saved_reply. by destruct (model_save m n). Qed.

(** X15. [createNotice] answers every request exactly once and never
    throws, whatever the store and the database do.  The answer is 201, 400
    or 500, and it reports success exactly when it is 201.  A 201 means that
    one record was saved and accepted by the database: it holds the title,
    content and author of the request, all present, tags without white space
    around them, and a stored file exactly when the request had a staged
    file.  After any other answer either nothing was saved or the database
    refused the record.  The function never deletes anything in the store or
    in the database. *)
Theorem createNotice_answers_once (c : Cloudinary) (m : NoticeModel)
    (req : NoticeRequest) (b : Backend) :
  snd (createNotice c m req b) = Ret tt /\
  exists evs code msg,
    ctl_events (fst (createNotice c m req b)) = ctl_events b ++ evs /\
    destroys evs = [] /\ deletions evs = [] /\
    replies evs = [(code, N.eqb code 201, msg)] /\
    (code = 201 \/ code = 400 \/ code = 500)%N /\
    if N.eqb code 201 then
      exists n,
        saves evs = [n] /\ model_save m n = Ret tt /\
        n_title n = req_title req /\ n_content n = req_content req /\
        n_author n = req_author req /\
        truthy (n_title n) && truthy (n_content n) && truthy (n_author n) = true /\
        Forall (fun t => trim t = t) (n_tags n) /\
        (n_pdfFile n = None <-> req_file req = None)
    else
      saves evs = [] \/ exists n e, saves evs = [n] /\ model_save m n = Throw e.
Proof.
  destruct (createNotice_run c m req b) as (fs' & svs & cevs & -> & H).
  split; [reflexivity|]. cbn [fst ctl_events]. exists cevs.
  unfold missing_required in H.
  destruct (truthy (req_title req)) eqn:Ht, (truthy (req_content req)) eqn:Hc,
    (truthy (req_author req)) eqn:Ha; cbn [negb orb] in H;
    try (destruct H as (_ & _ & ->);
         exists 400%N, "Title, content, and author are required"%string;
         cbn; by eauto 10).
  destruct (parse_tags (req_tags req)) as [tags|e] eqn:Htags.
  2: { destruct H as (_ & _ & ->).
       exists 500%N, "Server error while creating notice"%string.
       cbn. by eauto 10. }
  pose proof (parse_tags_trimmed _ _ Htags) as Htrim.
  assert (forall pdf,
    (pdf = None <-> req_file req = None) ->
    cevs = saved_reply m (new_notice req tags pdf) 201
             "Notice created successfully" "Server error while creating notice" ->
    exists code msg,
      cevs = cevs /\ destroys cevs = [] /\ deletions cevs = [] /\
      replies cevs = [(code, N.eqb code 201, msg)] /\
      (code = 201 \/ code = 400 \/ code = 500)%N /\
      if N.eqb code 201 then
        exists n,
          saves cevs = [n] /\ model_save m n = Ret tt /\
          n_title n = req_title req /\ n_content n = req_content req /\
          n_author n = req_author req /\
          truthy (n_title n) && truthy (n_content n) && truthy (n_author n) = true /\
          Forall (fun t => trim t = t) (n_tags n) /\
          (n_pdfFile n = None <-> req_file req = None)
      else
        saves cevs = [] \/ exists n e, saves cevs = [n] /\ model_save m n = Throw e)
    as Hsaved.
  { intros pdf Hpdf ->.
    destruct (saved_reply_reads m (new_notice req tags pdf) 201
                "Notice created successfully" "Server error while creating notice")
      as (Hs & Hd & Hx & Hr).
    rewrite Hs, Hd, Hx, Hr.
    destruct (model_save m (new_notice req tags pdf)) as [[]|e] eqn:Hsave.
    - exists 201%N, "Notice created successfully"%string.
      repeat (split; [done|]). split; [by left|].
      cbn [N.eqb Pos.eqb]. exists (new_notice req tags pdf).
      split; [done|]. split; [exact Hsave|].
      cbn [new_notice n_title n_content n_author n_tags n_pdfFile].
      rewrite Ht, Hc, Ha. do 5 (split; [done|]). exact Hpdf.
    - exists 500%N, "Server error while creating notice"%string.
      repeat (split; [done|]). split; [by right; right|].
      cbn [N.eqb Pos.eqb]. right. by exists (new_notice req tags pdf), e. }
  destruct (req_file req) as [file|] eqn:Hfile.
  - destruct H as (_ & _ & H).
    destruct (snd (uploadToCloudinary c (file_path file) ∅ (server b)))
      as [res|e].
    + destruct (Hsaved (Some (stored_file res file))) as (code & msg & _ & Hrest);
        [done|exact H|].
      by exists code, msg.
    + subst cevs. exists 500%N, "Failed to upload PDF file"%string.
      cbn. by eauto 10.
  - destruct H as (_ & _ & H).
    destruct (Hsaved None) as (code & msg & _ & Hrest); [done|exact H|].
    by exists code, msg.
Qed.

(** X16. The staged file of [createNotice].  When a required field is
    missing the request is answered before the staged file is looked at:
    the disk is left as it was, so a staged file stays on it, and the store
    is not called.  On every other path the staged file is gone from the
    disk afterwards and no other file is touched; the store is called once,
    with no options, exactly when the tags could be read and there is a
    staged file. *)
Theorem createNotice_staged_file (c : Cloudinary) (m : NoticeModel)
    (req : NoticeRequest) (b : Backend) :
  files (server (fst (createNotice c m req b))) =
    (if missing_required req then files (server b)
     else without_staged (files (server b)) (req_file req)) /\
  store_calls (sv_events (server (fst (createNotice c m req b)))) =
    store_calls (sv_events (server b)) ++
    (if missing_required req then []
     else match parse_tags (req_tags req), req_file req with
          | Ret _, Some file => [(file_path file, baseConfig ∅)]
          | _, _ => []
          end).
Proof.
  destruct (createNotice_run c m req b) as (fs' & svs & cevs & -> & H).
  cbn [fst server files sv_events]. rewrite store_calls_app.
  destruct (missing_required req).
  { destruct H as (-> & -> & _). by split. }
  destruct (parse_tags (req_tags req)) as [tags|e].
  2: { destruct H as (-> & -> & _). split; [done|].
       by destruct (req_file req). }
  destruct (req_file req) as [file|].
  - destruct H as (-> & -> & _). by split.
  - destruct H as (-> & -> & _). by split.
Qed.

(** The result of an upload depends on the disk and on the store only, not
    on what was written to the console before. *)
Lemma upload_outcome_indep (c : Cloudinary) (p : jsstring)
    (options : gmap string JsVal) (w w' : Server) :
  files w = files w' ->
  snd (uploadToCloudinary c p options w) = snd (uploadToCloudinary c p options w').
Proof.
  destruct w as [fs evs], w' as [fs' evs']. cbn [files]. intros <-.
  unfold uploadToCloudinary, try_catch, bind, store_upload, sv_emit.
  cbn [files sv_events].
  destruct (uploader_upload c p (baseConfig options)) as [res|e].
  - assert (exists res', forall evs0, exists evs1,
      fix_raw_url options res (mkServer fs evs0) = (mkServer fs evs1, Ret res'))
      as (res' & Hfix).
    { unfold fix_raw_url.
      destruct (_ || _); [|exists res; intros; by eexists].
      destruct (secure_url res) as [[|? ?]|]; try (exists res; intros; by eexists).
      destruct (includes _ _); [|exists res; intros; by eexists].
      eexists. intros. by eexists. }
    destruct (is_str (prop options "resource_type") raw &&
              negb (bool_decide (resource_type res = raw)));
      unfold ret; cbn [files sv_events];
      match goal with
      | |- context [fix_raw_url options res (mkServer fs ?a)] =>
          destruct (Hfix a) as (e1 & ->)
      end;
      match goal with
      | |- context [fix_raw_url options res (mkServer fs ?a)] =>
          destruct (Hfix a) as (e2 & ->)
      end;
      unfold unlinkSync, existsSync, ret, throw; cbn [files sv_events];
      destruct (bool_decide (p ∈ fs)) eqn:Hin; cbn [files sv_events snd];
      rewrite ?Hin; reflexivity.
  - unfold unlinkSync, existsSync, ret, throw. cbn [files sv_events].
    destruct (bool_decide (p ∈ fs)) eqn:Hin; cbn [files sv_events snd];
      rewrite ?Hin; reflexivity.
Qed.

(** A complete account of [deleteFromCloudinary]. *)
Lemma deleteFromCloudinary_run (m : NoticeModel) (publicId resourceType : JsVal)
    (b : Backend) :
  let config : gmap string JsVal :=
    {["resource_type" := default_param resourceType (VStr (str "image"))]} in
  deleteFromCloudinary m publicId resourceType b =
  if truthy publicId then
    (mkBackend
       (mkServer (files (server b))
          (sv_events (server b) ++
           [match uploader_destroy m publicId config with
            | Ret _ => SvLog "Deleted file from Cloudinary:"
            | Throw _ => SvError "Error deleting file from Cloudinary:"
            end]))
       (ctl_events b ++ [CtlDestroy publicId config]), Ret tt)
  else (b, Ret tt).
Proof.
  unfold deleteFromCloudinary, try_catch, bind, ctl_call, ctl_console_error,
    on_server, sv_emit, ret.
  destruct (truthy publicId); [|reflexivity].
  cbn [server files sv_events ctl_events].
  by destruct (uploader_destroy m publicId _) as [[]|e].
Qed.

(** X17. [deleteFromCloudinary] never throws.  It asks the store to delete
    exactly when the public id is truthy, once, with the resource type it
    was given, or image when it was given none.  A failure of the store is
    written to the console and nothing else: the caller cannot tell it from
    a success.  The disk is not touched. *)
Theorem deleteFromCloudinary_swallows_errors (m : NoticeModel)
    (publicId resourceType : JsVal) (b : Backend) :
  let run := deleteFromCloudinary m publicId resourceType b in
  let config : gmap string JsVal :=
    {["resource_type" := default_param resourceType (VStr (str "image"))]} in
  snd run = Ret tt /\
  files (server (fst run)) = files (server b) /\
  ctl_events (fst run) =
    ctl_events b ++
    (if truthy publicId then [CtlDestroy publicId config] else []) /\
  sv_errors (sv_events (server (fst run))) =
    sv_errors (sv_events (server b)) ++
    (if truthy publicId then
       match uploader_destroy m publicId config with
       | Ret _ => []
       | Throw _ => ["Error deleting file from Cloudinary:"%string]
       end
     else []).
Proof.
  intros run config. subst run. rewrite deleteFromCloudinary_run.
  fold config. destruct (truthy publicId); cbn [fst snd server files sv_events
    ctl_events].
  - repeat (split; [reflexivity|]). unfold sv_errors. rewrite omap_app.
    by destruct (uploader_destroy m publicId config).
  - by rewrite !app_nil_r.
Qed.

Lemma delete_old_file_step {A} (m : NoticeModel) (notice : Notice)
    (k : unit -> @M Backend A) (b : Backend) :
  exists svs,
    store_calls svs = [] /\
    bind (if truthy (old_publicId notice)
          then deleteFromCloudinary m (old_publicId notice) VUndef
          else ret tt) k b =
    k tt (mkBackend (mkServer (files (server b)) (sv_events (server b) ++ svs))
            (ctl_events b ++ old_file_destroyed notice)).
Proof.
  destruct b as [[fs evs] cevs]. unfold bind, old_file_destroyed.
  destruct (truthy (old_publicId notice)) eqn:Hp.
  - rewrite deleteFromCloudinary_run, Hp. cbn [server files sv_events ctl_events].
    eexists [_]. split; [|reflexivity].
    by destruct (uploader_destroy m _ _).
  - exists []. split; [reflexivity|]. unfold ret. cbn. by rewrite !app_nil_r.
Qed.

Lemma old_file_destroyed_reads (notice : Notice) :
  destroys (old_file_destroyed notice) =
    (if truthy (old_publicId notice)
     then [(old_publicId notice, destroy_config)] else []) /\
  saves (old_file_destroyed notice) = [] /\
  deletions (old_file_destroyed notice) = [] /\
  replies (old_file_destroyed notice) = [].
Proof. unfold old_file_destroyed. by destruct (truthy (old_publicId notice)). Qed.

(** A complete account of one call of [deleteNotice]. *)
Lemma deleteNotice_run (m : NoticeModel) (req : NoticeRequest) (b : Backend) :
  exists svs evs,
    deleteNotice m req b =
      (mkBackend (mkServer (files (server b)) (sv_events (server b) ++ svs))
         (ctl_events b ++ evs), Ret tt) /\
    store_calls svs = [] /\
    match model_findById m (req_id req) with
    | Throw _ =>
        evs = [CtlFind (req_id req);
               CtlReply 500 false "Server error while deleting notice"]
    | Ret None =>
        evs = [CtlFind (req_id req); CtlReply 404 false "Notice not found"]
    | Ret (Some notice) =>
        evs = CtlFind (req_id req) :: old_file_destroyed notice ++
              [CtlDelete (req_id req);
               match model_findByIdAndDelete m (req_id req) with
               | Ret _ => CtlReply 200 true "Notice deleted successfully"
               | Throw _ =>
                   CtlReply 500 false "Server error while deleting notice"
               end]
    end.
Proof.
  destruct b as [[fs evs0] cevs0].
  unfold deleteNotice, try_catch. unfold bind at 1. unfold ctl_call at 1.
  cbn [server files sv_events ctl_events].
  destruct (model_findById m (req_id req)) as [[notice|]|e].
  - match goal with
    | |- context [bind _ ?k ?b0] =>
        destruct (delete_old_file_step m notice k b0) as (svs & Hc & ->)
    end.
    unfold bind, ctl_call, reply, ctl_emit, ctl_console_error, on_server,
      sv_emit, ret.
    cbn [server files sv_events ctl_events].
    destruct (model_findByIdAndDelete m (req_id req)) as [[]|e];
      cbn [fst snd server files sv_events ctl_events].
    + exists svs. eexists. split; [|split; [exact Hc|reflexivity]].
      rewrite <- !app_assoc. reflexivity.
    + exists (svs ++ [SvError "Delete notice error:"]). eexists.
      split; [|split; [by rewrite store_calls_app, Hc|reflexivity]].
      rewrite <- !app_assoc. reflexivity.
  - unfold reply, ctl_emit. cbn [fst snd server files sv_events ctl_events].
    exists []. eexists. split; [|split; reflexivity].
    rewrite app_nil_r, <- !app_assoc. reflexivity.
  - unfold bind, reply, ctl_emit, ctl_console_error, on_server, sv_emit.
    cbn [fst snd server files sv_events ctl_events].
    exists [SvError "Delete notice error:"]. eexists.
    split; [|split; reflexivity].
    rewrite <- !app_assoc. reflexivity.
Qed.

(** X18. [deleteNotice] answers every request exactly once and never
    throws.  When the notice is found, its record is deleted whatever the
    store answered to the deleting of its file: the answer is 200 exactly
    when the database deleted the record, also when the file is still in the
    store.  The store is asked to delete only for a notice with a public id,
    and always as an image.  Nothing is saved and the disk is not touched. *)
Theorem deleteNotice_outcome (m : NoticeModel) (req : NoticeRequest)
    (b : Backend) :
  let run := deleteNotice m req b in
  snd run = Ret tt /\
  files (server (fst run)) = files (server b) /\
  exists evs,
    ctl_events (fst run) = ctl_events b ++ evs /\
    saves evs = [] /\
    match model_findById m (req_id req) with
    | Throw _ =>
        replies evs = [(500%N, false, "Server error while deleting notice"%string)] /\
        destroys evs = [] /\ deletions evs = []
    | Ret None =>
        replies evs = [(404%N, false, "Notice not found"%string)] /\
        destroys evs = [] /\ deletions evs = []
    | Ret (Some notice) =>
        destroys evs =
          (if truthy (old_publicId notice)
           then [(old_publicId notice, destroy_config)] else []) /\
        deletions evs = [req_id req] /\
        replies evs =
          [match model_findByIdAndDelete m (req_id req) with
           | Ret _ => (200%N, true, "Notice deleted successfully"%string)
           | Throw _ => (500%N, false, "Server error while deleting notice"%string)
           end]
    end.
Proof.
  intros run. subst run.
  destruct (deleteNotice_run m req b) as (svs & evs & -> & _ & H).
  cbn [fst snd server files ctl_events].
  split; [reflexivity|]. split; [reflexivity|].
  exists evs. split; [reflexivity|].
  destruct (model_findById m (req_id req)) as [[notice|]|e]; subst evs;
    [|done|done].
  destruct (old_file_destroyed_reads notice) as (Hd & Hs & Hx & Hr).
  unfold saves, destroys, deletions, replies in *.
  change (CtlFind (req_id req) :: old_file_destroyed notice ++ ?l)
    with ([CtlFind (req_id req)] ++ old_file_destroyed notice ++ l).
  rewrite !omap_app, Hd, Hs, Hx, Hr.
  destruct (model_findByIdAndDelete m (req_id req)),
    (truthy (old_publicId notice)); cbn; by repeat split.
Qed.

(** A complete account of one call of [updateNotice]. *)
Lemma updateNotice_run (c : Cloudinary) (m : NoticeModel) (req : NoticeRequest)
    (b : Backend) :
  exists fs' svs evs,
    updateNotice c m req b =
      (mkBackend (mkServer fs' (sv_events (server b) ++ svs))
         (ctl_events b ++ CtlFind (req_id req) :: evs), Ret tt) /\
    match model_findById m (req_id req) with
    | Throw _ =>
        fs' = without_staged (files (server b)) (req_file req) /\
        store_calls svs = [] /\
        evs = [CtlReply 500 false "Server error while updating notice"]
    | Ret None =>
        fs' = files (server b) /\ svs = [] /\
        evs = [CtlReply 404 false "Notice not found"]
    | Ret (Some notice0) =>
        match update_fields req notice0 with
        | Throw _ =>
            fs' = without_staged (files (server b)) (req_file req) /\
            store_calls svs = [] /\
            evs = [CtlReply 500 false "Server error while updating notice"]
        | Ret notice =>
            match req_file req with
            | None =>
                fs' = files (server b) /\ store_calls svs = [] /\
                evs = saved_reply m (with_file notice (n_pdfFile notice)) 200
                        "Notice updated successfully"
                        "Server error while updating notice"
            | Some file =>
                fs' = files (server b) ∖ {[file_path file]} /\
                store_calls svs = [(file_path file, baseConfig ∅)] /\
                match snd (uploadToCloudinary c (file_path file) ∅ (server b)) with
                | Throw _ =>
                    evs = old_file_destroyed notice ++
                          [CtlReply 500 false "Failed to upload new PDF file"]
                | Ret res =>
                    evs = old_file_destroyed notice ++
                          saved_reply m
                            (with_file notice (Some (stored_file res file))) 200
                            "Notice updated successfully"
                            "Server error while updating notice"
                end
            end
        end
    end.
Proof.
  destruct b as [[fs evs0] cevs0]. cbn [server files sv_events ctl_events].
  unfold updateNotice. unfold try_catch at 1. unfold bind at 1.
  unfold ctl_call at 1. cbn [server files sv_events ctl_events].
  destruct (model_findById m (req_id req)) as [[notice0|]|e].
  3: { unfold bind, ctl_console_error, on_server, sv_emit, reply, ctl_emit.
       cbn [server files sv_events ctl_events].
       destruct (req_file req) as [file|]; cbn [without_staged].
       - rewrite remove_if_exists_run. cbn [server files sv_events ctl_events].
         rewrite <- ?app_assoc. cbn [app].
         eexists _, _, _. split; [reflexivity|done].
       - unfold ret. cbn [server files sv_events ctl_events].
         rewrite <- ?app_assoc. cbn [app].
         eexists _, _, _. split; [reflexivity|done]. }
  2: { unfold reply, ctl_emit. cbn [server files sv_events ctl_events].
       exists fs, [], [CtlReply 404 false "Notice not found"].
       split; [|done]. by rewrite app_nil_r, <- !app_assoc. }
  unfold bind at 1. unfold lift at 1.
  destruct (update_fields req notice0) as [notice|e].
  2: { unfold bind, ctl_console_error, on_server, sv_emit, reply, ctl_emit.
       cbn [server files sv_events ctl_events].
       destruct (req_file req) as [file|]; cbn [without_staged].
       - rewrite remove_if_exists_run. cbn [server files sv_events ctl_events].
         rewrite <- ?app_assoc. cbn [app].
         eexists _, _, _. split; [reflexivity|done].
       - unfold ret. cbn [server files sv_events ctl_events].
         rewrite <- ?app_assoc. cbn [app].
         eexists _, _, _. split; [reflexivity|done]. }
  destruct (req_file req) as [file|] eqn:Hfile; cbn [without_staged] in *.
  - unfold bind at 1. unfold try_catch at 1.
    match goal with
    | |- context [bind (if truthy _ then _ else _) ?k ?b0] =>
        destruct (delete_old_file_step m notice k b0) as (dsv & Hd & ->)
    end.
    cbn [server files sv_events ctl_events]. unfold bind at 1.
    match goal with
    | |- context [on_server (uploadToCloudinary c (file_path file) ∅) ?b0] =>
        destruct (on_server_upload_run c (file_path file) ∅ b0)
          as (usv & Hu & ->);
        rewrite (upload_outcome_indep c (file_path file) ∅ (server b0)
                   (mkServer fs evs0) eq_refl)
    end.
    cbn [server files sv_events ctl_events].
    destruct (snd (uploadToCloudinary c (file_path file) ∅ (mkServer fs evs0)))
      as [res|e].
    + unfold ret at 1. unfold bind at 1.
      unfold ctl_call, reply, ctl_emit, saved_reply.
      cbn [server files sv_events ctl_events].
      fold (with_file notice (Some (stored_file res file))).
      destruct (model_save m _) as [[]|e].
      * unfold bind. cbn [server files sv_events ctl_events].
        rewrite <- ?app_assoc. cbn [app].
        eexists _, (dsv ++ usv), _. split; [reflexivity|].
        split; [reflexivity|]. split; [|reflexivity].
        by rewrite store_calls_app, Hd, Hu.
      * unfold bind, ctl_console_error, on_server, sv_emit.
        cbn [server files sv_events ctl_events].
        rewrite remove_if_exists_run. cbn [server files sv_events ctl_events].
        rewrite difference_twice.
        rewrite <- ?app_assoc. cbn [app].
        eexists _, (dsv ++ usv ++ [SvError "Update notice error:"]), _.
        split; [reflexivity|].
        split; [reflexivity|]. split; [|reflexivity].
        by rewrite !store_calls_app, Hd, Hu.
    + unfold bind, ctl_console_error, on_server, sv_emit, reply, ctl_emit, ret.
      cbn [server files sv_events ctl_events].
      rewrite remove_if_exists_run. cbn [server files sv_events ctl_events].
      rewrite difference_twice.
      rewrite <- ?app_assoc. cbn [app].
      eexists _, (dsv ++ usv ++ [SvError "Cloudinary upload error:"]), _.
      split; [reflexivity|].
      split; [reflexivity|]. split; [|reflexivity].
      by rewrite !store_calls_app, Hd, Hu.
  - unfold bind at 1. unfold ret at 1.
    unfold bind, ctl_call, reply, ctl_emit, saved_reply.
    cbn [server files sv_events ctl_events].
    fold (with_file notice (n_pdfFile notice)).
    destruct (model_save m _) as [[]|e].
    + exists fs, [].
      exists [CtlSave (with_file notice (n_pdfFile notice));
              CtlReply 200 true "Notice updated successfully"].
      split; [|done]. rewrite app_nil_r, <- !app_assoc. reflexivity.
    + unfold ctl_console_error, on_server, sv_emit, ret.
      cbn [server files sv_events ctl_events].
      rewrite <- ?app_assoc. cbn [app].
      eexists _, [SvError "Update notice error:"], _.
      split; [reflexivity|done].
Qed.

Lemma update_fields_keeps_file (req : NoticeRequest) (notice0 notice : Notice) :
  update_fields req notice0 = Ret notice ->
  n_pdfFile notice = n_pdfFile notice0 /\
  old_publicId notice = old_publicId notice0.
Proof.
  unfold update_fields, old_publicId.
  destruct (if truthy (req_tags req) then _ else _) as [tags|e]; cbn [obind];
    [|discriminate].
  by intros [= <-].
Qed.

(** X19. Replacing the PDF of a notice is not atomic.  [updateNotice]
    asks the store to delete the old file before it uploads the new one.
    When the store then refuses the new file, the answer is 500, nothing is
    saved, and the stored notice still names the file that was just
    deleted.  The staged file is removed from the disk. *)
Theorem updateNotice_failed_upload_loses_old_file (c : Cloudinary)
    (m : NoticeModel) (req : NoticeRequest) (b : Backend)
    (notice0 notice : Notice) (file : StagedFile) (e : JsError) :
  model_findById m (req_id req) = Ret (Some notice0) ->
  update_fields req notice0 = Ret notice ->
  req_file req = Some file ->
  truthy (old_publicId notice0) = true ->
  uploader_upload c (file_path file) (baseConfig ∅) = Throw e ->
  let run := updateNotice c m req b in
  snd run = Ret tt /\
  files (server (fst run)) = files (server b) ∖ {[file_path file]} /\
  exists evs,
    ctl_events (fst run) = ctl_events b ++ evs /\
    destroys evs = [(old_publicId notice0, destroy_config)] /\
    saves evs = [] /\
    replies evs = [(500%N, false, "Failed to upload new PDF file"%string)].
Proof.
  intros Hfind Hupd Hfile Hold Hup run. subst run.
  destruct (updateNotice_run c m req b) as (fs' & svs & evs & -> & H).
  rewrite Hfind, Hupd, Hfile in H. destruct H as (-> & _ & H).
  destruct (uploadToCloudinary_run c (file_path file) ∅ (server b))
    as (uevs & _ & Hrun).
  rewrite Hup in Hrun. rewrite Hrun in H. cbn [snd] in H. subst evs.
  destruct (update_fields_keeps_file req notice0 notice Hupd) as [_ Hid].
  cbn [fst snd server files ctl_events].
  split; [reflexivity|]. split; [reflexivity|].
  eexists. split; [reflexivity|].
  unfold old_file_destroyed. rewrite Hid, Hold. by cbn.
Qed.

Lemma updateNotice_failed_upload_loses_old_file_witness :
  exists evs,
    ctl_events (fst (updateNotice (failing_store (HostError (str "quota exceeded")))
                       accepting_model replacing_request
                       (fresh {[staged_path]}))) = [] ++ evs /\
    destroys evs = [(VStr (str "jamalpur-chamber/agenda"), destroy_config)] /\
    saves evs = [] /\
    replies evs = [(500%N, false, "Failed to upload new PDF file"%string)].
Proof.
  exact (proj2 (proj2 (updateNotice_failed_upload_loses_old_file
    (failing_store (HostError (str "quota exceeded"))) accepting_model
    replacing_request (fresh {[staged_path]}) stored_notice stored_notice
    (mkStagedFile staged_path (VStr (str "agenda-v2.pdf"))
       (VStr (str "application/pdf")))
    (HostError (str "quota exceeded"))
    eq_refl eq_refl eq_refl eq_refl eq_refl))).
Defined.

(** X20. [updateNotice] answers every request exactly once and never
    throws.  The answer is 200, 404 or 500 and reports success exactly when
    it is 200; a 200 means that one record was saved and accepted by the
    database.  The function never deletes a record.  When the notice is not
    found the request is answered before the staged file is looked at, so a
    staged file stays on the disk; in every other case the staged file is
    gone afterwards and no other file is touched. *)
Theorem updateNotice_answers_once (c : Cloudinary) (m : NoticeModel)
    (req : NoticeRequest) (b : Backend) :
  let run := updateNotice c m req b in
  snd run = Ret tt /\
  files (server (fst run)) =
    (match model_findById m (req_id req) with
     | Ret None => files (server b)
     | _ => without_staged (files (server b)) (req_file req)
     end) /\
  exists evs code msg,
    ctl_events (fst run) = ctl_events b ++ CtlFind (req_id req) :: evs /\
    deletions evs = [] /\
    replies evs = [(code, N.eqb code 200, msg)] /\
    (code = 200 \/ code = 404 \/ code = 500)%N /\
    if N.eqb code 200
    then exists n, saves evs = [n] /\ model_save m n = Ret tt
    else saves evs = [] \/ exists n err, saves evs = [n] /\ model_save m n = Throw err.
Proof.
  intros run. subst run.
  destruct (updateNotice_run c m req b) as (fs' & svs & evs & -> & H).
  cbn [fst snd server files ctl_events]. split; [reflexivity|].
  assert (forall (pre : list ctl_event) (n : Notice),
    deletions pre = [] -> replies pre = [] -> saves pre = [] ->
    exists code msg,
      deletions (pre ++ saved_reply m n 200 "Notice updated successfully"
                          "Server error while updating notice") = [] /\
      replies (pre ++ saved_reply m n 200 "Notice updated successfully"
                        "Server error while updating notice") =
        [(code, N.eqb code 200, msg)] /\
      (code = 200 \/ code = 404 \/ code = 500)%N /\
      if N.eqb code 200
      then exists n',
             saves (pre ++ saved_reply m n 200 "Notice updated successfully"
                             "Server error while updating notice") = [n'] /\
             model_save m n' = Ret tt
      else saves (pre ++ saved_reply m n 200 "Notice updated successfully"
                           "Server error while updating notice") = [] \/
           exists n' err,
             saves (pre ++ saved_reply m n 200 "Notice updated successfully"
                             "Server error while updating notice") = [n'] /\
             model_save m n' = Throw err) as Hsaved.
  { intros pre n Hx Hr Hs.
    destruct (saved_reply_reads m n 200 "Notice updated successfully"
                "Server error while updating notice") as (Hs' & _ & Hx' & Hr').
    unfold deletions, replies, saves in *.
    rewrite !omap_app, Hx, Hr, Hs, Hx', Hr', Hs'. cbn [app].
    destruct (model_save m n) as [[]|err] eqn:Hsave.
    - exists 200%N, "Notice updated successfully"%string.
      do 2 (split; [reflexivity|]). split; [by left|].
      cbn [N.eqb Pos.eqb]. by exists n.
    - exists 500%N, "Server error while updating notice"%string.
      do 2 (split; [reflexivity|]). split; [by right; right|].
      cbn [N.eqb Pos.eqb]. right. by exists n, err. }
  destruct (model_findById m (req_id req)) as [[notice0|]|e].
  - destruct (update_fields req notice0) as [notice|e].
    + destruct (old_file_destroyed_reads notice) as (_ & Hs & Hx & Hr).
      destruct (req_file req) as [file|]; cbn [without_staged].
      * destruct H as (-> & _ & H). split; [reflexivity|].
        destruct (snd (uploadToCloudinary c (file_path file) ∅ (server b)))
          as [res|e]; subst evs.
        -- destruct (Hsaved (old_file_destroyed notice)
                       (with_file notice (Some (stored_file res file))) Hx Hr Hs)
             as (code & msg & Hrest).
           eexists _, code, msg. split; [reflexivity|exact Hrest].
        -- eexists _, 500%N, "Failed to upload new PDF file"%string.
           split; [reflexivity|].
           unfold deletions, replies, saves in *.
           rewrite !omap_app, Hx, Hr, Hs. cbn.
           repeat split; auto.
      * destruct H as (-> & _ & ->). split; [reflexivity|].
        destruct (Hsaved [] (with_file notice (n_pdfFile notice))
                    eq_refl eq_refl eq_refl) as (code & msg & Hrest).
        eexists _, code, msg. split; [reflexivity|exact Hrest].
    + destruct H as (-> & _ & ->). split; [reflexivity|].
      eexists _, 500%N, "Server error while updating notice"%string.
      split; [reflexivity|]. cbn. repeat split; auto.
  - destruct H as (-> & _ & ->). split; [reflexivity|].
    eexists _, 404%N, "Notice not found"%string.
    split; [reflexivity|]. cbn. repeat split; auto.
  - destruct H as (-> & _ & ->). split; [reflexivity|].
    eexists _, 500%N, "Server error while updating notice"%string.
    split; [reflexivity|]. cbn. repeat split; auto.
Qed.

(* --------------------------------------------------------------------- *)
(** ** From the upload filter to the download                              *)
(* --------------------------------------------------------------------- *)

Lemma allowed_mime_has_extension (v : JsVal) :
  array_includes allowedMimes v = true ->
  exists mime, v = VStr mime /\ ext_of_mime (toLowerCase mime) <> [].
Proof.
  destruct v as [| | |mime]; try discriminate. cbn [array_includes].
  intros H%bool_decide_eq_true. exists mime. split; [reflexivity|].
  unfold allowedMimes in H.
  repeat (apply elem_of_cons in H as [->|H]; [discriminate|]).
  by apply elem_of_nil in H.
Qed.

(** X21. A file that the upload filter accepts is offered for download
    under a name with an extension.  For every staged file whose MIME type
    passes [fileFilter], whatever the store answered, the descriptor kept
    with the notice gives [getFilename] a name that ends in an extension:
    the one of the original name, or the one inferred from the type.  The
    notice reports a file exactly when the handler accepts that descriptor,
    and the handler then takes the stored URL. *)
Theorem accepted_upload_downloads_with_extension (file : StagedFile)
    (res : UploadResult) (s : jsstring) (notice : Notice) :
  fileFilter (file_mimetype file) = Ret true ->
  getFilename (Some (descriptor_of (stored_file res file))) = Ret s ->
  test_has_extension s = true /\
  isValid (Some (descriptor_of (stored_file res file))) =
    hasFile (with_file notice (Some (stored_file res file))) /\
  (isValid (Some (descriptor_of (stored_file res file))) = true ->
   resolve_spec (descriptor_of (stored_file res file)) = Remote).
Proof.
  intros Hfilter Hname. unfold fileFilter in Hfilter.
  destruct (array_includes allowedMimes (file_mimetype file)) eqn:Hin;
    [|discriminate].
  destruct (allowed_mime_has_extension _ Hin) as (mime & Hm & Hext).
  split; [|split].
  - by apply (getFilename_extension_for
                (descriptor_of (stored_file res file)) mime s).
  - unfold isValid, descriptor_of, hasFile, with_file.
    cbn [url filename fileId data n_pdfFile].
    rewrite !truthy_js_or. cbn [truthy]. by rewrite !orb_false_r.
  - unfold isValid, resolve_spec, descriptor_of.
    cbn [url filename fileId data]. rewrite !truthy_js_or. cbn [truthy].
    rewrite !orb_false_r. by intros ->.
Qed.

Lemma accepted_upload_downloads_with_extension_witness :
  getFilename
    (Some (descriptor_of
             (stored_file
                (mkUploadResult (str "image") (Some plain_url) (str "notice") 2048)
                (mkStagedFile staged_path (VStr (str "agenda"))
                   (VStr (str "application/pdf")))))) = Ret (str "agenda.pdf") /\
  test_has_extension (str "agenda.pdf") = true.
Proof.
  split; [reflexivity|].
  exact (proj1 (accepted_upload_downloads_with_extension
    (mkStagedFile staged_path (VStr (str "agenda"))
       (VStr (str "application/pdf")))
    (mkUploadResult (str "image") (Some plain_url) (str "notice") 2048)
    (str "agenda.pdf") stored_notice eq_refl eq_refl)).
Defined.

(* --------------------------------------------------------------------- *)
(** ** The error middleware                                                *)
(* --------------------------------------------------------------------- *)

Lemma map_message_spec (values : list (option EhVal)) :
  match map_message values with
  | Ret messages => values = map Some messages
  | Throw _ => forallb readable_value values = false
  end.
Proof.
  induction values as [|[m|] values IH]; cbn [map_message]; [reflexivity| |reflexivity].
  destruct (map_message values) as [messages|e]; cbn [obind].
  - by rewrite IH.
  - cbn [forallb]. rewrite IH. apply andb_false_r.
Qed.

Lemma join_item_spec (m : EhVal) :
  match join_item m with
  | Ret _ => readable_value (Some m) = true
  | Throw _ => readable_value (Some m) = false
  end.
Proof. destruct m as [| |[]| | |t [s|e]]; reflexivity. Qed.

Lemma join_spec (sep : jsstring) (messages : list EhVal) :
  match join sep messages with
  | Ret _ => forallb readable_value (map Some messages) = true
  | Throw _ => forallb readable_value (map Some messages) = false
  end.
Proof.
  induction messages as [|m messages IH]; [reflexivity|].
  pose proof (join_item_spec m) as Hm.
  destruct messages as [|m' messages].
  - cbn [join map forallb]. rewrite andb_true_r. exact Hm.
  - change (join sep (m :: m' :: messages))
      with (first <~ join_item m ;; rest <~ join sep (m' :: messages) ;;
            Ret (first ++ sep ++ rest)).
    change (forallb readable_value (map Some (m :: m' :: messages)))
      with (readable_value (Some m) &&
            forallb readable_value (map Some (m' :: messages))).
    destruct (join_item m) as [first|e]; cbn [obind]; rewrite Hm; [|reflexivity].
    destruct (join sep (m' :: messages)) as [rest|e]; cbn [obind]; exact IH.
Qed.

(** The message of a validation error can be built exactly when [errors]
    is there and each of its values can be read. *)
Lemma validation_message_spec (errors : option (list (option EhVal))) :
  match validation_message errors with
  | Ret _ => exists values,
               errors = Some values /\ forallb readable_value values = true
  | Throw _ =>
      match errors with
      | None => True
      | Some values => forallb readable_value values = false
      end
  end.
Proof.
  unfold validation_message. destruct errors as [values|]; cbn [object_entries obind];
    [|exact I].
  pose proof (map_message_spec values) as Hmap.
  destruct (map_message values) as [messages|e]; cbn [obind]; [|exact Hmap].
  pose proof (join_spec (str ", ") messages) as Hjoin. subst values.
  destruct (join (str ", ") messages); [|exact Hjoin].
  by exists (map Some messages).
Qed.

(** A complete account of one call of [errorHandler]. *)
Lemma errorHandler_run (res : Responder) (NODE_ENV : option jsstring)
    (err : ErrObject) :
  if unreadable err then
    fst (errorHandler res NODE_ENV err) = [EhConsoleError] /\
    exists e, snd (errorHandler res NODE_ENV err) = Throw e
  else
    let error := settled NODE_ENV err (read_error err) in
    errorHandler res NODE_ENV err =
    ([EhConsoleError;
      EhReply (er_statusCode error) (er_success error) (er_message error)
        (if env_is NODE_ENV (str "development") then Some (err_stack err)
         else None)],
     res_json res (er_statusCode error) (er_success error) (er_message error)
       (if env_is NODE_ENV (str "development") then Some (err_stack err)
        else None)).
Proof.
  unfold errorHandler, unreadable, read_error, respond.
  pose proof (validation_message_spec (err_errors err)) as Hv.
  destruct (eh_is_str (err_name err) (str "ValidationError")); cbn [andb orb].
  - destruct (validation_message (err_errors err)) as [message|e].
    + destruct Hv as (values & -> & ->). cbn [negb orb].
      destruct (eh_is_int (err_code err) 11000); cbn [andb];
        [destruct (err_keyValue err) as [keys|]|]; cbn; eauto.
    + destruct (err_errors err) as [values|]; [rewrite Hv|]; cbn; eauto.
  - destruct (eh_is_int (err_code err) 11000); cbn [andb];
      [destruct (err_keyValue err) as [keys|]|]; cbn; eauto.
Qed.

Lemma settled_facts (NODE_ENV : option jsstring) (err : ErrObject)
    (error : ErrorReply) :
  er_success error = false ->
  er_statusCode error = EhInt 400 \/ er_statusCode error = EhInt 401 \/
  er_statusCode error = EhInt 500 ->
  er_success (settled NODE_ENV err error) = false /\
  (if eh_truthy (err_statusCode err)
   then er_statusCode (settled NODE_ENV err error) = err_statusCode err
   else er_statusCode (settled NODE_ENV err error) = EhInt 400 \/
        er_statusCode (settled NODE_ENV err error) = EhInt 401 \/
        er_statusCode (settled NODE_ENV err error) = EhInt 500) /\
  (if env_is NODE_ENV (str "production") &&
      eh_is_int (er_statusCode (settled NODE_ENV err error)) 500
   then er_message (settled NODE_ENV err error) =
          EhStr (str "Something went wrong")
   else True).
Proof.
  intros Hs Hc. unfold settled.
  set (e5 := if eh_is_str (err_code err) (str "LIMIT_UNEXPECTED_FILE")
             then _ else _).
  assert (er_success e5 = false /\
          (er_statusCode e5 = EhInt 400 \/ er_statusCode e5 = EhInt 401 \/
           er_statusCode e5 = EhInt 500)) as [H5 C5].
  { subst e5.
    destruct (eh_is_str (err_code err) (str "LIMIT_UNEXPECTED_FILE"));
      [by auto|].
    destruct (eh_is_str (err_code err) (str "LIMIT_FILE_SIZE")); [by auto|].
    destruct (eh_is_str (err_name err) (str "TokenExpiredError")); [by auto|].
    destruct (eh_is_str (err_name err) (str "JsonWebTokenError")); [by auto|].
    destruct (eh_is_str (err_name err) (str "CastError")); by auto. }
  clearbody e5. destruct e5 as [ok msg code].
  cbn [er_success er_statusCode] in H5, C5. subst ok.
  destruct (eh_truthy (err_statusCode err));
    cbn [er_success er_statusCode er_message];
    destruct (env_is NODE_ENV (str "production")); cbn [andb];
    try (destruct (eh_is_int code 500) eqn:E500);
    try (destruct (eh_is_int (err_statusCode err) 500) eqn:Ep);
    cbn [er_success er_statusCode er_message];
    rewrite ?E500, ?Ep; by repeat split.
Qed.

Lemma read_error_plain (err : ErrObject) :
  er_success (read_error err) = false /\
  (er_statusCode (read_error err) = EhInt 400 \/
   er_statusCode (read_error err) = EhInt 401 \/
   er_statusCode (read_error err) = EhInt 500).
Proof.
  unfold read_error.
  destruct (eh_is_int _ _); [by auto|].
  destruct (eh_is_str _ _); by auto.
Qed.

(** X22. The error middleware.  It writes the error to the console first.
    It throws a TypeError before it answers when it cannot read the error:
    a validation error whose [errors] is missing, or holds a value that is
    null or undefined or whose message cannot be turned into a string, and
    a duplicate-key error (code 11000) whose [keyValue] is missing.  For
    every other error it calls the response object exactly once, with
    [success] false; what that call does is the result of the middleware.
    The status it passes is the error's [statusCode] as it is, whenever
    that is truthy (a number or not), and 400, 401 or 500 otherwise.  The
    stack is part of the answer exactly in the development environment. *)
Theorem errorHandler_answers (res : Responder) (NODE_ENV : option jsstring)
    (err : ErrObject) :
  if unreadable err then
    fst (errorHandler res NODE_ENV err) = [EhConsoleError] /\
    exists e, snd (errorHandler res NODE_ENV err) = Throw e
  else
    exists code msg,
      let stack := if env_is NODE_ENV (str "development")
                   then Some (err_stack err) else None in
      fst (errorHandler res NODE_ENV err) =
        [EhConsoleError; EhReply code false msg stack] /\
      snd (errorHandler res NODE_ENV err) = res_json res code false msg stack /\
      if eh_truthy (err_statusCode err) then code = err_statusCode err
      else code = EhInt 400 \/ code = EhInt 401 \/ code = EhInt 500.
Proof.
  pose proof (errorHandler_run res NODE_ENV err) as Hrun.
  destruct (unreadable err); [exact Hrun|].
  cbv zeta in Hrun. rewrite Hrun. cbn [fst snd].
  destruct (read_error_plain err) as [Hs Hc].
  destruct (settled_facts NODE_ENV err (read_error err) Hs Hc) as (Hok & Hcode & _).
  eexists _, _. rewrite Hok. split; [reflexivity|]. split; [reflexivity|].
  exact Hcode.
Qed.

(** A validation error one of whose values is null: the middleware throws
    after the line on the console and sends no answer. *)
Example errorHandler_null_entry :
  errorHandler sending (Some (str "production")) null_entry_error =
  ([EhConsoleError], Throw (TypeError "message")).
Proof. reflexivity. Qed.

(** X23. What the middleware keeps from the client.  In production no
    answer carries a stack, and an answer whose status is the number 500
    carries the message Something went wrong.  Outside the development
    environment, neither the message nor the stack of an error without a
    truthy [statusCode] has any influence on the run: they are not sent.
    (In development the stack is sent, and with it whatever it holds.) *)
Theorem errorHandler_hides_details (res : Responder)
    (NODE_ENV : option jsstring) (err : ErrObject) :
  Forall (fun r : EhVal * bool * EhVal * option EhVal =>
            let '(code, _, msg, stack) := r in
            stack = None /\
            if eh_is_int code 500 then msg = EhStr (str "Something went wrong")
            else True)
    (eh_replies (fst (errorHandler res (Some (str "production")) err))) /\
  if eh_truthy (err_statusCode err) || env_is NODE_ENV (str "development")
  then True
  else forall m st,
         errorHandler res NODE_ENV (with_message_and_stack err m st) =
         errorHandler res NODE_ENV err.
Proof.
  split.
  - pose proof (errorHandler_run res (Some (str "production")) err) as Hrun.
    destruct (unreadable err).
    + destruct Hrun as [-> _]. constructor.
    + cbv zeta in Hrun. rewrite Hrun. cbn [fst].
      destruct (read_error_plain err) as [Hs Hc].
      destruct (settled_facts (Some (str "production")) err (read_error err) Hs Hc)
        as (_ & _ & Hmsg).
      cbn [eh_replies omap list_omap eh_reply_of].
      constructor; [|constructor]. split; [reflexivity|].
      change (env_is (Some (str "production")) (str "production")) with true in Hmsg.
      cbn [andb] in Hmsg. exact Hmsg.
  - destruct (eh_truthy (err_statusCode err)) eqn:Hst; [exact I|].
    destruct (env_is NODE_ENV (str "development")) eqn:Hdev; [exact I|].
    cbn [orb]. intros m st.
    unfold errorHandler, with_message_and_stack.
    cbn [err_name err_code err_errors err_keyValue err_statusCode err_message
         err_stack].
    by rewrite Hst, Hdev.
Qed.

(* --------------------------------------------------------------------- *)
(** ** The gallery controller: which image is deleted                      *)
(* --------------------------------------------------------------------- *)

Lemma split_on_free (sep : ascii) (s : jsstring) :
  free_of sep s = true -> split_on sep s = [s].
Proof.
  induction s as [|c s IH]; [reflexivity|].
  cbn [free_of forallb split_on]. intros [Hc Hs]%andb_true_iff.
  apply negb_true_iff in Hc. rewrite Hc.
  unfold free_of in IH. by rewrite (IH Hs).
Qed.

Lemma split_on_app (sep : ascii) (p r : jsstring) :
  split_on sep (p ++ sep :: r) = split_on sep p ++ split_on sep r.
Proof.
  induction p as [|c p IH]; cbn [app split_on].
  - unfold chr_eqb. by rewrite Ascii.eqb_refl.
  - destruct (chr_eqb c sep); [by rewrite IH|].
    rewrite IH. pose proof (split_on_nonempty sep p) as Hne.
    by destruct (split_on sep p).
Qed.

Lemma hd_split_on (sep : ascii) (s : jsstring) :
  List.hd [] (split_on sep s) =
  take_while (fun c => negb (chr_eqb c sep)) s.
Proof.
  induction s as [|c s IH]; [reflexivity|]. cbn [split_on take_while].
  destruct (chr_eqb c sep); cbn [negb]; [reflexivity|].
  pose proof (split_on_nonempty sep s) as Hne.
  destruct (split_on sep s); [done|]. cbn [List.hd] in *. by rewrite IH.
Qed.

Lemma take_while_until (sep : ascii) (name ext : jsstring) :
  take_while (fun c => negb (chr_eqb c sep)) (name ++ sep :: ext) =
  take_while (fun c => negb (chr_eqb c sep)) name.
Proof.
  induction name as [|c n IH]; cbn [app take_while].
  - unfold chr_eqb. by rewrite Ascii.eqb_refl.
  - destruct (chr_eqb c sep); cbn [negb]; [reflexivity|]. by rewrite IH.
Qed.

Lemma take_while_free (sep : ascii) (s : jsstring) :
  free_of sep s = true -> take_while (fun c => negb (chr_eqb c sep)) s = s.
Proof.
  induction s as [|c s IH]; [reflexivity|]. cbn [free_of forallb take_while].
  intros [-> Hs]%andb_true_iff. unfold free_of in IH. by rewrite (IH Hs).
Qed.

Lemma free_of_app (sep : ascii) (a b : jsstring) :
  free_of sep (a ++ b) = free_of sep a && free_of sep b.
Proof. unfold free_of. apply forallb_app. Qed.

(** X24. The image that [deleteImage] asks the store to delete.  For an
    image URL that ends in a file name with an extension, the public id is
    the gallery folder followed by the file name up to its first dot.  It is
    the name without its extension, so the image that was uploaded, exactly
    when the name holds no dot of its own; a name with a dot is cut at that
    dot. *)
Theorem deleteImage_publicId_of_url (prefix name ext : jsstring) :
  free_of "/" name = true ->
  free_of "/" ext = true ->
  deleteImage_publicId (prefix ++ str "/" ++ name ++ str "." ++ ext) =
    str "jamalpur-chamber/gallery/" ++
    take_while (fun c => negb (chr_eqb c ".")) name /\
  (deleteImage_publicId (prefix ++ str "/" ++ name ++ str "." ++ ext) =
     str "jamalpur-chamber/gallery/" ++ name <->
   free_of "." name = true).
Proof.
  intros Hname Hext.
  assert (deleteImage_publicId (prefix ++ str "/" ++ name ++ str "." ++ ext) =
          str "jamalpur-chamber/gallery/" ++
          take_while (fun c => negb (chr_eqb c ".")) name) as Hid.
  { unfold deleteImage_publicId. cbn zeta.
    change (prefix ++ str "/" ++ name ++ str "." ++ ext)
      with (prefix ++ "/"%char :: (name ++ "."%char :: ext)).
    rewrite split_on_app.
    rewrite (split_on_free "/" (name ++ "."%char :: ext)).
    2: { rewrite free_of_app, Hname. cbn [andb free_of forallb].
         unfold free_of in Hext. by rewrite Hext. }
    rewrite List.last_last, hd_split_on, take_while_until. reflexivity. }
  split; [exact Hid|]. rewrite Hid. split.
  - intros H. apply app_inv_head in H.
    clear -H. induction name as [|c n IH]; [reflexivity|].
    cbn [take_while] in H. cbn [free_of forallb].
    destruct (negb (chr_eqb c ".")); [|discriminate].
    injection H as H. unfold free_of in IH. by rewrite (IH H).
  - intros H. by rewrite (take_while_free "." name H).
Qed.

Lemma deleteImage_publicId_of_url_witness :
  deleteImage_publicId
    (str "https://res.cloudinary.com/demo/image/upload/v1/jamalpur-chamber/gallery/hall.jpg") =
  str "jamalpur-chamber/gallery/hall".
Proof.
  exact (proj1 (deleteImage_publicId_of_url
    (str "https://res.cloudinary.com/demo/image/upload/v1/jamalpur-chamber/gallery")
    (str "hall") (str "jpg") eq_refl eq_refl)).
Defined.

(* --------------------------------------------------------------------- *)
(** ** From the upload of a notice to its download                         *)
(* --------------------------------------------------------------------- *)

(** X25. The PDF of a notice is not fetched from the address that the
    store gave.  The controller uploads with no options, so when the store
    files the PDF under another resource type than raw the delivery URL is
    kept as the store returned it, with the image path.  The handler then
    moves that URL to the raw path before it fetches: the address it
    requests holds the raw segment and, when the stored URL held the image
    segment once, no image segment at all. *)
Theorem stored_image_url_is_fetched_as_raw (c : Cloudinary) (file : StagedFile)
    (res : UploadResult) (u : jsstring) (w : Server) :
  uploader_upload c (file_path file) (baseConfig ∅) = Ret res ->
  resource_type res <> raw ->
  secure_url res = Some u ->
  includes u cloudinary_host = true ->
  includes u image_segment = true ->
  file_path file ∈ files w ->
  exists res',
    snd (notice_upload c (file_path file) w) = Ret res' /\
    sf_url (stored_file res' file) = VStr u /\
    let fetched := with_attachment (replace u image_segment raw_segment) in
    snd (cloudinary_fetch_url (descriptor_of (stored_file res' file))) =
      Ret fetched /\
    includes fetched raw_segment = true /\
    includes fetched image_segment = negb (occurrences u image_segment <=? 1).
Proof.
  intros Hup Hrt Hu Hhost Himg Hin.
  destruct (uploadToCloudinary_run c (file_path file) ∅ w) as (evs & _ & Hrun).
  rewrite Hup in Hrun. destruct Hrun as (res' & _ & _ & _ & Hurl & Hrun).
  exists res'. unfold notice_upload. rewrite Hrun. cbn [snd].
  rewrite bool_decide_eq_true_2 by exact Hin. split; [reflexivity|].
  assert (secure_url res' = Some u) as Hu'.
  { rewrite Hurl, Hu.
    rewrite (bool_decide_eq_false_2 _ Hrt). reflexivity. }
  assert (sf_url (stored_file res' file) = VStr u) as Hsf
    by (unfold stored_file; cbn [sf_url]; by rewrite Hu').
  split; [exact Hsf|]. cbv zeta. split; [|split].
  - by rewrite (cloudinary_fetch_url_image
                  (descriptor_of (stored_file res' file)) u Hsf Hhost Himg).
  - apply with_attachment_keeps. by apply includes_replace.
  - rewrite with_attachment_image_segment.
    apply replace_image_segment_includes.
Qed.

Lemma stored_image_url_is_fetched_as_raw_witness :
  exists res',
    snd (notice_upload (store_answering plain_url) staged_path
           (disk_with staged_path)) = Ret res' /\
    sf_url (stored_file res'
              (mkStagedFile staged_path (VStr (str "agenda.pdf"))
                 (VStr (str "application/pdf")))) = VStr plain_url /\
    let fetched := with_attachment (replace plain_url image_segment raw_segment) in
    snd (cloudinary_fetch_url
           (descriptor_of
              (stored_file res'
                 (mkStagedFile staged_path (VStr (str "agenda.pdf"))
                    (VStr (str "application/pdf")))))) = Ret fetched /\
    includes fetched raw_segment = true /\
    includes fetched image_segment =
      negb (occurrences plain_url image_segment <=? 1).
Proof.
  apply (stored_image_url_is_fetched_as_raw (store_answering plain_url)
           (mkStagedFile staged_path (VStr (str "agenda.pdf"))
              (VStr (str "application/pdf")))
           (mkUploadResult (str "image") (Some plain_url) (str "notice") 2048)
           plain_url (disk_with staged_path));
    [reflexivity|discriminate|reflexivity|reflexivity|reflexivity|].
  unfold disk_with; cbn [files file_path]; apply elem_of_singleton_2; reflexivity.
Defined.

(* --------------------------------------------------------------------- *)
(** ** The results of the entry points, path by path                       *)
(* --------------------------------------------------------------------- *)

(** The result of each entry point on every path.  [print] returns [true]
    exactly when a window was asked for and given; it returns [false] when
    [window.open] throws, when it gives no window, and when no window is
    asked for.  [view] returns [false] when [window.open] throws and when no
    window is asked for, and [true] otherwise, whether a window was given
    or not.  [download] returns a boolean: [true] exactly when it wrote no
    error line, and then one link was clicked and its cleanup scheduled. *)
Lemma entry_points_results (h : Host) (pdfFile : option PdfFile) :
  snd (print h pdfFile) =
    Ret (match window_answer h pdfFile with
         | Some (Ret given) => given
         | Some (Throw _) | None => false
         end) /\
  snd (view h pdfFile) =
    Ret (match window_answer h pdfFile with
         | Some (Ret _) => true
         | Some (Throw _) | None => false
         end) /\
  snd (download h pdfFile) =
    Ret (match errors_logged (fst (download h pdfFile)) with
         | [] => true
         | _ :: _ => false
         end) /\
  outcome_reported (download h pdfFile).
Proof.
  split; [|split; [|split]].
  - destruct pdfFile as [f|]; [|reflexivity].
    pose proof (view_print_reads h f) as H. cbv zeta in H.
    unfold window_answer. by destruct H as (_ & _ & _ & _ & _ & _ & _ & _ & _ & _ & _ & ->);
      destruct (open_target h f) as [u|]; [destruct (host_open h u)|].
  - destruct pdfFile as [f|]; [|reflexivity].
    pose proof (view_print_reads h f) as H. cbv zeta in H.
    unfold window_answer. by destruct H as (_ & _ & _ & _ & _ & _ & _ & _ & _ & _ & -> & _);
      destruct (open_target h f) as [u|]; [destruct (host_open h u)|].
  - pose proof (download_returns h pdfFile) as [[b Hb] Herr].
    assert (outcome_reported (download h pdfFile)) as Hrep.
    { destruct pdfFile as [f|]; [|by cbn].
      rewrite download_dispatch. unfold download_by.
      destruct (resolve_spec f).
      - apply dispatched_outcome; [reflexivity|apply _downloadFromUrl_outcome].
      - apply dispatched_outcome; [reflexivity|apply _downloadFromServer_outcome].
      - apply dispatched_outcome; [reflexivity|].
        pose proof (_downloadFromDataURL_outcome h f) as H.
        by destruct (snd (_downloadFromDataURL h f)).
      - by cbn. }
    unfold outcome_reported in Hrep. rewrite Hb in Hrep |- *.
    destruct b.
    + destruct Hrep as (-> & _). reflexivity.
    + by destruct (errors_logged (fst (download h pdfFile))).
  - destruct pdfFile as [f|]; [|by cbn].
    rewrite download_dispatch. unfold download_by.
    destruct (resolve_spec f).
    + apply dispatched_outcome; [reflexivity|apply _downloadFromUrl_outcome].
    + apply dispatched_outcome; [reflexivity|apply _downloadFromServer_outcome].
    + apply dispatched_outcome; [reflexivity|].
      pose proof (_downloadFromDataURL_outcome h f) as H.
      by destruct (snd (_downloadFromDataURL h f)).
    + by cbn.
Qed.

(** C10.  The claim fails in [view], on one path: whenever [view] asks for a
    window and the browser gives none ([window.open] returns null), [view]
    returns [true], and nothing is written to the console.  [print], for
    the same argument and the same answer of the browser, tests the window
    and returns [false]. *)
Theorem view_returns_true_without_window (h : Host) (f : PdfFile)
    (u : jsstring) :
  open_target h f = Some u ->
  host_open h u = Ret false ->
  snd (view h (Some f)) = Ret true /\
  opened (fst (view h (Some f))) = [u] /\
  errors_logged (fst (view h (Some f))) = [] /\
  snd (print h (Some f)) = Ret false /\
  opened (fst (print h (Some f))) = [u].
Proof.
  intros Htarget Hopen.
  pose proof (view_print_reads h f) as H. cbv zeta in H.
  rewrite Htarget, Hopen in H.
  destruct H as (Hv & Hp & _ & _ & _ & _ & _ & _ & _ & _ & Hrv & Hrp).
  repeat (split; [assumption|]). split; [|split; assumption].
  pose proof (view_returns h (Some f)) as [_ Herr].
  destruct (errors_logged (fst (view h (Some f)))) as [|l ls] eqn:E;
    [reflexivity|].
  rewrite Herr in Hrv by discriminate. discriminate Hrv.
Qed.

Lemma view_returns_true_without_window_witness :
  open_target blocked_host remote_descriptor =
    Some (str "https://res.cloudinary.com/demo/raw/upload/v1/jamalpur-chamber/notice.pdf") /\
  host_open blocked_host
    (str "https://res.cloudinary.com/demo/raw/upload/v1/jamalpur-chamber/notice.pdf") =
    Ret false /\
  snd (view blocked_host (Some remote_descriptor)) = Ret true /\
  snd (print blocked_host (Some remote_descriptor)) = Ret false.
Proof.
  split; [reflexivity|]. split; [reflexivity|].
  destruct (view_returns_true_without_window blocked_host remote_descriptor
              (str "https://res.cloudinary.com/demo/raw/upload/v1/jamalpur-chamber/notice.pdf")
              eq_refl eq_refl) as (Hv & _ & _ & Hp & _).
  split; [exact Hv|exact Hp].
Defined.
